(** * open_AR_Sandbox: frame pipeline, worker thread and calibration files

    A shallow embedding of the parts of [sandbox/_sandbox_old/sandbox.py]
    that carry the frame geometry (crop, clip, mask, scale, grid lookup),
    the worker thread of a [Module], and the calibration file formats.

    Depth values are rationals (the exact arithmetic behind the numpy
    expressions), sensor margins are Python integers ([Z]), a frame is the
    list of its rows. *)

From Stdlib Require Import ZArith QArith Qminmax Qround List Bool Lia String.
From Stdlib Require Import SpecFloat Lqa.
From stdpp Require Import gmap strings.
Import ListNotations.

#[local] Open Scope Z_scope.
#[local] Set Warnings "-register-all".

(* ===================================================================== *)
(** ** Python / numpy basic slicing *)
(* ===================================================================== *)

Module PySlice.

(** [slice.indices] for step 1: a negative bound counts from the end, and
    every bound is clamped to [0, n]. *)
Definition slice_bound (n i : Z) : Z :=
  if i <? 0 then Z.max 0 (i + n) else Z.min i n.

(** [l[start:stop]]; [stop = None] is the open slice [l[start:]]. *)
Definition slice {A : Type} (start : Z) (stop : option Z) (l : list A) : list A :=
  let n := Z.of_nat (length l) in
  let lo := slice_bound n start in
  let hi := match stop with Some j => slice_bound n j | None => n end in
  firstn (Z.to_nat (hi - lo)) (skipn (Z.to_nat lo) l).

(** [a[r0:r1, c0:c1]] on a two-dimensional array. *)
Definition slice2 {A : Type} (r0 : Z) (r1 : option Z) (c0 : Z) (c1 : option Z)
  (a : list (list A)) : list (list A) :=
  map (slice c0 c1) (slice r0 r1 a).

End PySlice.

(* ===================================================================== *)
(** ** CalibrationData and the frame operations of Module *)
(* ===================================================================== *)

Definition frame := list (list Q).

(** The sensor part of [CalibrationData]. *)
Record CalibrationData := mkCalib {
  s_width : Z;
  s_height : Z;
  s_top : Z;
  s_right : Z;
  s_bottom : Z;
  s_left : Z;
  s_min : Q;
  s_max : Q;
  box_width : Q;
  box_height : Q
}.

Definition s_frame_width (c : CalibrationData) : Z :=
  s_width c - s_left c - s_right c.

Definition s_frame_height (c : CalibrationData) : Z :=
  s_height c - s_top c - s_bottom c.

(** A frame has shape (h, w). *)
Definition has_shape (h w : Z) (f : frame) : Prop :=
  Z.of_nat (length f) = h /\ Forall (fun row => Z.of_nat (length row) = w) f.

Definition Qlt_bool (x y : Q) : bool := negb (Qle_bool y x).

Module Frame.

(** [numpy.maximum] and [numpy.minimum] on scalars. *)
Definition np_maximum (x y : Q) : Q := if Qlt_bool x y then y else x.
Definition np_minimum (x y : Q) : Q := if Qlt_bool y x then y else x.

(** [numpy.clip(x, lo, hi)] is [minimum(maximum(x, lo), hi)]. *)
Definition np_clip (lo hi x : Q) : Q := np_minimum (np_maximum x lo) hi.

(** [numpy.ma.masked_outside(x, v1, v2)]: the bounds are swapped when given
    in the wrong order, and a value is masked when it lies outside. *)
Definition masked_outside (v1 v2 x : Q) : bool :=
  let '(lo, hi) := if Qlt_bool v2 v1 then (v2, v1) else (v1, v2) in
  Qlt_bool x lo || Qlt_bool hi x.

(** [Module.depth_mask]: [True] marks a pixel outside the sensor range.
    (numpy hands out a mask without any [True] as the scalar [nomask];
    here it stays an array of [False].) *)
Definition depth_mask (c : CalibrationData) (f : frame) : list (list bool) :=
  map (map (masked_outside (s_min c) (s_max c))) f.

(** [Module.crop_frame]:
    [frame[s_bottom:-s_top, s_left:-s_right]] *)
Definition crop_frame (c : CalibrationData) (f : frame) : frame :=
  PySlice.slice2 (s_bottom c) (Some (- s_top c)) (s_left c) (Some (- s_right c)) f.

(** [Module.crop_frame_workaround] *)
Definition crop_frame_workaround (c : CalibrationData) (f : frame) : frame :=
  if (s_top c =? 0) && (s_right c =? 0) then
    PySlice.slice2 (s_bottom c) None (s_left c) None f
  else if s_top c =? 0 then
    PySlice.slice2 (s_bottom c) None (s_left c) (Some (- s_right c)) f
  else if s_right c =? 0 then
    PySlice.slice2 (s_bottom c) (Some (- s_top c)) (s_left c) None f
  else
    PySlice.slice2 (s_bottom c) (Some (- s_top c)) (s_left c) (Some (- s_right c)) f.

(** [Module.clip_frame] *)
Definition clip_frame (c : CalibrationData) (f : frame) : frame :=
  map (map (np_clip (s_min c) (s_max c))) f.

(** The crop as the specification words it: drop [s_bottom] rows at the
    start and [s_top] rows at the end, [s_left] columns at the start and
    [s_right] columns at the end. *)
Definition drop_margins {A : Type} (front back : Z) (l : list A) : list A :=
  firstn (length l - Z.to_nat front - Z.to_nat back)%nat (skipn (Z.to_nat front) l).

Definition crop_spec (c : CalibrationData) (f : frame) : frame :=
  map (drop_margins (s_left c) (s_right c)) (drop_margins (s_bottom c) (s_top c) f).

End Frame.

(* ===================================================================== *)
(** ** Exceptions *)
(* ===================================================================== *)

Inductive exn :=
| TypeError | ValueError | IndexError | KeyError | AttributeError | OSError
| UnpicklingError | MaskError.

(** The state a method leaves behind, and the exception it raised, if any. *)
Definition outcome (S : Type) : Type := (S * option exn)%type.

(* ===================================================================== *)
(** ** Scale and Grid *)
(* ===================================================================== *)

(** [Scale.extent], an array of six entries. *)
Record Extent := mkExtent {
  extent0 : Q; extent1 : Q; extent2 : Q; extent3 : Q; extent4 : Q; extent5 : Q
}.

Record Scale := mkScale {
  scale_calibration : CalibrationData;
  extent : Extent
}.

(** [Scale.__init__]: without an extent, the box and the sensor range. *)
Definition Scale_init (c : CalibrationData) (ext : option Extent) : Scale :=
  match ext with
  | None => mkScale c (mkExtent 0 (box_width c) 0 (box_height c) (s_min c) (s_max c))
  | Some e => mkScale c e
  end.

(** [Scale.output_res] *)
Definition output_res (s : Scale) : Z * Z :=
  (s_frame_width (scale_calibration s), s_frame_height (scale_calibration s)).

Record Grid := mkGrid {
  calibration : CalibrationData;
  scale : Scale;
  depth_grid : option (list (Q * Q * Q));
  empty_depth_grid : option (list (Q * Q))
}.

Module GridOps.

(** [Grid.__init__] *)
Definition Grid_init (c : CalibrationData) (sc : option Scale) : Grid :=
  match sc with
  | Some s => mkGrid c s None None
  | None => mkGrid c (Scale_init c None) None None
  end.

(** [numpy.linspace(a, b, num)]: [num] evenly spaced samples, end point
    included; a negative [num] is a ValueError. *)
Definition linspace (a b : Q) (num : Z) : option (list Q) :=
  if num <? 0 then None
  else
    let step := ((b - a) / inject_Z (num - 1))%Q in
    Some (map (fun i => (a + inject_Z (Z.of_nat i) * step)%Q) (seq 0 (Z.to_nat num))).

(** [numpy.vstack([xx.ravel(), yy.ravel()]).T] for
    [xx, yy = numpy.meshgrid(width, height)]: row-major, x runs fastest. *)
Definition meshgrid_points (width height : list Q) : list (Q * Q) :=
  flat_map (fun y => map (fun x => (x, y)) width) height.

(** [Grid.create_empty_depth_grid]; the closing [print] indexes the first
    and the last point and so raises on an empty grid. *)
Definition create_empty_depth_grid (g : Grid) : outcome Grid :=
  let e := extent (scale g) in
  match linspace (extent0 e) (extent1 e) (fst (output_res (scale g))),
        linspace (extent2 e) (extent3 e) (snd (output_res (scale g))) with
  | Some width, Some height =>
      let pts := meshgrid_points width height in
      let g' := mkGrid (calibration g) (scale g) (depth_grid g) (Some pts) in
      match pts with
      | [] => (g', Some IndexError)
      | _ => (g', None)
      end
  | _, _ => (g, Some ValueError)
  end.

(** The scaling of one depth value in [Grid.update_grid], in exact
    arithmetic (numpy rounds each operation to a float64). *)
Definition scale_depth (g : Grid) (d : Q) : Q :=
  (extent5 (extent (scale g)) -
     ((d - s_min (calibration g)) /
      (s_max (calibration g) - s_min (calibration g)) *
      (extent5 (extent (scale g)) - extent4 (extent (scale g)))))%Q.

Definition scaled_frame (g : Grid) (cropped_frame : frame) : frame :=
  map (map (scale_depth g)) cropped_frame.

(** [numpy.c_[xy, z]]: the columns must have the same number of rows. *)
Definition np_c_ (xy : list (Q * Q)) (z : list Q) : option (list (Q * Q * Q)) :=
  if Nat.eqb (length xy) (length z) then Some (combine xy z) else None.

(** The value [Grid.update_grid] binds to its local name [depth_grid], on
    a grid whose xy points exist. *)
Definition update_grid_local (g : Grid) (cropped_frame : frame) : option (list (Q * Q * Q)) :=
  let flattened_depth := concat (scaled_frame g cropped_frame) in
  match empty_depth_grid g with
  | Some xy => np_c_ xy flattened_depth
  | None => None
  end.

(** [Grid.update_grid]: the last statement assigns the plain name
    [depth_grid], not the attribute [self.depth_grid], so the grid itself
    is left as it was.  On a grid whose xy points were never created,
    [numpy.c_] takes [None] as a column of one row, which only a frame of
    one pixel matches. *)
Definition update_grid (g : Grid) (cropped_frame : frame) : outcome Grid :=
  let flattened_depth := concat (scaled_frame g cropped_frame) in
  match empty_depth_grid g with
  | Some xy =>
      match np_c_ xy flattened_depth with
      | Some depth_grid_local => (g, None)
      | None => (g, Some ValueError)
      end
  | None =>
      if Nat.eqb (length flattened_depth) 1 then (g, None) else (g, Some ValueError)
  end.

End GridOps.

(* ===================================================================== *)
(** ** The frame update of GemPyModule and of BlockModule *)
(* ===================================================================== *)

(** The steps of the frame geometry, logged in the order they run. *)
Inductive stage := StCrop | StClip | StMask | StScale | StLookup.

Definition traced (A : Type) : Type := (list stage * A)%type.

Definition tret {A : Type} (a : A) : traced A := ([], a).

Definition tbind {A B : Type} (m : traced A) (k : A -> traced B) : traced B :=
  let '(t1, a) := m in
  let '(t2, b) := k a in
  (t1 ++ t2, b).

Definition at_stage {A : Type} (st : list stage) (a : A) : traced A := (st, a).

Notation "x <~ m ;; k" := (tbind m (fun x => k))
  (at level 100, m at next level, right associativity).

Module Geometry.

(** [a.reshape(rows, cols)] of a flat array. *)
Fixpoint chunks (rows cols : nat) (l : list Q) : frame :=
  match rows with
  | O => []
  | S r => firstn cols l :: chunks r cols (skipn cols l)
  end.

Definition reshape (shape : Z * Z) (l : list Q) : option frame :=
  let '(rows, cols) := shape in
  if (0 <=? rows) && (0 <=? cols) && (Z.of_nat (length l) =? rows * cols)
  then Some (chunks (Z.to_nat rows) (Z.to_nat cols) l)
  else None.

(** The part of a [GemPyModule] that the frame geometry reads and writes. *)
Record GemPyModule := mkGemPy {
  gp_calib : CalibrationData;
  gp_crop : bool;
  gp_grid : Grid;
  gp_resolution : Z * Z;                          (* topography.resolution *)
  gp_topography_values : option (list (Q * Q * Q));
  gp_values_3D_z : option frame                   (* values_3D[:, :, 2] *)
}.

Definition crop_step (c : CalibrationData) (f : frame) : traced frame :=
  at_stage [StCrop] (Frame.crop_frame c f).

Definition clip_step (c : CalibrationData) (f : frame) : traced frame :=
  at_stage [StClip] (Frame.clip_frame c f).

Definition mask_step (c : CalibrationData) (f : frame) : traced (list (list bool)) :=
  at_stage [StMask] (Frame.depth_mask c f).

(** [Grid.update_grid] scales the depths and joins them to the xy grid. *)
Definition update_grid_step (g : Grid) (f : frame) : traced (outcome Grid) :=
  at_stage [StScale; StLookup] (GridOps.update_grid g f).

(** The end of [GemPyModule.update]: the grid's [depth_grid] goes to the
    topography, and its third column, reshaped, to [values_3D]. *)
Definition GemPyModule_store (m : GemPyModule) (r : outcome Grid) : outcome GemPyModule :=
  let '(g, e) := r in
  match e with
  | Some err =>
      (mkGemPy (gp_calib m) (gp_crop m) g (gp_resolution m)
         (gp_topography_values m) (gp_values_3D_z m), Some err)
  | None =>
      let m2 := mkGemPy (gp_calib m) (gp_crop m) g (gp_resolution m)
                  (depth_grid g) (gp_values_3D_z m) in
      match depth_grid g with
      | None => (m2, Some TypeError)      (* None[:, 2] *)
      | Some dg =>
          match reshape (gp_resolution m) (map snd dg) with
          | None => (m2, Some ValueError)
          | Some z => (mkGemPy (gp_calib m) (gp_crop m) g (gp_resolution m)
                         (depth_grid g) (Some z), None)
          end
      end
  end.

(** [GemPyModule.update], from the sensor frame up to the assignment of the
    topography (the model computation and the plotting follow it). *)
Definition GemPyModule_update (m : GemPyModule) (sensor_frame : frame)
  : traced (outcome GemPyModule) :=
  f <~ (if gp_crop m
        then f1 <~ crop_step (gp_calib m) sensor_frame ;; clip_step (gp_calib m) f1
        else tret sensor_frame) ;;
  r <~ update_grid_step (gp_grid m) f ;;
  tret (GemPyModule_store m r).

(** A block array of shape (H, W, D); a masked cell is [None]. *)
Record Block := mkBlock {
  blk_shape : Z * Z * Z;
  blk_cells : list (list (list (option Q)))
}.

Record BlockModule := mkBlockModule {
  bm_calib : CalibrationData;
  bm_crop : bool;
  bm_data : Block;
  bm_index : option (list (list Z));
  bm_result : option (list (list (option Q)))
}.

(** [numpy.round]: to the nearest integer, ties to the even one. *)
Definition round_half_even (q : Q) : Z :=
  let fl := Qfloor q in
  match ((q - inject_Z fl) ?= (1 # 2))%Q with
  | Lt => fl
  | Gt => fl + 1
  | Eq => if Z.even fl then fl else fl + 1
  end.

(** [((frame - zmin) / (zmax - zmin) * (data.shape[2] - 1.0)).round().astype('int')];
    the quotient and the product are exact here, where numpy rounds each
    to a float64: the layer can differ by one at a reading whose exact
    product lies next to a half. *)
Definition depth_index (c : CalibrationData) (depth : Z) (d : Q) : Z :=
  round_half_even ((d - s_min c) / (s_max c - s_min c) * (inject_Z depth - 1))%Q.

Fixpoint zip_with_opt {A B C : Type} (f : A -> B -> option C)
  (la : list A) (lb : list B) : option (list C) :=
  match la, lb with
  | [], [] => Some []
  | a :: la', b :: lb' =>
      match f a b, zip_with_opt f la' lb' with
      | Some c, Some lc => Some (c :: lc)
      | _, _ => None
      end
  | _, _ => None
  end.

(** [cell[k]] with Python's negative indices. *)
Definition index_cell (cell : list (option Q)) (k : Z) : option (option Q) :=
  let d := Z.of_nat (length cell) in
  let k' := if k <? 0 then k + d else k in
  if (0 <=? k') && (k' <? d) then nth_error cell (Z.to_nat k') else None.

(** [data[i, j, index]] for [i, j = numpy.indices(data[..., 0].shape)],
    with an index array of the shape of the data (numpy would also stretch
    an index of one row or one column; a module's frame and blocks both have
    the shape of the cropped sensor frame). *)
Definition block_lookup (data : Block) (index : list (list Z))
  : option (list (list (option Q))) :=
  zip_with_opt (zip_with_opt index_cell) (blk_cells data) index.

(** [numpy.ma.masked_array(result, mask=depth_mask)]: the new mask is
    joined to the one the data already has. *)
Definition apply_mask (result : list (list (option Q))) (mask : list (list bool))
  : option (list (list (option Q))) :=
  zip_with_opt (zip_with_opt (fun x (b : bool) => Some (if b then None else x))) result mask.

Definition scale_step (m : BlockModule) (f : frame) : traced (list (list Z)) :=
  at_stage [StScale]
    (map (map (depth_index (bm_calib m) (snd (blk_shape (bm_data m))))) f).

Definition lookup_step (m : BlockModule) (index : list (list Z))
  : traced (option (list (list (option Q)))) :=
  at_stage [StLookup] (block_lookup (bm_data m) index).

(** The end of [BlockModule.update]: the depth mask is laid over the
    cells looked up, and the result is kept in [self.result]. *)
Definition BlockModule_store (m : BlockModule) (index : list (list Z))
  (mask : list (list bool)) (r : option (list (list (option Q)))) : outcome BlockModule :=
  let m1 := mkBlockModule (bm_calib m) (bm_crop m) (bm_data m) (Some index) (bm_result m) in
  match r with
  | None => (m1, Some IndexError)
  | Some res =>
      match apply_mask res mask with
      | None => (m1, Some MaskError)
      | Some masked =>
          (mkBlockModule (bm_calib m) (bm_crop m) (bm_data m) (Some index)
             (Some masked), None)
      end
  end.

(** [BlockModule.update], from the sensor frame up to [self.result] (the
    plotting follows it). *)
Definition BlockModule_update (m : BlockModule) (sensor_frame : frame)
  : traced (outcome BlockModule) :=
  f <~ (if bm_crop m then crop_step (bm_calib m) sensor_frame else tret sensor_frame) ;;
  mask <~ mask_step (bm_calib m) f ;;
  f' <~ clip_step (bm_calib m) f ;;
  index <~ scale_step m f' ;;
  r <~ lookup_step m index ;;
  tret (BlockModule_store m index mask r).

(** The order of steps as the specification words it. *)
Definition spec_order : list stage := [StCrop; StClip; StMask; StScale; StLookup].

(** The frame update of a block module with its steps in that order: the
    mask is taken from the clipped frame. *)
Definition BlockModule_update_in_spec_order (m : BlockModule) (sensor_frame : frame)
  : traced (outcome BlockModule) :=
  f <~ crop_step (bm_calib m) sensor_frame ;;
  f' <~ clip_step (bm_calib m) f ;;
  mask <~ mask_step (bm_calib m) f' ;;
  index <~ scale_step m f' ;;
  r <~ lookup_step m index ;;
  tret (BlockModule_store m index mask r).

End Geometry.

(* ===================================================================== *)
(** ** The worker thread of a Module *)
(* ===================================================================== *)

Module Threading.

(** [Module.thread_status]: 'stopped', 'running', 'paused'. *)
Inductive status := stopped | running | paused.

Definition status_eqb (a b : status) : bool :=
  match a, b with
  | stopped, stopped | running, running | paused, paused => true
  | _, _ => false
  end.

(** Where a thread started on [thread_loop] stands: at the loop test,
    before [lock.acquire()], before [update()], before [lock.release()],
    past the loop, or ended by an exception. *)
Inductive pc := AtTest | AtAcquire | AtUpdate | AtRelease | Finished | Died.

Definition is_live (p : pc) : bool :=
  match p with
  | Finished | Died => false
  | _ => true
  end.

(** Where the controlling thread stands: between calls, or inside the
    [self.thread.join()] of [stop] or of [pause]. *)
Inductive control := Idle | InStopJoin | InPauseJoin.

(** What a worker did, in the order it happened. *)
Inductive event := EvAcquire | EvUpdate | EvRelease.

Section WithUpdate.

(** The data a module's [update] works on, and [update] itself: the new
    data, or [None] when it raises. *)
Variable Data : Type.
Variable update : Data -> option Data.

Record state := mkState {
  thread_status : status;
  lock : bool;                     (* threading.Lock: is it held? *)
  thread : option nat;             (* self.thread, a handle into [threads] *)
  threads : list pc;               (* every Thread started so far *)
  data : Data;
  ctl : control;
  log : list (nat * event);        (* worker events, oldest first *)
  abandoned : option nat;          (* the thread whose [update] raised *)
  out : list string                (* printed lines, oldest first *)
}.

(** [Module.__init__] *)
Definition init (d : Data) : state :=
  mkState stopped false None [] d Idle [] None [].

Definition print (msg : string) (s : state) : state :=
  mkState (thread_status s) (lock s) (thread s) (threads s) (data s) (ctl s)
    (log s) (abandoned s) (out s ++ [msg]).

Definition set_status (st : status) (s : state) : state :=
  mkState st (lock s) (thread s) (threads s) (data s) (ctl s) (log s)
    (abandoned s) (out s).

Definition set_ctl (c : control) (s : state) : state :=
  mkState (thread_status s) (lock s) (thread s) (threads s) (data s) c (log s)
    (abandoned s) (out s).

(** [self.thread = threading.Thread(target=self.thread_loop); self.thread.start()] *)
Definition start_thread (s : state) : state :=
  mkState (thread_status s) (lock s) (Some (length (threads s)))
    (threads s ++ [AtTest]) (data s) (ctl s) (log s) (abandoned s) (out s).

(** [Module.run] *)
Definition run (s : state) : state :=
  if negb (status_eqb (thread_status s) running) then
    print "Thread started or resumed..." (start_thread (set_status running s))
  else
    print "Thread already running." s.

(** [Module.stop], up to the point where it blocks in [join]. *)
Definition stop (s : state) : state :=
  if negb (status_eqb (thread_status s) stopped) then
    set_ctl InStopJoin (set_status stopped s)
  else
    print "thread was not running." s.

(** [Module.pause], up to the point where it blocks in [join]. *)
Definition pause (s : state) : state :=
  if status_eqb (thread_status s) running then
    set_ctl InPauseJoin (set_status paused s)
  else
    print "There is no thread running." s.

(** [Module.resume] *)
Definition resume (s : state) : state :=
  if negb (status_eqb (thread_status s) stopped) then run s
  else print "Thread already stopped." s.

(** [self.thread.join()] returns once the thread has ended; the caller
    then prints and is back between calls. *)
Definition join_return (s : state) : option state :=
  match thread s with
  | Some t =>
      match threads s !! t with
      | Some p =>
          if is_live p then None
          else
            match ctl s with
            | InStopJoin => Some (print "Thread stopped." (set_ctl Idle s))
            | InPauseJoin => Some (print "Thread paused." (set_ctl Idle s))
            | Idle => None
            end
      | None => None
      end
  | None => None
  end.

Definition set_pc (t : nat) (p : pc) (s : state) : state :=
  mkState (thread_status s) (lock s) (thread s) (<[t := p]> (threads s)) (data s)
    (ctl s) (log s) (abandoned s) (out s).

Definition log_event (t : nat) (e : event) (s : state) : state :=
  mkState (thread_status s) (lock s) (thread s) (threads s) (data s) (ctl s)
    (log s ++ [(t, e)]) (abandoned s) (out s).

Definition set_lock (b : bool) (s : state) : state :=
  mkState (thread_status s) b (thread s) (threads s) (data s) (ctl s) (log s)
    (abandoned s) (out s).

Definition set_data (d : Data) (s : state) : state :=
  mkState (thread_status s) (lock s) (thread s) (threads s) d (ctl s) (log s)
    (abandoned s) (out s).

Definition set_abandoned (t : nat) (s : state) : state :=
  mkState (thread_status s) (lock s) (thread s) (threads s) (data s) (ctl s) (log s)
    (Some t) (out s).

(** One step of thread [t] through [Module.thread_loop]:
<<
    while self.thread_status == 'running':
        self.lock.acquire()
        self.update()
        self.lock.release()
>>
    [acquire] blocks while the lock is held; an [update] that raises ends
    the thread on the spot, with the lock still held; [release] of a lock
    that is not held raises and ends the thread as well. *)
Definition worker_step (t : nat) (s : state) : option state :=
  match threads s !! t with
  | Some AtTest =>
      if status_eqb (thread_status s) running
      then Some (set_pc t AtAcquire s)
      else Some (set_pc t Finished s)
  | Some AtAcquire =>
      if lock s then None
      else Some (set_pc t AtUpdate (log_event t EvAcquire (set_lock true s)))
  | Some AtUpdate =>
      match update (data s) with
      | Some d => Some (set_pc t AtRelease (log_event t EvUpdate (set_data d s)))
      | None => Some (set_pc t Died (set_abandoned t (log_event t EvUpdate s)))
      end
  | Some AtRelease =>
      if lock s
      then Some (set_pc t AtTest (log_event t EvRelease (set_lock false s)))
      else Some (set_pc t Died s)
  | Some Finished => None
  | Some Died => None
  | None => None
  end.

(** What can happen next: the controlling thread calls a method (when it
    is between calls) or returns from a join, or a worker moves. *)
Inductive action :=
| CallRun | CallStop | CallPause | CallResume | JoinReturn | Worker (t : nat).

Definition when_idle (s : state) (s' : state) : option state :=
  match ctl s with Idle => Some s' | _ => None end.

Definition step (a : action) (s : state) : option state :=
  match a with
  | CallRun => when_idle s (run s)
  | CallStop => when_idle s (stop s)
  | CallPause => when_idle s (pause s)
  | CallResume => when_idle s (resume s)
  | JoinReturn => join_return s
  | Worker t => worker_step t s
  end.

Fixpoint exec (acts : list action) (s : state) : option state :=
  match acts with
  | [] => Some s
  | a :: rest =>
      match step a s with
      | Some s' => exec rest s'
      | None => None
      end
  end.

(** The states a module can be in. *)
Definition reachable (s : state) : Prop :=
  exists d acts, exec acts (init d) = Some s.

(** Threads still inside [thread_loop]. *)
Definition live_threads (s : state) : nat :=
  length (filter (fun p => is_live p = true) (threads s)).

(** The [update()] calls among some worker events, and in a module so far. *)
Definition is_update (te : nat * event) : bool :=
  match snd te with
  | EvUpdate => true
  | _ => false
  end.

Definition count_updates (l : list (nat * event)) : nat :=
  length (filter (fun te => is_update te = true) l).

Definition updates (s : state) : nat := count_updates (log s).

(** One full iteration of thread [t]. *)
Definition iteration (t : nat) : list (nat * event) :=
  [(t, EvAcquire); (t, EvUpdate); (t, EvRelease)].

(** The part of an iteration under way, for a thread [t] standing at [p]. *)
Definition pending_of (t : nat) (p : pc) : list (nat * event) :=
  match p with
  | AtUpdate => [(t, EvAcquire)]
  | AtRelease => [(t, EvAcquire); (t, EvUpdate)]
  | _ => []
  end.

(** The part of an iteration under way in a module. *)
Definition pending (s : state) : list (nat * event) :=
  match thread s with
  | Some t =>
      match threads s !! t with
      | Some p => pending_of t p
      | None => []
      end
  | None => []
  end.

(** The iteration that is open: the one an [update] that raised has left
    behind, or else the one under way. *)
Definition open_iteration (s : state) : list (nat * event) :=
  match abandoned s with
  | Some t => [(t, EvAcquire); (t, EvUpdate)]
  | None => pending s
  end.

Definition is_open (s : state) : bool :=
  match open_iteration s with
  | [] => false
  | _ => true
  end.

(** The open iteration once thread [t] stands at [p'], given the thread
    whose [update] has raised, if any. *)
Definition open_after (ab : option nat) (t : nat) (p' : pc) : list (nat * event) :=
  match ab with
  | Some a => [(a, EvAcquire); (a, EvUpdate)]
  | None => pending_of t p'
  end.

(** Steps a worker still takes, at most, once the status is no longer
    'running'. *)
Definition steps_to_finish (p : pc) : nat :=
  match p with
  | AtAcquire => 4
  | AtUpdate => 3
  | AtRelease => 2
  | AtTest => 1
  | Finished | Died => 0
  end.

(** What holds of every state a module can be in. *)
Record inv (s : state) : Prop := mkInv {
  inv_handle : forall t p,
    threads s !! t = Some p -> is_live p = true ->
    thread s = Some t /\ (thread_status s = running \/ ctl s <> Idle);
  inv_lock : lock s = is_open s;
  inv_log : exists ts, log s = flat_map iteration ts ++ open_iteration s;
  inv_running : thread_status s = running -> ctl s = Idle;
  inv_thread : forall t, thread s = Some t -> (t < length (threads s))%nat;
  inv_started : thread s = None -> thread_status s = stopped /\ ctl s = Idle;
  inv_abandoned : forall d, abandoned s = Some d ->
    pending s = [] /\
    forall t p e, threads s !! t = Some p -> is_live p = true -> (t, e) ∉ log s;
  inv_log_threads : forall t e, (t, e) ∈ log s -> (t < length (threads s))%nat
}.

(** [pause()] called in [s] has returned in [s2]: the call, then worker
    steps while the caller waits in [join], then the return. *)
Definition pause_returns (s s2 : state) : Prop :=
  exists ws s1,
    ctl s = Idle /\
    exec (map Worker ws) (pause s) = Some s1 /\
    join_return s1 = Some s2.

(** The same for [stop()]. *)
Definition stop_returns (s s2 : state) : Prop :=
  exists ws s1,
    ctl s = Idle /\
    exec (map Worker ws) (stop s) = Some s1 /\
    join_return s1 = Some s2.

End WithUpdate.

Arguments thread_status {Data} _.
Arguments lock {Data} _.
Arguments thread {Data} _.
Arguments threads {Data} _.
Arguments data {Data} _.
Arguments ctl {Data} _.
Arguments log {Data} _.
Arguments abandoned {Data} _.
Arguments out {Data} _.
Arguments init {Data} _.
Arguments print {Data} _ _.
Arguments set_status {Data} _ _.
Arguments set_ctl {Data} _ _.
Arguments start_thread {Data} _.
Arguments set_pc {Data} _ _ _.
Arguments log_event {Data} _ _ _.
Arguments set_lock {Data} _ _.
Arguments set_data {Data} _ _.
Arguments set_abandoned {Data} _ _.
Arguments when_idle {Data} _ _.
Arguments run {Data} _.
Arguments stop {Data} _.
Arguments pause {Data} _.
Arguments resume {Data} _.
Arguments join_return {Data} _.
Arguments worker_step {Data} _ _ _.
Arguments step {Data} _ _ _.
Arguments exec {Data} _ _ _.
Arguments reachable {Data} _ _.
Arguments live_threads {Data} _.
Arguments updates {Data} _.
Arguments pending {Data} _.
Arguments open_iteration {Data} _.
Arguments is_open {Data} _.
Arguments pause_returns {Data} _ _ _.
Arguments stop_returns {Data} _ _ _.
Arguments inv {Data} _.
Arguments inv_handle {Data s} _ _ _ _ _.
Arguments inv_lock {Data s} _.
Arguments inv_log {Data s} _.
Arguments inv_running {Data s} _ _.
Arguments inv_thread {Data s} _ _ _.
Arguments inv_started {Data s} _ _.
Arguments inv_abandoned {Data s} _ _ _.
Arguments inv_log_threads {Data s} _ _ _ _.

End Threading.

(* ===================================================================== *)
(** ** CalibrationData as JSON *)
(* ===================================================================== *)

Module CalibJson.

(** The values [CalibrationData] keeps in its attributes: [None], numbers,
    strings (the version, the sensor name, the aruco corners as a JSON
    string) and nested lists (the camera matrices, stored with
    [tolist()]). *)
Inductive pyval :=
| PyNone
| PyBool (b : bool)
| PyInt (z : Z)
| PyFloat (f : spec_float)
| PyStr (s : string)
| PyList (l : list pyval).

(** The members of a JSON document. *)
Inductive json :=
| JNull
| JBool (b : bool)
| JInt (z : Z)
| JReal (f : spec_float)
| JString (s : string)
| JArray (l : list json).

(** A calibration file holds one JSON object: its members in the order
    they were written. *)
Definition json_object := list (string * json).

(** The files that exist, by path. *)
Definition filesystem := gmap string json_object.

(** The conversion table of [json.dump]. *)
Fixpoint to_json (v : pyval) : json :=
  match v with
  | PyNone => JNull
  | PyBool b => JBool b
  | PyInt z => JInt z
  | PyFloat f => JReal f
  | PyStr s => JString s
  | PyList l => JArray (map to_json l)
  end.

(** The conversion table of [json.load]. *)
Fixpoint of_json (j : json) : pyval :=
  match j with
  | JNull => PyNone
  | JBool b => PyBool b
  | JInt z => PyInt z
  | JReal f => PyFloat f
  | JString s => PyStr s
  | JArray l => PyList (map of_json l)
  end.

(** [json.dump(d, f)] of a dict writes one member per key. *)
Definition json_dump (d : gmap string pyval) : json_object :=
  map (fun kv => (fst kv, to_json (snd kv))) (map_to_list d).

(** [json.load(f)] builds a dict from the members; of two members with
    one name the later one stays. *)
Definition json_load (o : json_object) : gmap string pyval :=
  list_to_map (reverse (map (fun kv => (fst kv, of_json (snd kv))) o)).

(** The number a Python value stands for in a comparison, if it is one. *)
Inductive number := Finite (q : Q) | PlusInf | MinusInf | NotANumber.

Definition float_number (f : spec_float) : number :=
  match f with
  | S754_zero _ => Finite 0
  | S754_infinity false => PlusInf
  | S754_infinity true => MinusInf
  | S754_nan => NotANumber
  | S754_finite sign m e =>
      let q := (inject_Z (Zpos m) * Qpower 2 e)%Q in
      Finite (if sign then (- q)%Q else q)
  end.

Definition number_of (v : pyval) : option number :=
  match v with
  | PyBool b => Some (Finite (if b then 1 else 0))
  | PyInt z => Some (Finite (inject_Z z))
  | PyFloat f => Some (float_number f)
  | _ => None
  end.

Definition number_eqb (a b : number) : bool :=
  match a, b with
  | Finite x, Finite y => Qeq_bool x y
  | PlusInf, PlusInf | MinusInf, MinusInf => true
  | _, _ => false
  end.

(** Python's [==] on these values. *)
Fixpoint py_eq (a b : pyval) : bool :=
  match number_of a, number_of b with
  | Some x, Some y => number_eqb x y
  | None, None =>
      match a, b with
      | PyNone, PyNone => true
      | PyStr s, PyStr t => String.eqb s t
      | PyList la, PyList lb =>
          (fix list_eq (la : list pyval) (lb : list pyval) : bool :=
             match la, lb with
             | [], [] => true
             | x :: la', y :: lb' => py_eq x y && list_eq la' lb'
             | _, _ => false
             end) la lb
      | _, _ => false
      end
  | _, _ => false
  end.

(** A [CalibrationData] object: its [__dict__]. *)
Definition instance := gmap string pyval.

(** What a method leaves: the object, the files, the printed lines, and
    the exception raised, if any. *)
Record effect := mkEffect {
  self_after : instance;
  files_after : filesystem;
  printed : list string;
  raised : option exn
}.

(** [CalibrationData.save_json]: [json.dump(self.__dict__, calibration_json)]
    into the file opened for writing. *)
Definition save_json (self : instance) (file : string) (fs : filesystem) : effect :=
  mkEffect self (<[file := json_dump self]> fs)
    [("JSON configuration file saved: " ++ file)%string] None.

(** [CalibrationData.load_json] *)
Definition load_json (self : instance) (file : string) (fs : filesystem) : effect :=
  match fs !! file with
  | None => mkEffect self fs [] (Some OSError)
  | Some o =>
      let data := json_load o in
      match data !! "version"%string with
      | None => mkEffect self fs [] (Some KeyError)
      | Some v =>
          match self !! "version"%string with
          | None => mkEffect self fs [] (Some AttributeError)
          | Some sv =>
              if py_eq v sv
              then mkEffect data fs ["JSON configuration loaded."%string] None
              else mkEffect self fs
                     ["JSON configuration incompatible.
Please recalibrate manually!"%string] None
          end
      end
  end.

(** [CalibrationData.__init__] with its default arguments. *)
Definition default_instance : instance :=
  list_to_map
    [("version", PyStr "1.1alpha"); ("p_width", PyInt 1280); ("p_height", PyInt 800);
     ("p_frame_top", PyInt 0); ("p_frame_left", PyInt 0);
     ("p_frame_width", PyInt 600); ("p_frame_height", PyInt 450);
     ("s_name", PyStr "generic"); ("s_width", PyInt 500); ("s_height", PyInt 400);
     ("s_top", PyInt 10); ("s_right", PyInt 10); ("s_bottom", PyInt 10);
     ("s_left", PyInt 10); ("s_min", PyInt 700); ("s_max", PyInt 1500);
     ("box_width", PyFloat (S754_finite false 1000 0));
     ("box_height", PyFloat (S754_finite false 800 0));
     ("aruco_corners", PyNone); ("camera_mtx", PyNone); ("camera_dist", PyNone)]%string.

End CalibJson.

(* ===================================================================== *)
(** ** Calibration.load (the pickled calibration of the older interface) *)
(* ===================================================================== *)

Module CalibPickle.

Section WithPickle.

(** The dict kept in [calibration_data]; what [open(path, 'rb')] gives,
    the bytes of the file or the exception raised (OSError for a file
    that cannot be opened); and what [pickle.load] makes of the bytes. *)
Variable CalData : Type.
Variable open_rb : string -> list Byte.byte + exn.
Variable pickle_load : list Byte.byte -> CalData + exn.

Record Calibration := mkCalibration {
  calibration_file : string;
  calibration_data : CalData
}.

Record load_effect := mkLoadEffect {
  self_after : Calibration;
  printed : list string;
  raised : option exn
}.

(** [pickle.load(open(calibration_file, 'rb'))] *)
Definition read_pickle (path : string) : CalData + exn :=
  match open_rb path with
  | inr e => inr e
  | inl bytes => pickle_load bytes
  end.

(** [Calibration.load]: only an OSError is caught. *)
Definition load (self : Calibration) (calibration_file_arg : option string) : load_effect :=
  let path := match calibration_file_arg with
              | None => calibration_file self
              | Some p => p
              end in
  match read_pickle path with
  | inl d => mkLoadEffect (mkCalibration (calibration_file self) d) [] None
  | inr OSError => mkLoadEffect self ["calibration data file not found"%string] None
  | inr e => mkLoadEffect self [] (Some e)
  end.

End WithPickle.

Arguments calibration_file {CalData} _.
Arguments calibration_data {CalData} _.
Arguments self_after {CalData} _.
Arguments printed {CalData} _.
Arguments raised {CalData} _.
Arguments load {CalData} _ _ _ _.

End CalibPickle.

(* ===================================================================== *)
(** ** Callers of run, stop, pause and resume *)
(* ===================================================================== *)

Module Callbacks.

Import Threading.

Section WithUpdate.

Variable Data : Type.
Variable update : Data -> option Data.

(** [pause()] called in [s] is over in [s2]: it has returned from its
    join, or it has only printed. *)
Definition pause_done (s s2 : state Data) : Prop :=
  ctl s = Idle /\
  if status_eqb (thread_status s) running
  then pause_returns update s s2
  else s2 = pause s.

(** The same for [stop()]. *)
Definition stop_done (s s2 : state Data) : Prop :=
  ctl s = Idle /\
  if status_eqb (thread_status s) stopped
  then s2 = stop s
  else stop_returns update s s2.

(** The callbacks of the widgets that touch what [update] reads
    ([CalibModule._callback_s_top], [BlockModule._callback_selection], ...):
<<
    self.pause()
    ...            # the change; [None] when it raises
    self.resume()
>>
    An exception in the change leaves the callback before [resume]. *)
Definition callback_done (change : Data -> option Data) (s s3 : state Data) : Prop :=
  exists s2,
    pause_done s s2 /\
    s3 = match change (data s2) with
         | Some d => resume (set_data d s2)
         | None => s2
         end.

(** [GemPyModule.change_model]:
<<
    self.stop()
    self.geo_model = geo_model
    self.setup()   # [None] when it raises
    self.run()
>> *)
Definition change_model_done (setup : Data -> option Data) (s s3 : state Data) : Prop :=
  exists s2,
    stop_done s s2 /\
    s3 = match setup (data s2) with
         | Some d => run (set_data d s2)
         | None => s2
         end.

End WithUpdate.

Arguments pause_done {Data} _ _ _.
Arguments stop_done {Data} _ _ _.
Arguments callback_done {Data} _ _ _ _.
Arguments change_model_done {Data} _ _ _ _.

End Callbacks.

(* ===================================================================== *)
(** ** The frame updates of TopoModule and of GradientModule *)
(* ===================================================================== *)

(** A float64 as numpy computes with it: a number, an infinity or nan. *)
Inductive npfloat := Finite (q : Q) | Inf (negative : bool) | NaN.

Module Topo.

(** [h / m] for a Python number [h] and a numpy float [m]: a division by
    zero is no exception, it gives an infinity, or nan for [0 / 0]. *)
Definition np_divide (h m : Q) : npfloat :=
  if Qeq_bool m 0 then
    if Qlt_bool 0 h then Inf false
    else if Qlt_bool h 0 then Inf true
    else NaN
  else Finite (h / m).

(** [x * k] for a pixel [x] and a numpy float [k]. *)
Definition np_multiply (x : Q) (k : npfloat) : npfloat :=
  match k with
  | Finite q => Finite (x * q)
  | Inf neg =>
      if Qlt_bool 0 x then Inf neg
      else if Qlt_bool x 0 then Inf (negb neg)
      else NaN
  | NaN => NaN
  end.

(** [frame.max()]: the largest pixel; an array without pixels has none
    (numpy raises a ValueError). *)
Definition frame_max (f : frame) : option Q :=
  match concat f with
  | [] => None
  | x :: l => Some (fold_left Frame.np_maximum l x)
  end.

(** The part of a [TopoModule] its update reads and writes; [tm_vmin] and
    [tm_vmax] are [plot.vmin] and [plot.vmax]. *)
Record TopoModule := mkTopo {
  tm_calib : CalibrationData;
  tm_crop : bool;
  tm_norm : bool;
  tm_height : Q;
  tm_vmin : Q;
  tm_vmax : Q
}.

(** [TopoModule.update], from the sensor frame to the frame handed to
    [plot.render_frame]; the numbers are exact where numpy rounds each
    operation to a float64:
<<
    if self.crop:
        frame = self.crop_frame(frame)
        frame = self.clip_frame(frame)
        frame = self.calib.s_max - frame
    if self.norm:
        frame = frame * (self.height / frame.max())
        self.plot.vmin = 0
        self.plot.vmax = self.height
>> *)
Definition TopoModule_update (m : TopoModule) (sensor_frame : frame)
  : TopoModule * (list (list npfloat) + exn) :=
  let c := tm_calib m in
  let frame1 :=
    if tm_crop m
    then map (map (fun x => (s_max c - x)%Q))
           (Frame.clip_frame c (Frame.crop_frame c sensor_frame))
    else sensor_frame in
  if tm_norm m then
    match frame_max frame1 with
    | None => (m, inr ValueError)
    | Some mx =>
        (mkTopo c (tm_crop m) (tm_norm m) (tm_height m) 0 (tm_height m),
         inl (map (map (fun x => np_multiply x (np_divide (tm_height m) mx))) frame1))
    end
  else (m, inl (map (map Finite) frame1)).

End Topo.

Module Gradient.

(** [numpy.gradient] needs two samples along each axis and raises a
    ValueError on less. *)
Definition np_gradient_defined (f : frame) : bool :=
  (2 <=? Z.of_nat (length f)) && forallb (fun row => 2 <=? Z.of_nat (length row)) f.

(** [GradientModule.update] up to the gradients of [plot_grad]: the frame
    is cropped and clipped when [crop] is set, and [plot_grad] clips it
    again before it takes [numpy.gradient] of it.  The result is the frame
    kept in [self.frame]. *)
Definition GradientModule_update (c : CalibrationData) (crop : bool) (sensor_frame : frame)
  : outcome frame :=
  let frame1 :=
    if crop then Frame.clip_frame c (Frame.crop_frame c sensor_frame)
    else sensor_frame in
  let frame2 := map (map (Frame.np_clip (s_min c) (s_max c))) frame1 in
  if np_gradient_defined frame2 then (frame2, None) else (frame2, Some ValueError).

End Gradient.

(* ===================================================================== *)
(** ** Scale.calculate_scales *)
(* ===================================================================== *)

Module ScaleOps.

(** The attributes [calculate_scales] fills in; [Scale.__init__] sets
    their entries to [None]. *)
Record ScaleAttrs := mkScaleAttrs {
  pixel_scale : option Q * option Q;
  pixel_size : option Q * option Q;
  scale_xyz : option Q * option Q * option Q
}.

Definition ScaleAttrs_init : ScaleAttrs :=
  mkScaleAttrs (None, None) (None, None) (None, None, None).

(** Python's [a / b] on floats: a zero divisor raises ZeroDivisionError,
    here [None]. *)
Definition py_div (a b : Q) : option Q :=
  if Qeq_bool b 0 then None else Some (a / b)%Q.

(** [Scale.calculate_scales]: the attributes as they are when the method
    ends, and whether it ended in a ZeroDivisionError ([true]); what was
    assigned before the exception stays assigned. *)
Definition calculate_scales (s : Scale) (xy_isometric : bool) (a : ScaleAttrs)
  : ScaleAttrs * bool :=
  let e := extent s in
  let c := scale_calibration s in
  let w := inject_Z (fst (output_res s)) in
  let h := inject_Z (snd (output_res s)) in
  match py_div (extent1 e - extent0 e) w with
  | None => (a, true)
  | Some ps0 =>
  let a1 := mkScaleAttrs (Some ps0, snd (pixel_scale a)) (pixel_size a) (scale_xyz a) in
  match py_div (extent3 e - extent2 e) h with
  | None => (a1, true)
  | Some ps1 =>
  let a2 := mkScaleAttrs (Some ps0, Some ps1) (pixel_size a) (scale_xyz a) in
  match py_div (box_width c) w with
  | None => (a2, true)
  | Some sz0 =>
  let a3 := mkScaleAttrs (Some ps0, Some ps1) (Some sz0, snd (pixel_size a)) (scale_xyz a) in
  match py_div (box_height c) h with
  | None => (a3, true)
  | Some sz1 =>
  let '(p0, p1) :=
    if xy_isometric
    then if Qle_bool ps1 ps0 then (ps0, ps0) else (ps1, ps1)
    else (ps0, ps1) in
  let a4 := mkScaleAttrs (Some p0, Some p1) (Some sz0, Some sz1) (scale_xyz a) in
  match py_div p0 sz0 with
  | None => (a4, true)
  | Some sc0 =>
  let a5 := mkScaleAttrs (Some p0, Some p1) (Some sz0, Some sz1)
              (Some sc0, snd (fst (scale_xyz a)), snd (scale_xyz a)) in
  match py_div p1 sz1 with
  | None => (a5, true)
  | Some sc1 =>
  let a6 := mkScaleAttrs (Some p0, Some p1) (Some sz0, Some sz1)
              (Some sc0, Some sc1, snd (scale_xyz a)) in
  match py_div (extent5 e - extent4 e) (s_max c - s_min c) with
  | None => (a6, true)
  | Some sc2 =>
      (mkScaleAttrs (Some p0, Some p1) (Some sz0, Some sz1) (Some sc0, Some sc1, Some sc2),
       false)
  end end end end end end end.

End ScaleOps.

(* ===================================================================== *)
(** ** Calibration.save and Calibration.load on one file system *)
(* ===================================================================== *)

Module CalibPickleFs.

Section WithPickle.

(** The dict kept in [calibration_data], what [pickle.dump] writes for it
    and what [pickle.load] makes of bytes; and the paths [open(path, 'wb')]
    can open (it raises an OSError on the others). *)
Variable CalData : Type.
Variable pickle_dump : CalData -> list Byte.byte.
Variable pickle_load : list Byte.byte -> CalData + exn.
Variable writable : string -> bool.

(** The files that exist, by path. *)
Definition files := gmap string (list Byte.byte).

(** [open(path, 'rb')] *)
Definition open_rb (fs : files) (path : string) : list Byte.byte + exn :=
  match fs !! path with
  | Some bytes => inl bytes
  | None => inr OSError
  end.

Record save_effect := mkSaveEffect {
  files_after : files;
  save_printed : list string;
  save_raised : option exn
}.

(** [Calibration.save]:
<<
    if calibration_file == None:
        calibration_file = self.calibration_file
    pickle.dump(self.calibration_data, open(calibration_file, 'wb'))
    print("calibration saved to " + str(calibration_file))
>> *)
Definition save (self : CalibPickle.Calibration CalData)
  (calibration_file_arg : option string) (fs : files) : save_effect :=
  let path := match calibration_file_arg with
              | None => CalibPickle.calibration_file self
              | Some p => p
              end in
  if writable path then
    mkSaveEffect (<[path := pickle_dump (CalibPickle.calibration_data self)]> fs)
      [("calibration saved to " ++ path)%string] None
  else mkSaveEffect fs [] (Some OSError).

(** [Calibration.load] reading from these files. *)
Definition load (self : CalibPickle.Calibration CalData)
  (calibration_file_arg : option string) (fs : files)
  : CalibPickle.load_effect CalData :=
  CalibPickle.load (open_rb fs) pickle_load self calibration_file_arg.

End WithPickle.

Arguments save {CalData} _ _ _ _ _.
Arguments load {CalData} _ _ _ _.

End CalibPickleFs.

(* ===================================================================== *)
(** ** The box of LoadSaveTopoModule *)
(* ===================================================================== *)

Module BoxTopo.

(** The part of a [LoadSaveTopoModule] that places its box. *)
Record LoadSaveTopoModule := mkLoadSaveTopo {
  ls_calib : CalibrationData;
  ls_crop : bool;
  box_origin : Z * Z;
  box_width : Z;
  box_height : Z
}.

(** [LoadSaveTopoModule.__init__] *)
Definition LoadSaveTopoModule_init (c : CalibrationData) (crop : bool) : LoadSaveTopoModule :=
  mkLoadSaveTopo c crop (10, 10) 230 190.

(** [LoadSaveTopoModule.moveBox_possible] *)
Definition moveBox_possible (m : LoadSaveTopoModule) (x y width height : Z)
  : LoadSaveTopoModule :=
  let c := ls_calib m in
  let w := if x + width >=? s_frame_width c then s_frame_width c - x else width in
  let h := if y + height >=? s_frame_height c then s_frame_height c - y else height in
  mkLoadSaveTopo c (ls_crop m) (x, y) w h.

(** The four sliders of the box, each with the new value of its event. *)
Inductive box_event :=
| MoveBoxHorizontal (new : Z)
| MoveBoxVertical (new : Z)
| BoxWidth (new : Z)
| BoxHeight (new : Z).

(** [_callback_move_box_horizontal], [_callback_move_box_vertical],
    [_callback_box_width] and [_callback_box_height]. *)
Definition callback (m : LoadSaveTopoModule) (ev : box_event) : LoadSaveTopoModule :=
  match ev with
  | MoveBoxHorizontal new =>
      moveBox_possible m new (snd (box_origin m)) (box_width m) (box_height m)
  | MoveBoxVertical new =>
      moveBox_possible m (fst (box_origin m)) new (box_width m) (box_height m)
  | BoxWidth new =>
      moveBox_possible m (fst (box_origin m)) (snd (box_origin m)) new (box_height m)
  | BoxHeight new =>
      moveBox_possible m (fst (box_origin m)) (snd (box_origin m)) (box_width m) new
  end.

(** The range of the slider an event comes from: [start=0] and
    [end=s_frame_width] or [end=s_frame_height]. *)
Definition in_slider_range (c : CalibrationData) (ev : box_event) : Prop :=
  match ev with
  | MoveBoxHorizontal new | BoxWidth new => 0 <= new <= s_frame_width c
  | MoveBoxVertical new | BoxHeight new => 0 <= new <= s_frame_height c
  end.

(** The box lies inside the cropped frame. *)
Definition box_in_frame (m : LoadSaveTopoModule) : Prop :=
  0 <= fst (box_origin m) /\ 0 <= snd (box_origin m) /\
  0 <= box_width m /\ 0 <= box_height m /\
  fst (box_origin m) + box_width m <= s_frame_width (ls_calib m) /\
  snd (box_origin m) + box_height m <= s_frame_height (ls_calib m).

(** [frame[box_origin[1]:box_origin[1] + box_height,
           box_origin[0]:box_origin[0] + box_width]] *)
Definition box_slice {A : Type} (m : LoadSaveTopoModule) (f : list (list A))
  : list (list A) :=
  let '(ox, oy) := box_origin m in
  PySlice.slice2 oy (Some (oy + box_height m)) ox (Some (ox + box_width m)) f.

Definition np_sum (l : list Q) : Q := fold_right Qplus 0%Q l.

(** [a.mean()]; numpy gives nan for an array without pixels, which has no
    pixel to subtract it from. *)
Definition np_mean (f : frame) : Q :=
  (np_sum (concat f) / inject_Z (Z.of_nat (length (concat f))))%Q.

(** [LoadSaveTopoModule.getBoxFrame], on the frame the sensor hands out:
    the absolute and the relative topography, their numbers exact where
    numpy rounds each operation to a float64. *)
Definition getBoxFrame (m : LoadSaveTopoModule) (sensor_frame : frame)
  : frame * list (list npfloat) :=
  let c := ls_calib m in
  let frame1 := if ls_crop m then Frame.crop_frame c sensor_frame else sensor_frame in
  let cropped_frame := box_slice m frame1 in
  let mean_height := np_mean cropped_frame in
  let absolute_topo := map (map (fun x => (x - mean_height)%Q)) cropped_frame in
  let relative_topo :=
    map (map (fun x => Topo.np_divide x (s_max c - s_min c)%Q)) absolute_topo in
  (absolute_topo, relative_topo).

(** [LoadSaveTopoModule.modify_to_box_coordinates]: [box_origin[0]]
    columns of nan are put in front of the columns and then
    [box_origin[1]] rows of nan in front of the rows; [numpy.ones] raises
    a ValueError on a negative count.  (A frame without rows is taken to
    have no columns.) *)
Definition modify_to_box_coordinates (m : LoadSaveTopoModule) (f : list (list npfloat))
  : list (list npfloat) + exn :=
  let '(ox, oy) := box_origin m in
  if ox <? 0 then inr ValueError
  else
    let frame1 := map (fun row => repeat NaN (Z.to_nat ox) ++ row) f in
    if oy <? 0 then inr ValueError
    else
      let height := match frame1 with
                    | [] => Z.to_nat ox
                    | row :: _ => length row
                    end in
      inl (repeat (repeat NaN height) (Z.to_nat oy) ++ frame1).

End BoxTopo.

(* ===================================================================== *)
(** ** ArucoMarkers: box coordinates and automatic cropping *)
(* ===================================================================== *)

Module Aruco.

(** A row of [aruco_markers]: the position of a marker in the depth
    frame, in pixels. *)
Record Marker := mkMarker {
  Depth_x : Z;
  Depth_y : Z
}.

(** The columns [transform_to_box_coordinates] fills in for one marker. *)
Definition box_x (c : CalibrationData) (mk : Marker) : Z := Depth_x mk - s_left c.

Definition box_y (c : CalibrationData) (mk : Marker) : Z :=
  s_height c - Depth_y mk - s_bottom c.

Definition is_inside_box (c : CalibrationData) (mk : Marker) : bool :=
  (s_frame_width c >? Depth_x mk - s_left c) && (Depth_x mk - s_left c >? 0) &&
  ((s_frame_height c >? s_height c - Depth_y mk - s_bottom c) &&
   (s_height c - Depth_y mk - s_bottom c >? 0)).

(** [ArucoMarkers.crop_image_aruco], from the markers of the upper left
    and of the lower right corner: [(s_top, s_left, s_bottom, s_right)]. *)
Definition crop_image_aruco (c : CalibrationData) (id_LU id_DR : Marker)
  : Z * Z * Z * Z :=
  (Depth_y id_LU, Depth_x id_LU, s_height c - Depth_y id_DR, s_width c - Depth_x id_DR).

(** The calibration after [CalibModule._callback_automatic_cropping]. *)
Definition automatic_cropping (c : CalibrationData) (id_LU id_DR : Marker)
  : CalibrationData :=
  let '(new_top, new_left, new_bottom, new_right) := crop_image_aruco c id_LU id_DR in
  mkCalib (s_width c) (s_height c) new_top new_right new_bottom new_left (s_min c) (s_max c)
    (box_width c) (box_height c).

End Aruco.

(* ===================================================================== *)
(** ** The frames of a LandslideSimulation *)
(* ===================================================================== *)

Module Landslide.

Inductive flow := FlowNone | Horizontal | Vertical.

(** The part of a [LandslideSimulation] that picks the frame to show; a
    flow array is given by the length of its third axis, [None] before
    anything was loaded. *)
Record LandslideSimulation := mkLandslide {
  horizontal_flow : option Z;
  vertical_flow : option Z;
  flow_selector : flow;
  frame_selector : Z;
  counter : Z;
  simulation_frame : Z;
  running_simulation : bool
}.

(** [LandslideSimulation.__init__] *)
Definition LandslideSimulation_init : LandslideSimulation :=
  mkLandslide None None FlowNone 0 1 0 false.

(** [load_simulation_data_npz] for arrays with [nv] and [nh] frames. *)
Definition load_simulation_data_npz (m : LandslideSimulation) (nv nh : Z)
  : LandslideSimulation :=
  mkLandslide (Some nh) (Some nv) (flow_selector m) (frame_selector m) (nh - 1)
    (simulation_frame m) (running_simulation m).

(** [a[:, :, k]]: the index of the frame taken, with Python's negative
    indices; out of range it is an IndexError, and on [None] a TypeError. *)
Definition take_frame (a : option Z) (k : Z) : Z + exn :=
  match a with
  | None => inr TypeError
  | Some n =>
      let k' := if k <? 0 then k + n else k in
      if (0 <=? k') && (k' <? n) then inl k' else inr IndexError
  end.

(** [LandslideSimulation.plot_landslide_frame], up to the choice of the
    frame it draws ([None] when no flow is selected). *)
Definition plot_landslide_frame (m : LandslideSimulation)
  : LandslideSimulation * (option Z + exn) :=
  let sf :=
    if running_simulation m then
      if simulation_frame m + 1 =? counter m + 1 then 0 else simulation_frame m + 1
    else simulation_frame m in
  let m' := mkLandslide (horizontal_flow m) (vertical_flow m) (flow_selector m)
              (frame_selector m) (counter m) sf (running_simulation m) in
  let k := if running_simulation m then sf else frame_selector m in
  match flow_selector m with
  | FlowNone => (m', inl None)
  | Horizontal =>
      match take_frame (horizontal_flow m) k with
      | inl i => (m', inl (Some i))
      | inr e => (m', inr e)
      end
  | Vertical =>
      match take_frame (vertical_flow m) k with
      | inl i => (m', inl (Some i))
      | inr e => (m', inr e)
      end
  end.

(** [_callback_load] sets the end of the frame slider to
    [self.counter + 1]. *)
Definition frame_selector_end (m : LandslideSimulation) : Z := counter m + 1.

(** [_callback_select_frame], between its [pause()] and its [resume()]:
    the new value is stored and the frame is drawn. *)
Definition callback_select_frame (m : LandslideSimulation) (new : Z)
  : LandslideSimulation * (option Z + exn) :=
  plot_landslide_frame
    (mkLandslide (horizontal_flow m) (vertical_flow m) (flow_selector m) new
       (counter m) (simulation_frame m) (running_simulation m)).

(** [n] updates one after the other, as long as none raises: the frames
    drawn, oldest first. *)
Fixpoint plot_landslide_frames (n : nat) (m : LandslideSimulation)
  : LandslideSimulation * (list (option Z) + exn) :=
  match n with
  | O => (m, inl [])
  | S n' =>
      match plot_landslide_frame m with
      | (m', inr e) => (m', inr e)
      | (m', inl i) =>
          match plot_landslide_frames n' m' with
          | (m'', inr e) => (m'', inr e)
          | (m'', inl l) => (m'', inl (i :: l))
          end
      end
  end.

End Landslide.

(* ===================================================================== *)
(** ** The margin patches of Plot *)
(* ===================================================================== *)

Module PlotMargins.

(** [plt.Rectangle((x, y), width, height)] *)
Record Rectangle := mkRectangle {
  rect_x : Z;
  rect_y : Z;
  rect_width : Z;
  rect_height : Z
}.

(** [Plot.add_margins]: the patches of the top, right, bottom and left
    margin. *)
Definition add_margins (c : CalibrationData) : list Rectangle :=
  [mkRectangle 0 (s_height c - s_top c) (s_width c) (s_top c);
   mkRectangle (s_width c - s_right c) 0 (s_right c) (s_height c);
   mkRectangle 0 0 (s_width c) (s_bottom c);
   mkRectangle 0 0 (s_left c) (s_height c)].

(** [pcolormesh(data)] draws the pixel of row [i] and column [j] on the
    square from [(j, i)] to [(j + 1, i + 1)]; a patch covers the pixel
    when the square lies inside it. *)
Definition covers (r : Rectangle) (i j : Z) : bool :=
  (rect_x r <=? j) && (j + 1 <=? rect_x r + rect_width r) &&
  (rect_y r <=? i) && (i + 1 <=? rect_y r + rect_height r).

Definition in_margin (c : CalibrationData) (i j : Z) : bool :=
  existsb (fun r => covers r i j) (add_margins c).

End PlotMargins.

(* ===================================================================== *)
(** ** Sample inputs *)
(* ===================================================================== *)

Definition calib_zero_top : CalibrationData :=
  mkCalib 3 3 0 1 1 1 (700 # 1) (1500 # 1) (1000 # 1) (800 # 1).

Definition calib_zero_right : CalibrationData :=
  mkCalib 3 3 1 0 1 1 (700 # 1) (1500 # 1) (1000 # 1) (800 # 1).

Definition calib_unit_margins : CalibrationData :=
  mkCalib 3 3 1 1 1 1 (700 # 1) (1500 # 1) (1000 # 1) (800 # 1).

Definition frame_3x3 : frame :=
  [[1 # 1; 2 # 1; 3 # 1]; [4 # 1; 5 # 1; 6 # 1]; [7 # 1; 8 # 1; 9 # 1]].

(** A 4x5 sensor frame with readings below, inside and above the range
    700..1500 in the part the unit margins keep. *)
Definition frame_4x5 : frame :=
  [[0; 0; 0; 0; 0];
   [0; 700 # 1; 1100 # 1; 1600 # 1; 0];
   [0; 600 # 1; 1100 # 1; 1500 # 1; 0];
   [0; 0; 0; 0; 0]]%Q.

Definition calib_4x5 : CalibrationData :=
  mkCalib 5 4 1 1 1 1 (700 # 1) (1500 # 1) (1000 # 1) (800 # 1).

(** The grid of a module right after its setup. *)
Definition grid_4x5 : Grid :=
  fst (GridOps.create_empty_depth_grid (GridOps.Grid_init calib_4x5 None)).

Definition gempy_4x5 : Geometry.GemPyModule :=
  Geometry.mkGemPy calib_4x5 true grid_4x5 (2, 3) None None.

Definition block_2x3x3 : Geometry.Block :=
  Geometry.mkBlock (2, 3, 3)
    [[[Some 1; Some 2; Some 3]; [Some 4; Some 5; Some 6]; [Some 7; Some 8; Some 9]];
     [[Some 1; Some 2; Some 3]; [Some 4; Some 5; Some 6]; [Some 7; Some 8; Some 9]]]%Q.

Definition blockmodule_4x5 : Geometry.BlockModule :=
  Geometry.mkBlockModule calib_4x5 true block_2x3x3 None None.

(** A module counting its updates, whose fourth update raises; the module
    after [run()] and two steps of its worker (the worker is about to call
    [update]), and the same module right after [run()]. *)
Definition count_update (n : nat) : option nat :=
  if Nat.ltb n 3 then Some (S n) else None.

Definition module_in_update : Threading.state nat :=
  default (Threading.init 0%nat)
    (Threading.exec count_update [Threading.CallRun; Threading.Worker 0; Threading.Worker 0]
       (Threading.init 0%nat)).

Definition module_started : Threading.state nat :=
  default (Threading.init 0%nat)
    (Threading.exec count_update [Threading.CallRun] (Threading.init 0%nat)).

(** A module whose every update raises, as the update of a
    [GemPyModule] does, after [run()] and two steps of its worker: the
    worker holds the lock and is about to call [update]. *)
Definition always_raises (n : nat) : option nat := None.

Definition module_raising : Threading.state nat :=
  default (Threading.init 0%nat)
    (Threading.exec always_raises
       [Threading.CallRun; Threading.Worker 0; Threading.Worker 0] (Threading.init 0%nat)).

(** The sample module after its fourth update has raised. *)
Definition module_after_raise : Threading.state nat :=
  default (Threading.init 0%nat)
    (Threading.exec count_update
       (Threading.CallRun :: repeat (Threading.Worker 0) 15) (Threading.init 0%nat)).

(** The sample module paused by hand: after [run()], [pause()] and the
    return of its join. *)
Definition module_paused : Threading.state nat :=
  default (Threading.init 0%nat)
    (Threading.exec count_update
       [Threading.CallRun; Threading.CallPause; Threading.Worker 0; Threading.JoinReturn]
       (Threading.init 0%nat)).

(** A topography module on the 4x5 sensor, and one whose calibration has
    no top margin. *)
Definition topo_4x5 : Topo.TopoModule :=
  Topo.mkTopo calib_4x5 true true (2000 # 1) 0 (500 # 1).

Definition topo_zero_top : Topo.TopoModule :=
  Topo.mkTopo calib_zero_top true true (2000 # 1) 0 (500 # 1).

(** The calibration [CalibrationData.__init__] makes by default, and the
    box module on it. *)
Definition calib_default : CalibrationData :=
  mkCalib 500 400 10 10 10 10 (700 # 1) (1500 # 1) (1000 # 1) (800 # 1).

Definition box_module_default : BoxTopo.LoadSaveTopoModule :=
  BoxTopo.LoadSaveTopoModule_init calib_default true.

(** A box of one row and two columns at (1, 0) in the cropped 4x5 frame. *)
Definition box_module_4x5 : BoxTopo.LoadSaveTopoModule :=
  BoxTopo.mkLoadSaveTopo calib_4x5 true (1, 0) 2 1.

(** A landslide simulation of three frames, loaded and set running. *)
Definition landslide_3 : Landslide.LandslideSimulation :=
  Landslide.mkLandslide (Some 3) (Some 3) Landslide.Horizontal 0 2 0 true.

(* ===================================================================== *)
(** * Properties *)
(* ===================================================================== *)

(** ** Slices and crops *)

Section SliceFacts.

Context {A : Type}.
Implicit Types l : list A.

(** [l[a:-b]] with [b > 0] drops [a] items in front and [b] at the back. *)
Lemma slice_negative_stop (a b : Z) l :
  0 <= a -> 0 < b ->
  PySlice.slice a (Some (- b)) l = Frame.drop_margins a b l.
Proof.
  intros Ha Hb. unfold PySlice.slice, Frame.drop_margins, PySlice.slice_bound.
  set (n := length l).
  assert (Ha' : (a <? 0) = false) by lia.
  assert (Hb' : (- b <? 0) = true) by lia.
  rewrite Ha', Hb'.
  destruct (Z_le_gt_dec a (Z.of_nat n)) as [Hle | Hgt].
  - rewrite Z.min_l by lia.
    replace (Z.to_nat (Z.max 0 (- b + Z.of_nat n) - a))
      with (n - Z.to_nat a - Z.to_nat b)%nat by lia.
    reflexivity.
  - rewrite Z.min_r by lia.
    rewrite !skipn_all2 by (subst n; lia).
    now rewrite !firstn_nil.
Qed.

(** [l[a:]] drops [a] items in front. *)
Lemma slice_open_stop (a : Z) l :
  0 <= a -> PySlice.slice a None l = Frame.drop_margins a 0 l.
Proof.
  intros Ha. unfold PySlice.slice, Frame.drop_margins, PySlice.slice_bound.
  set (n := length l).
  assert (Ha' : (a <? 0) = false) by lia. rewrite Ha'.
  destruct (Z_le_gt_dec a (Z.of_nat n)) as [Hle | Hgt].
  - rewrite Z.min_l by lia.
    replace (Z.to_nat (Z.of_nat n - a)) with (n - Z.to_nat a - Z.to_nat 0)%nat by lia.
    reflexivity.
  - rewrite Z.min_r by lia.
    rewrite !skipn_all2 by (subst n; lia).
    now rewrite !firstn_nil.
Qed.

(** [l[a:-0]] is [l[a:0]]: nothing. *)
Lemma slice_zero_stop (a : Z) l :
  0 <= a -> PySlice.slice a (Some (- 0)) l = [].
Proof.
  intros Ha. unfold PySlice.slice, PySlice.slice_bound.
  change (- 0) with 0. change (0 <? 0) with false.
  assert (Ha' : (a <? 0) = false) by lia. rewrite Ha'.
  replace (Z.to_nat (Z.min 0 (Z.of_nat (length l)) - Z.min a (Z.of_nat (length l))))
    with 0%nat by lia.
  reflexivity.
Qed.

Lemma drop_margins_length (a b : Z) l :
  length (Frame.drop_margins a b l) = (length l - Z.to_nat a - Z.to_nat b)%nat.
Proof.
  unfold Frame.drop_margins. rewrite length_firstn, length_skipn. lia.
Qed.

End SliceFacts.

Section CropFacts.

Variable c : CalibrationData.

Lemma slice2_negative_stops (f : frame) :
  0 <= s_bottom c -> 0 < s_top c -> 0 <= s_left c -> 0 < s_right c ->
  PySlice.slice2 (s_bottom c) (Some (- s_top c)) (s_left c) (Some (- s_right c)) f
  = Frame.crop_spec c f.
Proof.
  intros. unfold PySlice.slice2, Frame.crop_spec.
  rewrite slice_negative_stop by assumption.
  apply map_ext. intros row. now apply slice_negative_stop.
Qed.

(** With margins that are not negative, the workaround is the crop the
    specification describes. *)
Lemma crop_frame_workaround_is_crop_spec (f : frame) :
  0 <= s_top c -> 0 <= s_right c -> 0 <= s_bottom c -> 0 <= s_left c ->
  Frame.crop_frame_workaround c f = Frame.crop_spec c f.
Proof.
  intros Ht Hr Hb Hl. unfold Frame.crop_frame_workaround.
  destruct (Z.eqb_spec (s_top c) 0) as [Et | Nt];
    destruct (Z.eqb_spec (s_right c) 0) as [Er | Nr]; cbn [andb].
  - unfold PySlice.slice2, Frame.crop_spec. rewrite Et, Er.
    rewrite slice_open_stop by assumption.
    apply map_ext. intros row. now apply slice_open_stop.
  - unfold PySlice.slice2, Frame.crop_spec. rewrite Et.
    rewrite slice_open_stop by assumption.
    apply map_ext. intros row. apply slice_negative_stop; lia.
  - unfold PySlice.slice2, Frame.crop_spec. rewrite Er.
    rewrite slice_negative_stop by lia.
    apply map_ext. intros row. now apply slice_open_stop.
  - apply slice2_negative_stops; lia.
Qed.

(** The crop of the specification has the shape the calibration gives. *)
Lemma crop_spec_shape (f : frame) (h w : Z) :
  0 <= s_top c -> 0 <= s_right c -> 0 <= s_bottom c -> 0 <= s_left c ->
  s_top c + s_bottom c < h -> s_left c + s_right c < w ->
  has_shape h w f ->
  has_shape (h - s_top c - s_bottom c) (w - s_left c - s_right c) (Frame.crop_spec c f).
Proof.
  intros Ht Hr Hb Hl Hh Hw [Hrows Hcols]. unfold Frame.crop_spec. split.
  - rewrite length_map, drop_margins_length. lia.
  - apply Forall_map.
    assert (Hsub : Forall (fun row : list Q => Z.of_nat (length row) = w)
                     (Frame.drop_margins (s_bottom c) (s_top c) f)).
    { unfold Frame.drop_margins. apply Forall_take, Forall_drop, Hcols. }
    eapply Forall_impl; [exact Hsub |]. intros row Hrow. cbn beta in *.
    rewrite drop_margins_length. lia.
Qed.

End CropFacts.

(** C5. On a calibration with [s_top = 0], [Module.crop_frame] returns the
    empty frame whatever the frame is, and with [s_right = 0] it returns
    rows without columns: the top and the right margin cannot be zero,
    although the crop with a zero margin is a frame of
    [s_height - s_bottom] rows.  With [s_top > 0] and [s_right > 0] the
    result is the crop of the specification, of shape
    (h - s_top - s_bottom, w - s_left - s_right) on a frame of shape (h, w)
    that the margins leave room in. *)
Theorem crop_frame_zero_margin_is_empty (c : CalibrationData) (f : frame) :
  0 <= s_bottom c -> 0 <= s_left c ->
  (s_top c = 0 -> Frame.crop_frame c f = []) /\
  (s_right c = 0 -> Forall (fun row => row = []) (Frame.crop_frame c f)) /\
  (0 < s_top c -> 0 < s_right c ->
   Frame.crop_frame c f = Frame.crop_spec c f /\
   forall h w : Z,
     s_top c + s_bottom c < h -> s_left c + s_right c < w -> has_shape h w f ->
     has_shape (h - s_top c - s_bottom c) (w - s_left c - s_right c)
       (Frame.crop_frame c f)).
Proof.
  intros Hb Hl. unfold Frame.crop_frame, PySlice.slice2. split; [| split].
  - intros Et. rewrite Et. now rewrite slice_zero_stop.
  - intros Er. rewrite Er. apply Forall_map, Forall_forall.
    intros row _. now apply slice_zero_stop.
  - intros Ht Hr.
    assert (Heq : map (PySlice.slice (s_left c) (Some (- s_right c)))
                    (PySlice.slice (s_bottom c) (Some (- s_top c)) f)
                  = Frame.crop_spec c f) by now apply slice2_negative_stops.
    split; [exact Heq |]. intros h w Hh Hw Hshape. rewrite Heq.
    apply crop_spec_shape; assumption || lia.
Qed.

Lemma crop_frame_zero_margin_is_empty_witness :
  Frame.crop_frame calib_zero_top frame_3x3 = [] /\
  Forall (fun row => row = []) (Frame.crop_frame calib_zero_right frame_3x3) /\
  Frame.crop_frame calib_unit_margins frame_3x3
  = Frame.crop_spec calib_unit_margins frame_3x3.
Proof.
  split; [| split].
  - apply (crop_frame_zero_margin_is_empty calib_zero_top frame_3x3);
      simpl; [lia | lia | reflexivity].
  - apply (crop_frame_zero_margin_is_empty calib_zero_right frame_3x3);
      simpl; [lia | lia | reflexivity].
  - apply (crop_frame_zero_margin_is_empty calib_unit_margins frame_3x3);
      simpl; lia.
Defined.

(** The crop the claim promises at that input, which [crop_frame] misses. *)
Example crop_frame_zero_top_expected :
  Frame.crop_spec calib_zero_top frame_3x3 = [[5 # 1]; [8 # 1]] /\
  Frame.crop_frame_workaround calib_zero_top frame_3x3 = [[5 # 1]; [8 # 1]] /\
  Frame.crop_frame calib_zero_top frame_3x3 = [].
Proof. repeat split. Qed.

(** C9. With [s_top > 0] and [s_right > 0], [crop_frame_workaround] returns
    what [crop_frame] returns.  On a calibration whose margins are not
    negative and leave room in a frame of shape (h, w), and with
    [s_top = 0] or [s_right = 0], it returns the crop of the specification:
    a frame of shape (h - s_top - s_bottom, w - s_left - s_right), which is
    not empty. *)
Theorem crop_frame_workaround_refines (c : CalibrationData) (f : frame) :
  (0 < s_top c -> 0 < s_right c ->
   Frame.crop_frame_workaround c f = Frame.crop_frame c f) /\
  (forall h w : Z,
     0 <= s_top c -> 0 <= s_right c -> 0 <= s_bottom c -> 0 <= s_left c ->
     s_top c + s_bottom c < h -> s_left c + s_right c < w ->
     has_shape h w f ->
     s_top c = 0 \/ s_right c = 0 ->
     Frame.crop_frame_workaround c f = Frame.crop_spec c f /\
     has_shape (h - s_top c - s_bottom c) (w - s_left c - s_right c)
       (Frame.crop_frame_workaround c f) /\
     Frame.crop_frame_workaround c f <> [] /\
     Forall (fun row => row <> []) (Frame.crop_frame_workaround c f)).
Proof.
  split.
  - intros Ht Hr. unfold Frame.crop_frame_workaround, Frame.crop_frame.
    destruct (Z.eqb_spec (s_top c) 0); [lia |].
    destruct (Z.eqb_spec (s_right c) 0); [lia |]. reflexivity.
  - intros h w Ht Hr Hb Hl Hh Hw Hshape _.
    rewrite crop_frame_workaround_is_crop_spec by assumption.
    pose proof (crop_spec_shape c f h w Ht Hr Hb Hl Hh Hw Hshape) as [Hrows Hcols].
    repeat split; try assumption.
    + intros E. rewrite E in Hrows. simpl in Hrows. lia.
    + eapply Forall_impl; [exact Hcols |]. intros row Hrow E.
      rewrite E in Hrow. simpl in Hrow. lia.
Qed.

Lemma frame_3x3_shape : has_shape 3 3 frame_3x3.
Proof. split; [reflexivity | repeat constructor]. Qed.

Lemma crop_frame_workaround_refines_witness :
  Frame.crop_frame_workaround calib_unit_margins frame_3x3
  = Frame.crop_frame calib_unit_margins frame_3x3 /\
  Frame.crop_frame_workaround calib_zero_top frame_3x3
  = Frame.crop_spec calib_zero_top frame_3x3 /\
  Frame.crop_frame_workaround calib_zero_top frame_3x3 <> [].
Proof.
  split.
  - apply (crop_frame_workaround_refines calib_unit_margins frame_3x3); simpl; lia.
  - assert (Hmargins : s_top calib_zero_top = 0 \/ s_right calib_zero_top = 0)
      by (left; reflexivity).
    destruct (proj2 (crop_frame_workaround_refines calib_zero_top frame_3x3) 3 3
                ltac:(simpl; lia) ltac:(simpl; lia) ltac:(simpl; lia) ltac:(simpl; lia)
                ltac:(simpl; lia) ltac:(simpl; lia) frame_3x3_shape Hmargins)
      as (Heq & _ & Hne & _).
    split; assumption.
Defined.

(** ** Clipping and masking *)

Lemma Qlt_bool_iff (x y : Q) : Qlt_bool x y = true <-> (x < y)%Q.
Proof.
  unfold Qlt_bool. rewrite negb_true_iff. split.
  - intros H. apply Qnot_le_lt. intros Hle.
    apply Qle_bool_iff in Hle. congruence.
  - intros H. destruct (Qle_bool y x) eqn:E; [| reflexivity].
    apply Qle_bool_iff in E. exfalso. exact (Qlt_not_le _ _ H E).
Qed.

Lemma Qlt_bool_false_iff (x y : Q) : Qlt_bool x y = false <-> (y <= x)%Q.
Proof.
  unfold Qlt_bool. rewrite negb_false_iff. apply Qle_bool_iff.
Qed.

(** [numpy.clip] lands in the interval when the bounds are in order. *)
Lemma np_clip_in_range (lo hi x : Q) :
  (lo <= hi)%Q -> (lo <= Frame.np_clip lo hi x <= hi)%Q.
Proof.
  intros Hle. unfold Frame.np_clip, Frame.np_minimum, Frame.np_maximum.
  destruct (Qlt_bool x lo) eqn:E1.
  - destruct (Qlt_bool hi lo) eqn:E2.
    + apply Qlt_bool_iff in E2. exfalso. exact (Qlt_not_le _ _ E2 Hle).
    + split; [apply Qle_refl | assumption].
  - apply Qlt_bool_false_iff in E1.
    destruct (Qlt_bool hi x) eqn:E2.
    + split; [assumption | apply Qle_refl].
    + apply Qlt_bool_false_iff in E2. split; assumption.
Qed.

Lemma masked_outside_in_range (lo hi x : Q) :
  (lo <= x <= hi)%Q -> Frame.masked_outside lo hi x = false.
Proof.
  intros [H1 H2]. unfold Frame.masked_outside.
  assert (Hord : Qlt_bool hi lo = false).
  { apply Qlt_bool_false_iff. eapply Qle_trans; eassumption. }
  rewrite Hord. apply orb_false_iff. split; now apply Qlt_bool_false_iff.
Qed.

(** C10. With [s_min <= s_max], every value of a clipped frame lies in
    [s_min, s_max], and the mask of a clipped frame is False at every
    pixel. *)
Theorem depth_mask_of_clipped_frame_is_false (c : CalibrationData) (f : frame) :
  (s_min c <= s_max c)%Q ->
  Forall (Forall (fun x => (s_min c <= x <= s_max c)%Q)) (Frame.clip_frame c f) /\
  Frame.depth_mask c (Frame.clip_frame c f) = map (map (fun _ => false)) f.
Proof.
  intros Hle. unfold Frame.depth_mask, Frame.clip_frame. split.
  - apply Forall_map, Forall_forall. intros row _.
    apply Forall_map, Forall_forall. intros x _.
    now apply np_clip_in_range.
  - rewrite map_map. apply map_ext. intros row.
    rewrite map_map. apply map_ext. intros x.
    apply masked_outside_in_range, np_clip_in_range, Hle.
Qed.

Lemma depth_mask_of_clipped_frame_is_false_witness :
  Frame.depth_mask calib_4x5 (Frame.clip_frame calib_4x5 frame_4x5)
  = map (map (fun _ => false)) frame_4x5.
Proof.
  apply (depth_mask_of_clipped_frame_is_false calib_4x5 frame_4x5).
  simpl. unfold Qle. simpl. lia.
Defined.

(** ** The grid *)

(** What [update_grid] computes and drops: the xy points of the empty
    grid, each with the scaled depth of its pixel. *)
Lemma update_grid_local_value (g : Grid) (f : frame) (xy : list (Q * Q)) :
  empty_depth_grid g = Some xy ->
  length xy = length (concat f) ->
  GridOps.update_grid_local g f
  = Some (combine xy (map (GridOps.scale_depth g) (concat f))).
Proof.
  intros Hxy Hlen. unfold GridOps.update_grid_local, GridOps.scaled_frame.
  rewrite Hxy. unfold GridOps.np_c_.
  rewrite <- concat_map, length_map.
  rewrite Hlen, Nat.eqb_refl. reflexivity.
Qed.

(** The scaling sends [s_min] to [extent[5]] and [s_max] to [extent[4]]. *)
Lemma scale_depth_ends (g : Grid) :
  (s_min (calibration g) < s_max (calibration g))%Q ->
  (GridOps.scale_depth g (s_min (calibration g)) == extent5 (extent (scale g)))%Q /\
  (GridOps.scale_depth g (s_max (calibration g)) == extent4 (extent (scale g)))%Q.
Proof.
  intros Hlt. unfold GridOps.scale_depth.
  assert (Hne : ~ (s_max (calibration g) - s_min (calibration g) == 0)%Q).
  { intros E. apply Qlt_minus_iff in Hlt. unfold Qminus in E.
    rewrite E in Hlt. exact (Qlt_irrefl 0 Hlt). }
  split; field; exact Hne.
Qed.

(** C3. [Grid.update_grid] leaves the grid as it was: the columns are
    bound to a local name, and [depth_grid], [None] since [__init__], is
    still [None] after the first update. *)
Theorem update_grid_leaves_depth_grid (g : Grid) (f : frame)
  (c : CalibrationData) (sc : option Scale) :
  fst (GridOps.update_grid g f) = g /\
  depth_grid
    (fst (GridOps.update_grid
            (fst (GridOps.create_empty_depth_grid (GridOps.Grid_init c sc))) f))
  = None.
Proof.
  assert (Hsame : forall g0, fst (GridOps.update_grid g0 f) = g0).
  { intros g0. unfold GridOps.update_grid.
    destruct (empty_depth_grid g0) as [xy |].
    - destruct (GridOps.np_c_ xy _); reflexivity.
    - destruct (Nat.eqb _ 1); reflexivity. }
  split; [apply Hsame |].
  rewrite Hsame. unfold GridOps.create_empty_depth_grid.
  destruct (GridOps.linspace _ _ _); [destruct (GridOps.linspace _ _ _) |];
    [destruct (GridOps.meshgrid_points _ _) | |]; destruct sc; reflexivity.
Qed.

(** At the sample frame the columns are computed, with z = 1500 at depth
    700 and z = 700 at depth 1500, and the grid still holds nothing. *)
Example update_grid_at_sample :
  GridOps.update_grid_local grid_4x5
    (Frame.clip_frame calib_4x5 (Frame.crop_frame calib_4x5 frame_4x5))
  = Some [(0 # 2, 0, 1200000 # 800); (1000 # 2, 0, 880000 # 800);
          (2000 # 2, 0, 560000 # 800); (0 # 2, 800 # 1, 1200000 # 800);
          (1000 # 2, 800 # 1, 880000 # 800); (2000 # 2, 800 # 1, 560000 # 800)]%Q /\
  depth_grid (fst (GridOps.update_grid grid_4x5
    (Frame.clip_frame calib_4x5 (Frame.crop_frame calib_4x5 frame_4x5)))) = None.
Proof. split; reflexivity. Qed.

(** ** The order of the steps of a frame update *)

(** C2, as stated, fails: the update of a [GemPyModule] has no mask step,
    the update of a [BlockModule] takes its mask before it clips, and the
    result of that update differs from the one the stated order gives (the
    pixels read outside the sensor range are masked, which a mask taken
    after clipping never does). *)
Lemma frame_update_order_counterexample :
  fst (Geometry.GemPyModule_update gempy_4x5 frame_4x5) <> Geometry.spec_order /\
  fst (Geometry.BlockModule_update blockmodule_4x5 frame_4x5) <> Geometry.spec_order /\
  Geometry.bm_result (fst (snd (Geometry.BlockModule_update blockmodule_4x5 frame_4x5)))
  <> Geometry.bm_result
       (fst (snd (Geometry.BlockModule_update_in_spec_order blockmodule_4x5 frame_4x5))).
Proof.
  repeat split; vm_compute; discriminate.
Qed.

(** C2, amended. With cropping enabled, the update of a [GemPyModule]
    crops, then clips, then scales and looks up ([Grid.update_grid] on the
    cropped and clipped frame), with no mask step; the update of a
    [BlockModule] crops, takes the mask of the cropped frame, then clips,
    scales and looks up, and lays that mask over the result. *)
Theorem frame_update_order (gm : Geometry.GemPyModule) (bm : Geometry.BlockModule)
  (f : frame) :
  (Geometry.gp_crop gm = true ->
   Geometry.GemPyModule_update gm f
   = ([StCrop; StClip; StScale; StLookup],
      Geometry.GemPyModule_store gm
        (GridOps.update_grid (Geometry.gp_grid gm)
           (Frame.clip_frame (Geometry.gp_calib gm)
              (Frame.crop_frame (Geometry.gp_calib gm) f))))) /\
  (Geometry.bm_crop bm = true ->
   let cropped := Frame.crop_frame (Geometry.bm_calib bm) f in
   let index :=
     map (map (Geometry.depth_index (Geometry.bm_calib bm)
                 (snd (Geometry.blk_shape (Geometry.bm_data bm)))))
       (Frame.clip_frame (Geometry.bm_calib bm) cropped) in
   Geometry.BlockModule_update bm f
   = ([StCrop; StMask; StClip; StScale; StLookup],
      Geometry.BlockModule_store bm index
        (Frame.depth_mask (Geometry.bm_calib bm) cropped)
        (Geometry.block_lookup (Geometry.bm_data bm) index))).
Proof.
  split.
  - intros Hcrop. unfold Geometry.GemPyModule_update. rewrite Hcrop. reflexivity.
  - intros Hcrop. unfold Geometry.BlockModule_update. rewrite Hcrop. reflexivity.
Qed.

Lemma frame_update_order_witness :
  fst (Geometry.GemPyModule_update gempy_4x5 frame_4x5)
  = [StCrop; StClip; StScale; StLookup] /\
  fst (Geometry.BlockModule_update blockmodule_4x5 frame_4x5)
  = [StCrop; StMask; StClip; StScale; StLookup].
Proof.
  split.
  - rewrite (proj1 (frame_update_order gempy_4x5 blockmodule_4x5 frame_4x5)
               (eq_refl : Geometry.gp_crop gempy_4x5 = true)).
    reflexivity.
  - rewrite (proj2 (frame_update_order gempy_4x5 blockmodule_4x5 frame_4x5)
               (eq_refl : Geometry.bm_crop blockmodule_4x5 = true)).
    reflexivity.
Defined.

(** ** The worker thread *)

Section ThreadingFacts.

Import Threading.
#[local] Open Scope nat_scope.

Variable Data : Type.
Variable update : Data -> option Data.
Implicit Types s : state Data.

Lemma status_eqb_eq (a b : status) : status_eqb a b = true <-> a = b.
Proof. destruct a, b; simpl; split; congruence. Qed.

Lemma status_eqb_neq (a b : status) : status_eqb a b = false <-> a <> b.
Proof. destruct a, b; simpl; split; congruence. Qed.

Lemma pending_at s t p :
  thread s = Some t -> threads s !! t = Some p -> pending s = pending_of t p.
Proof. intros Ht Hp. unfold pending. now rewrite Ht, Hp. Qed.

Lemma pending_of_not_live t p : is_live p = false -> pending_of t p = [].
Proof. destruct p; simpl; congruence. Qed.

Lemma inv_init (d : Data) : inv (init d).
Proof.
  constructor; simpl; try discriminate; auto.
  - exists []. reflexivity.
  - intros t e H. now apply elem_of_nil in H.
Qed.

Lemma inv_print s msg : inv s -> inv (print msg s).
Proof. intros [H1 H2 H3 H4 H5 H6 H7 H8]. constructor; assumption. Qed.

(** Between calls and with a status other than 'running', every thread
    has ended. *)
Lemma idle_threads_ended s t p :
  inv s -> ctl s = Idle -> thread_status s <> running ->
  threads s !! t = Some p -> is_live p = false.
Proof.
  intros Hinv Hctl Hst Hp. destruct (is_live p) eqn:E; [| reflexivity].
  destruct (inv_handle Hinv t p Hp E) as [_ [Hr | Hc]]; contradiction.
Qed.

Lemma idle_pending_nil s :
  inv s -> ctl s = Idle -> thread_status s <> running -> pending s = [].
Proof.
  intros Hinv Hctl Hst. unfold pending.
  destruct (thread s) as [t |]; [| reflexivity].
  destruct (threads s !! t) as [p |] eqn:Hp; [| reflexivity].
  apply pending_of_not_live. exact (idle_threads_ended s t p Hinv Hctl Hst Hp).
Qed.

Lemma inv_start_thread s :
  inv s -> ctl s = Idle -> thread_status s <> running ->
  inv (start_thread (set_status running s)).
Proof.
  intros Hinv Hctl Hst.
  assert (Hnew : (threads s ++ [AtTest]) !! length (threads s) = Some AtTest).
  { rewrite lookup_app_r by lia. now rewrite Nat.sub_diag. }
  assert (Hpend : pending (start_thread (set_status running s)) = []).
  { unfold pending. simpl. now rewrite Hnew. }
  assert (Hopen : open_iteration (start_thread (set_status running s))
                  = open_iteration s).
  { unfold open_iteration. rewrite Hpend. simpl abandoned.
    now rewrite (idle_pending_nil s Hinv Hctl Hst). }
  assert (Hlive : forall t p, (threads s ++ [AtTest]) !! t = Some p ->
                              is_live p = true -> t = length (threads s)).
  { intros t p Hp Hl.
    destruct (Nat.lt_ge_cases t (length (threads s))) as [Hlt | Hge].
    - rewrite lookup_app_l in Hp by assumption.
      rewrite (idle_threads_ended s t p Hinv Hctl Hst Hp) in Hl. discriminate.
    - rewrite lookup_app_r in Hp by assumption.
      destruct (t - length (threads s)) as [| k] eqn:Ek; simpl in Hp; [lia | discriminate]. }
  constructor.
  - simpl. intros t p Hp Hl. split; [f_equal; symmetry; eauto | now left].
  - unfold is_open. rewrite Hopen. exact (inv_lock Hinv).
  - rewrite Hopen. exact (inv_log Hinv).
  - simpl. intros _. assumption.
  - simpl. intros t [= <-]. rewrite length_app. simpl. lia.
  - simpl. discriminate.
  - intros d Hd. split; [exact Hpend |]. simpl. intros t p e Hp Hl Hin.
    rewrite (Hlive t p Hp Hl) in Hin.
    pose proof (inv_log_threads Hinv _ _ Hin). lia.
  - simpl. intros t e Hin. rewrite length_app. simpl.
    pose proof (inv_log_threads Hinv _ _ Hin). lia.
Qed.

Lemma inv_run s : inv s -> ctl s = Idle -> inv (run s).
Proof.
  intros Hinv Hctl. unfold run.
  destruct (status_eqb (thread_status s) running) eqn:E; simpl.
  - now apply inv_print.
  - apply inv_print, inv_start_thread; try assumption.
    now apply status_eqb_neq.
Qed.

Lemma inv_enter_join s (st : status) (c : control) :
  inv s -> thread_status s <> stopped -> st <> running -> c <> Idle ->
  inv (set_ctl c (set_status st s)).
Proof.
  intros Hinv Hst Hnr Hc. constructor; simpl.
  - intros t p Hp Hlive.
    destruct (inv_handle Hinv t p Hp Hlive) as [Ht _]. auto.
  - exact (inv_lock Hinv).
  - exact (inv_log Hinv).
  - intros E. contradiction.
  - exact (inv_thread Hinv).
  - intros Ht. destruct (inv_started Hinv Ht) as [E _]. contradiction.
  - exact (inv_abandoned Hinv).
  - exact (inv_log_threads Hinv).
Qed.

Lemma inv_stop s : inv s -> inv (stop s).
Proof.
  intros Hinv. unfold stop.
  destruct (status_eqb (thread_status s) stopped) eqn:E; simpl.
  - now apply inv_print.
  - apply inv_enter_join; try assumption; try discriminate.
    now apply status_eqb_neq.
Qed.

Lemma inv_pause s : inv s -> inv (pause s).
Proof.
  intros Hinv. unfold pause.
  destruct (status_eqb (thread_status s) running) eqn:E; simpl.
  - apply inv_enter_join; try assumption; try discriminate.
    apply status_eqb_eq in E. rewrite E. discriminate.
  - now apply inv_print.
Qed.

Lemma inv_resume s : inv s -> ctl s = Idle -> inv (resume s).
Proof.
  intros Hinv Hctl. unfold resume.
  destruct (status_eqb (thread_status s) stopped); simpl.
  - now apply inv_print.
  - now apply inv_run.
Qed.

Lemma join_return_inv s s' :
  join_return s = Some s' ->
  exists t p msg,
    thread s = Some t /\ threads s !! t = Some p /\ is_live p = false /\
    ctl s <> Idle /\ s' = print msg (set_ctl Idle s).
Proof.
  unfold join_return. intros H.
  destruct (thread s) as [t |]; [| discriminate].
  destruct (threads s !! t) as [p |] eqn:Hp; [| discriminate].
  destruct (is_live p) eqn:Hl; [discriminate |].
  destruct (ctl s) eqn:Hc; try discriminate; injection H as <-;
    eexists t, p, _; repeat split; eauto; discriminate.
Qed.

Lemma inv_join_return s s' : inv s -> join_return s = Some s' -> inv s'.
Proof.
  intros Hinv H.
  destruct (join_return_inv s s' H) as (t & p & msg & Ht & Hp & Hl & Hc & ->).
  apply inv_print. constructor; simpl.
  - intros t' p' Hp' Hlive.
    destruct (inv_handle Hinv t' p' Hp' Hlive) as [Ht' _].
    rewrite Ht in Ht'. injection Ht' as <-. rewrite Hp in Hp'.
    injection Hp' as <-. congruence.
  - exact (inv_lock Hinv).
  - exact (inv_log Hinv).
  - intros E. pose proof (inv_running Hinv E). contradiction.
  - exact (inv_thread Hinv).
  - rewrite Ht. discriminate.
  - exact (inv_abandoned Hinv).
  - exact (inv_log_threads Hinv).
Qed.

(** A worker step keeps the invariant when the lock and the log follow
    the program point. *)
Lemma inv_move s t p p' (lk : bool) (d : Data) (lg : list (nat * event))
  (ab : option nat) :
  inv s -> threads s !! t = Some p -> is_live p = true ->
  lk = match open_after ab t p' with [] => false | _ => true end ->
  (exists ts, lg = flat_map iteration ts ++ open_after ab t p') ->
  (forall a, ab = Some a ->
     pending_of t p' = [] /\ (is_live p' = true -> forall e, (t, e) ∉ lg)) ->
  (forall t' e, (t', e) ∈ lg -> t' < length (threads s)) ->
  inv (mkState Data (thread_status s) lk (thread s) (<[t := p']> (threads s)) d
         (ctl s) lg ab (out s)).
Proof.
  intros Hinv Hp Hlive Hlk Hlg Hab Hlt.
  destruct (inv_handle Hinv t p Hp Hlive) as [Ht Hwhy].
  pose proof (lookup_lt_Some _ _ _ Hp) as Hin.
  assert (Hpend : pending (mkState Data (thread_status s) lk (thread s)
                             (<[t := p']> (threads s)) d (ctl s) lg ab (out s))
                  = pending_of t p').
  { apply pending_at; simpl; [assumption |]. now apply list_lookup_insert_eq. }
  assert (Hopen : open_iteration (mkState Data (thread_status s) lk (thread s)
                                    (<[t := p']> (threads s)) d (ctl s) lg ab (out s))
                  = open_after ab t p').
  { unfold open_iteration, open_after. simpl abandoned. now rewrite Hpend. }
  constructor.
  - simpl. intros t' q Hq Hq_live.
    destruct (Nat.eq_dec t t') as [<- | Hne].
    + auto.
    + rewrite list_lookup_insert_ne in Hq by assumption.
      exact (inv_handle Hinv t' q Hq Hq_live).
  - unfold is_open. rewrite Hopen. exact Hlk.
  - rewrite Hopen. exact Hlg.
  - simpl. exact (inv_running Hinv).
  - simpl. intros t' Ht'. rewrite length_insert. exact (inv_thread Hinv t' Ht').
  - simpl. rewrite Ht. discriminate.
  - intros a Ha. simpl in Ha. destruct (Hab a Ha) as [Hnil Hquiet].
    split; [now rewrite Hpend |]. simpl. intros t' q e Hq Hq_live.
    destruct (Nat.eq_dec t t') as [<- | Hne].
    + rewrite list_lookup_insert_eq in Hq by assumption. injection Hq as <-.
      now apply Hquiet.
    + rewrite list_lookup_insert_ne in Hq by assumption.
      destruct (inv_handle Hinv t' q Hq Hq_live) as [Ht' _]. congruence.
  - simpl. intros t' e Hin'. rewrite length_insert. now apply (Hlt t' e).
Qed.

Lemma elem_of_snoc_log (lg : list (nat * event)) (t t' : nat) (e e' : event) :
  (t', e') ∈ lg ++ [(t, e)] -> (t', e') ∈ lg \/ t' = t.
Proof.
  rewrite elem_of_app, list_elem_of_singleton. intros [H | [= -> ->]]; auto.
Qed.

Lemma inv_worker_step s s' t :
  inv s -> worker_step update t s = Some s' -> inv s'.
Proof.
  intros Hinv H. unfold worker_step in H.
  destruct (threads s !! t) as [p |] eqn:Hp; [| discriminate].
  pose proof (lookup_lt_Some _ _ _ Hp) as Hin.
  assert (Hlive_th : is_live p = true -> thread s = Some t).
  { intros L. exact (proj1 (inv_handle Hinv t p Hp L)). }
  pose proof (inv_lock Hinv) as Hlock. unfold is_open, open_iteration in Hlock.
  destruct (inv_log Hinv) as [ts Hts]. unfold open_iteration in Hts.
  pose proof (inv_abandoned Hinv) as Hab.
  pose proof (inv_log_threads Hinv) as Hlt.
  assert (Hsnoc : forall e0 t' e, (t', e) ∈ log s ++ [(t, e0)] -> t' < length (threads s)).
  { intros e0 t' e H'. destruct (elem_of_snoc_log _ _ _ _ _ H') as [H'' | ->]; eauto. }
  destruct p; try discriminate;
    rewrite (pending_at s t _ (Hlive_th eq_refl) Hp) in Hlock, Hts, Hab;
    simpl pending_of in Hlock, Hts, Hab.
  - (* at the loop test *)
    destruct (status_eqb (thread_status s) running) eqn:E; injection H as <-.
    + apply (inv_move s t AtTest AtAcquire); auto.
      * now exists ts.
      * intros a Ha. split; [reflexivity |]. intros _ e.
        exact (proj2 (Hab a Ha) t AtTest e Hp eq_refl).
    + apply (inv_move s t AtTest Finished); auto.
      * now exists ts.
      * intros a Ha. split; [reflexivity | discriminate].
  - (* before acquire *)
    destruct (lock s); [discriminate |]. injection H as <-.
    destruct (abandoned s) as [a |] eqn:Ea; [discriminate |].
    apply (inv_move s t AtAcquire AtUpdate); simpl; rewrite ?Ea; auto.
    + exists ts. simpl. now rewrite Hts, app_nil_r.
    + discriminate.
    + apply Hsnoc.
  - (* before update *)
    destruct (abandoned s) as [a |] eqn:Ea.
    { destruct (Hab a eq_refl) as [Hnil _]. discriminate. }
    destruct (update (data s)) as [d |]; injection H as <-.
    + apply (inv_move s t AtUpdate AtRelease); simpl; rewrite ?Ea; auto.
      * exists ts. simpl. rewrite Hts. now rewrite <- app_assoc.
      * discriminate.
      * apply Hsnoc.
    + apply (inv_move s t AtUpdate Died); simpl; auto.
      * exists ts. rewrite Hts. now rewrite <- app_assoc.
      * intros a [= <-]. split; [reflexivity | discriminate].
      * apply Hsnoc.
  - (* before release *)
    destruct (abandoned s) as [a |] eqn:Ea.
    { destruct (Hab a eq_refl) as [Hnil _]. discriminate. }
    rewrite Hlock in H. injection H as <-.
    apply (inv_move s t AtRelease AtTest); simpl; rewrite ?Ea; auto.
    + exists (ts ++ [t]). simpl. rewrite Hts, flat_map_app. simpl.
      now rewrite <- !app_assoc, !app_nil_r.
    + discriminate.
    + apply Hsnoc.
Qed.

Lemma inv_step s s' (a : action) : inv s -> step update a s = Some s' -> inv s'.
Proof.
  intros Hinv H. destruct a; simpl in H; unfold when_idle in H;
    try (destruct (ctl s) eqn:Hc; [injection H as <- | discriminate | discriminate]).
  - now apply inv_run.
  - now apply inv_stop.
  - now apply inv_pause.
  - now apply inv_resume.
  - now apply (inv_join_return s).
  - now apply (inv_worker_step s s' t).
Qed.

Lemma inv_exec (acts : list action) s s' :
  inv s -> exec update acts s = Some s' -> inv s'.
Proof.
  revert s. induction acts as [| a acts IH]; simpl; intros s Hinv H.
  - now injection H as <-.
  - destruct (step update a s) as [s1 |] eqn:E; [| discriminate].
    apply (IH s1); [exact (inv_step s s1 a Hinv E) | assumption].
Qed.

Lemma inv_reachable s : reachable update s -> inv s.
Proof. intros (d & acts & H). exact (inv_exec acts _ _ (inv_init d) H). Qed.

End ThreadingFacts.

Section ThreadingRuns.

Import Threading.
#[local] Open Scope nat_scope.

Variable Data : Type.
Variable update : Data -> option Data.
Implicit Types s : state Data.

(** *** Counting the live threads *)

Lemma filter_live_nil (l : list pc) :
  Forall (fun p => is_live p = false) l -> filter (fun p => is_live p = true) l = [].
Proof.
  induction 1 as [| p l Hp _ IH]; [reflexivity |].
  rewrite filter_cons_False; [exact IH |]. congruence.
Qed.

Lemma filter_live_le_one (l : list pc) :
  (forall i j p q, l !! i = Some p -> l !! j = Some q ->
                   is_live p = true -> is_live q = true -> i = j) ->
  length (filter (fun p => is_live p = true) l) <= 1.
Proof.
  induction l as [| x l IH]; intros Huniq; [simpl; lia |].
  destruct (is_live x) eqn:Ex.
  - rewrite filter_cons_True by assumption.
    rewrite filter_live_nil; [simpl; lia |].
    apply Forall_lookup. intros i p Hp.
    destruct (is_live p) eqn:Ep; [| reflexivity].
    specialize (Huniq 0 (S i) x p eq_refl Hp Ex Ep). discriminate.
  - rewrite filter_cons_False by congruence.
    apply IH. intros i j p q Hp Hq Lp Lq.
    specialize (Huniq (S i) (S j) p q Hp Hq Lp Lq). congruence.
Qed.

Lemma live_threads_le_one s : inv s -> live_threads s <= 1.
Proof.
  intros Hinv. apply filter_live_le_one. intros i j p q Hp Hq Lp Lq.
  destruct (inv_handle Hinv i p Hp Lp) as [Hi _].
  destruct (inv_handle Hinv j q Hq Lq) as [Hj _]. congruence.
Qed.

Lemma idle_live_threads_zero s :
  inv s -> ctl s = Idle -> thread_status s <> running -> live_threads s = 0.
Proof.
  intros Hinv Hc Hst. unfold live_threads. rewrite filter_live_nil; [reflexivity |].
  apply Forall_lookup. intros i p Hp.
  exact (idle_threads_ended Data s i p Hinv Hc Hst Hp).
Qed.

Lemma idle_workers_stuck s t :
  inv s -> ctl s = Idle -> thread_status s <> running ->
  worker_step update t s = None.
Proof.
  intros Hinv Hc Hst. unfold worker_step.
  destruct (threads s !! t) as [p |] eqn:Hp; [| reflexivity].
  pose proof (idle_threads_ended Data s t p Hinv Hc Hst Hp) as Hl.
  destruct p; simpl in Hl; congruence.
Qed.

(** *** Counting the updates *)

Lemma count_updates_app (a b : list (nat * event)) :
  count_updates (a ++ b) = count_updates a + count_updates b.
Proof. unfold count_updates. now rewrite filter_app, length_app. Qed.

(** Every whole iteration holds exactly one update. *)
Lemma count_updates_iterations (ts : list nat) :
  count_updates (flat_map iteration ts) = length ts.
Proof.
  induction ts as [| t ts IH]; [reflexivity |].
  change (flat_map iteration (t :: ts)) with (iteration t ++ flat_map iteration ts).
  rewrite count_updates_app, IH. reflexivity.
Qed.

(** *** Runs *)

Lemma exec_app (a b : list action) s :
  exec update (a ++ b) s
  = match exec update a s with
    | Some s1 => exec update b s1
    | None => None
    end.
Proof.
  revert s. induction a as [| x a IH]; intros s; simpl; [reflexivity |].
  destruct (step update x s); [apply IH | reflexivity].
Qed.

Lemma worker_step_frame s s' t :
  worker_step update t s = Some s' ->
  thread_status s' = thread_status s /\ ctl s' = ctl s /\ thread s' = thread s /\
  out s' = out s /\ length (threads s') = length (threads s).
Proof.
  unfold worker_step. intros H.
  destruct (threads s !! t) as [[] |]; try discriminate;
    repeat match type of H with
           | context [if ?b then _ else _] => destruct b
           | context [match update ?d with _ => _ end] => destruct (update d)
           end;
    try discriminate; injection H as <-; simpl;
    rewrite length_insert; auto.
Qed.

Lemma workers_frame (ws : list nat) s s' :
  exec update (map Worker ws) s = Some s' ->
  thread_status s' = thread_status s /\ ctl s' = ctl s /\ thread s' = thread s.
Proof.
  revert s. induction ws as [| t ws IH]; simpl; intros s H.
  - injection H as <-. auto.
  - destruct (worker_step update t s) as [s1 |] eqn:E; [| discriminate].
    destruct (worker_step_frame s s1 t E) as (H1 & H2 & H3 & _).
    destruct (IH s1 H) as (H4 & H5 & H6). repeat split; congruence.
Qed.

(** While no [update] has raised, a live worker can always move: the lock
    is free whenever it is about to acquire it.  Its step brings it
    nearer to the end of its loop when the status is not 'running', and
    leaves the lock orphaned only if it ends the thread. *)
Lemma worker_advances s t p :
  inv s -> abandoned s = None -> thread_status s <> running ->
  threads s !! t = Some p -> is_live p = true ->
  exists s' p',
    worker_step update t s = Some s' /\
    threads s' !! t = Some p' /\
    steps_to_finish p' < steps_to_finish p /\
    (abandoned s' = None \/ is_live p' = false).
Proof.
  intros Hinv Hab Hst Hp Hlive.
  destruct (inv_handle Hinv t p Hp Hlive) as [Ht _].
  pose proof (lookup_lt_Some _ _ _ Hp) as Hlt.
  pose proof (inv_lock Hinv) as Hlock. unfold is_open, open_iteration in Hlock.
  rewrite Hab, (pending_at Data s t p Ht Hp) in Hlock.
  apply status_eqb_neq in Hst.
  unfold worker_step. rewrite Hp.
  destruct p; try discriminate; simpl in Hlock.
  - rewrite Hst. eexists _, Finished. split; [reflexivity |]. simpl.
    rewrite list_lookup_insert_eq by assumption.
    split; [reflexivity |]. split; [simpl; lia | auto].
  - rewrite Hlock. eexists _, AtUpdate. split; [reflexivity |]. simpl.
    rewrite list_lookup_insert_eq by assumption.
    split; [reflexivity |]. split; [simpl; lia | auto].
  - destruct (update (data s)) as [d |].
    + eexists _, AtRelease. split; [reflexivity |]. simpl.
      rewrite list_lookup_insert_eq by assumption.
      split; [reflexivity |]. split; [simpl; lia | auto].
    + eexists _, Died. split; [reflexivity |]. simpl.
      rewrite list_lookup_insert_eq by assumption.
      split; [reflexivity |]. split; [simpl; lia | auto].
  - rewrite Hlock. eexists _, AtTest. split; [reflexivity |]. simpl.
    rewrite list_lookup_insert_eq by assumption.
    split; [reflexivity |]. split; [simpl; lia | auto].
Qed.

(** Once the status is no longer 'running', and provided no [update] has
    raised before, the worker has ended after at most four more steps, so
    a join on it returns. *)
Lemma worker_ends (n : nat) : forall s t p,
  steps_to_finish p <= n ->
  inv s -> abandoned s = None -> thread_status s <> running ->
  threads s !! t = Some p ->
  exists ws s' p',
    exec update (map Worker ws) s = Some s' /\
    threads s' !! t = Some p' /\ is_live p' = false.
Proof.
  induction n as [| n IH]; intros s t p Hn Hinv Hab Hst Hp.
  - exists [], s, p. repeat split; [assumption |].
    destruct p; simpl in *; try lia; reflexivity.
  - destruct (is_live p) eqn:Hlive.
    + destruct (worker_advances s t p Hinv Hab Hst Hp Hlive)
        as (s1 & p1 & Hstep & Hp1 & Hless & Hcase).
      destruct (worker_step_frame s s1 t Hstep) as (Hst1 & _).
      destruct Hcase as [Hab1 | Hdead].
      * destruct (IH s1 t p1 ltac:(lia) (inv_worker_step Data update s s1 t Hinv Hstep)
                    Hab1 ltac:(congruence) Hp1) as (ws & s' & p' & Hexec & Hp' & Hl').
        exists (t :: ws), s', p'. simpl. rewrite Hstep. auto.
      * exists [t], s1, p1. simpl. rewrite Hstep. auto.
    + exists [], s, p. auto.
Qed.

(** One iteration of a worker that finds the status 'running' and the
    lock free, and whose update returns: acquire, one update, release,
    and back at the loop test. *)
Lemma worker_iteration s t (d : Data) :
  threads s !! t = Some AtTest -> thread_status s = running ->
  lock s = false -> update (data s) = Some d ->
  exists s',
    exec update [Worker t; Worker t; Worker t; Worker t] s = Some s' /\
    log s' = log s ++ iteration t /\
    data s' = d /\
    lock s' = false /\
    threads s' !! t = Some AtTest.
Proof.
  intros Hp Hrun Hlock Hupd.
  pose proof (lookup_lt_Some _ _ _ Hp) as Hlt.
  apply status_eqb_eq in Hrun.
  eexists. split.
  - simpl. unfold worker_step at 1. rewrite Hp, Hrun.
    unfold worker_step at 1. simpl.
    rewrite list_lookup_insert_eq by assumption. rewrite Hlock.
    unfold worker_step at 1. simpl.
    rewrite list_lookup_insert_eq by (rewrite length_insert; assumption).
    rewrite Hupd.
    unfold worker_step at 1. simpl.
    rewrite list_lookup_insert_eq by (rewrite !length_insert; assumption).
    reflexivity.
  - simpl. repeat split.
    + now rewrite <- !app_assoc.
    + apply list_lookup_insert_eq. now rewrite !length_insert.
Qed.

Lemma after_join s1 s2 :
  inv s1 -> join_return s1 = Some s2 ->
  inv s2 /\ ctl s2 = Idle /\ thread_status s2 = thread_status s1 /\
  thread_status s1 <> running /\ threads s2 = threads s1.
Proof.
  intros Hinv H. pose proof (inv_join_return Data s1 s2 Hinv H) as Hinv2.
  destruct (join_return_inv Data s1 s2 H) as (t & p & msg & _ & _ & _ & Hc & ->).
  split; [assumption |]. split; [reflexivity |]. split; [reflexivity |].
  split; [| reflexivity].
  intros E. pose proof (inv_running Hinv E). contradiction.
Qed.

Lemma joined_threads_ended s s1 s2 (ws : list nat) :
  inv s -> exec update (map Worker ws) s = Some s1 -> join_return s1 = Some s2 ->
  inv s2 /\ ctl s2 = Idle /\ thread_status s2 = thread_status s /\
  thread_status s2 <> running /\ live_threads s2 = 0.
Proof.
  intros Hinv Hexec Hjoin.
  pose proof (inv_exec Data update _ _ _ Hinv Hexec) as Hinv1.
  destruct (after_join s1 s2 Hinv1 Hjoin) as (Hinv2 & Hc & Hst & Hnr & _).
  destruct (workers_frame ws s s1 Hexec) as (Hst1 & _).
  assert (Hnr2 : thread_status s2 <> running) by congruence.
  split; [assumption |]. split; [assumption |]. split; [congruence |].
  split; [assumption |].
  now apply idle_live_threads_zero.
Qed.

(** Once an update has raised, no step adds a worker event. *)
Lemma step_after_raise s s' (x : action) (a : nat) :
  inv s -> abandoned s = Some a -> step update x s = Some s' ->
  log s' = log s /\ abandoned s' = Some a.
Proof.
  intros Hinv Ha H. destruct x; simpl in H; unfold when_idle in H;
    try (destruct (ctl s); [injection H as <- | discriminate | discriminate]).
  - unfold run. destruct (negb _); simpl; auto.
  - unfold stop. destruct (negb _); simpl; auto.
  - unfold pause. destruct (status_eqb _ _); simpl; auto.
  - unfold resume, run. repeat destruct (negb _); simpl; auto.
  - destruct (join_return_inv Data s s' H) as (t & p & msg & _ & _ & _ & _ & ->).
    simpl. auto.
  - unfold worker_step in H.
    destruct (threads s !! t) as [p |] eqn:Hp; [| discriminate].
    pose proof (inv_lock Hinv) as Hlock. unfold is_open, open_iteration in Hlock.
    rewrite Ha in Hlock.
    destruct (inv_abandoned Hinv a Ha) as [Hnil _].
    assert (Hpend : is_live p = true -> pending_of t p = []).
    { intros L. destruct (inv_handle Hinv t p Hp L) as [Ht _].
      now rewrite <- (pending_at Data s t p Ht Hp). }
    destruct p; try discriminate.
    + destruct (status_eqb _ _); injection H as <-; simpl; auto.
    + rewrite Hlock in H. discriminate.
    + specialize (Hpend eq_refl). discriminate.
    + specialize (Hpend eq_refl). discriminate.
Qed.

(** ... and neither does a run of steps. *)
Lemma after_raise_frozen (acts : list action) : forall s s' (a : nat),
  inv s -> abandoned s = Some a -> exec update acts s = Some s' ->
  log s' = log s /\ abandoned s' = Some a /\ inv s' /\ lock s' = true.
Proof.
  induction acts as [| x acts IH]; simpl; intros s s' a Hinv Ha Hexec.
  - injection Hexec as <-. split; [reflexivity |]. split; [assumption |].
    split; [assumption |].
    rewrite (inv_lock Hinv). unfold is_open, open_iteration. now rewrite Ha.
  - destruct (step update x s) as [s1 |] eqn:E; [| discriminate].
    destruct (step_after_raise s s1 x a Hinv Ha E) as [Hl1 Ha1].
    destruct (IH s1 s' a (inv_step Data update s s1 x Hinv E) Ha1 Hexec)
      as (Hl & Ha' & Hi & Hlock).
    split; [congruence |]. split; [assumption |]. split; assumption.
Qed.

End ThreadingRuns.

Section ThreadingClaims.

Import Threading.
#[local] Open Scope nat_scope.

Variable Data : Type.
Variable update : Data -> option Data.
Implicit Types s : state Data.

(** The iterations of the worker loop.  In every state a module can
    reach: the worker events so far are
    whole iterations, each one acquire, one update and one release by one
    thread, followed by the iteration that is open (the one under way, or
    the one an update that raised has left behind), so the updates so far
    are one for each whole iteration, and one more if the open iteration
    has updated; the lock is held exactly while an iteration is open, so
    it is held whenever a worker is about to update, and it is free
    whenever a worker that has acted before is at the loop test or about
    to acquire, that is, between two of its iterations; and a worker that
    finds the status 'running' and the lock free, and whose update
    returns, completes one iteration with that one update and is back at
    the test with the lock released. *)
Theorem worker_iteration_holds_lock s :
  reachable update s ->
  (exists ts, log s = flat_map iteration ts ++ open_iteration s /\
              updates s = length ts + count_updates (open_iteration s)) /\
  (lock s = true <-> open_iteration s <> []) /\
  (forall t, threads s !! t = Some AtUpdate -> lock s = true) /\
  (forall t e, threads s !! t = Some AtTest \/ threads s !! t = Some AtAcquire ->
               (t, e) ∈ log s -> lock s = false) /\
  (forall t d, threads s !! t = Some AtTest -> thread_status s = running ->
     lock s = false -> update (data s) = Some d ->
     exists s',
       exec update [Worker t; Worker t; Worker t; Worker t] s = Some s' /\
       log s' = log s ++ iteration t /\
       data s' = d /\
       lock s' = false /\
       threads s' !! t = Some AtTest).
Proof.
  intros Hreach. pose proof (inv_reachable Data update s Hreach) as Hinv.
  pose proof (inv_lock Hinv) as Hlock. unfold is_open in Hlock.
  split.
  { destruct (inv_log Hinv) as [ts Hts]. exists ts. split; [exact Hts |].
    unfold updates. now rewrite Hts, count_updates_app, count_updates_iterations. }
  split; [| split; [| split]].
  - rewrite Hlock. destruct (open_iteration s); split; congruence.
  - intros t Hp. destruct (inv_handle Hinv t AtUpdate Hp eq_refl) as [Ht _].
    rewrite Hlock. unfold open_iteration.
    destruct (abandoned s); [reflexivity |].
    now rewrite (pending_at Data s t AtUpdate Ht Hp).
  - intros t e Hp Hin.
    assert (Hquiet : exists p, threads s !! t = Some p /\ is_live p = true /\
                               pending_of t p = []).
    { destruct Hp as [Hp | Hp]; eexists; (split; [exact Hp |]); auto. }
    destruct Hquiet as (p & Hp' & Hl & Hnil).
    destruct (inv_handle Hinv t p Hp' Hl) as [Ht _].
    rewrite Hlock. unfold open_iteration.
    destruct (abandoned s) as [a |] eqn:Ea.
    + destruct (inv_abandoned Hinv a Ea) as [_ Hnone].
      exfalso. exact (Hnone t p e Hp' Hl Hin).
    + now rewrite (pending_at Data s t p Ht Hp'), Hnil.
  - intros t d Hp Hrun Hfree Hupd. now apply worker_iteration.
Qed.


(** C4. [pause()] on a module with the status 'running' sets the status
    to 'paused' and waits in the join; the join does return (provided no
    update has raised and left the lock held); once it has, the status is
    'paused', no thread is inside [thread_loop] and no worker can move, so
    no update runs; [resume()] then sets the status to 'running' and
    starts a new thread, the only live one.  [resume()] with the status
    'stopped' only prints. *)
Theorem pause_joins_and_resume_restarts s :
  reachable update s -> ctl s = Idle ->
  (thread_status s = running ->
   thread_status (pause s) = paused /\
   ctl (pause s) = InPauseJoin /\
   (abandoned s = None -> exists s2, pause_returns update s s2) /\
   (forall s2, pause_returns update s s2 ->
      thread_status s2 = paused /\
      live_threads s2 = 0 /\
      (forall t, worker_step update t s2 = None) /\
      thread_status (resume s2) = running /\
      threads (resume s2) = threads s2 ++ [AtTest] /\
      thread (resume s2) = Some (length (threads s2)) /\
      live_threads (resume s2) = 1)) /\
  (thread_status s = stopped -> resume s = print "Thread already stopped." s).
Proof.
  intros Hreach Hidle. pose proof (inv_reachable Data update s Hreach) as Hinv.
  split.
  - intros Hrun.
    assert (Hpause : pause s = set_ctl InPauseJoin (set_status paused s)).
    { unfold pause. now rewrite Hrun. }
    pose proof (inv_pause Data s Hinv) as Hinvp.
    split; [now rewrite Hpause |]. split; [now rewrite Hpause |]. split.
    + intros Hab.
      assert (Hcur : exists t p, thread s = Some t /\ threads s !! t = Some p).
      { destruct (thread s) as [t |] eqn:Ht.
        - destruct (lookup_lt_is_Some_2 (threads s) t (inv_thread Hinv t Ht)) as [p Hp].
          eauto.
        - destruct (inv_started Hinv Ht) as [E _]. congruence. }
      destruct Hcur as (t & p & Ht & Hp).
      destruct (worker_ends Data update (steps_to_finish p) (pause s) t p
                  (le_n _) Hinvp)
        as (ws & s1 & p1 & Hexec & Hp1 & Hl1).
      * now rewrite Hpause.
      * rewrite Hpause. simpl. discriminate.
      * now rewrite Hpause.
      * destruct (workers_frame Data update _ _ _ Hexec) as (_ & Hc1 & Ht1).
        exists (print "Thread paused." (set_ctl Idle s1)), ws, s1.
        split; [assumption |]. split; [assumption |].
        unfold join_return. rewrite Ht1, Hpause. simpl. rewrite Ht, Hp1, Hl1, Hc1, Hpause.
        reflexivity.
    + intros s2 (ws & s1 & _ & Hexec & Hjoin).
      destruct (joined_threads_ended Data update (pause s) s1 s2 ws Hinvp Hexec Hjoin)
        as (Hinv2 & Hc2 & Hst2 & Hnr2 & Hlive2).
      assert (Hpaused : thread_status s2 = paused) by (now rewrite Hst2, Hpause).
      split; [assumption |]. split; [assumption |]. split.
      { intros t. now apply idle_workers_stuck. }
      unfold resume, run. rewrite Hpaused. simpl.
      split; [reflexivity |]. split; [reflexivity |]. split; [reflexivity |].
      unfold live_threads in *. simpl.
      rewrite filter_app, length_app, Hlive2. reflexivity.
  - intros Hstop. unfold resume. now rewrite Hstop.
Qed.

(** C1. [thread_loop] releases the lock only when [update] returns.  A
    worker about to call an [update] that raises makes that call with the
    lock held and ends on the spot: the release never comes.  The status
    is what it was ('running' stays 'running'), no thread is inside
    [thread_loop], the lock is held, and whatever is called on the module
    afterwards the lock stays held and no worker event is added: there is
    no later iteration, and the lock is never released after this
    update. *)
Theorem raising_update_keeps_lock s (t : nat) :
  reachable update s -> threads s !! t = Some AtUpdate -> update (data s) = None ->
  exists s1,
    worker_step update t s = Some s1 /\
    log s1 = log s ++ [(t, EvUpdate)] /\
    thread_status s1 = thread_status s /\
    lock s = true /\ lock s1 = true /\
    live_threads s1 = 0 /\
    forall acts s', exec update acts s1 = Some s' ->
      lock s' = true /\ log s' = log s1 /\ updates s' = updates s1.
Proof.
  intros Hreach Hp Hupd. pose proof (inv_reachable Data update s Hreach) as Hinv.
  assert (Hstep : worker_step update t s
                  = Some (set_pc t Died (set_abandoned t (log_event t EvUpdate s)))).
  { unfold worker_step. now rewrite Hp, Hupd. }
  set (s1 := set_pc t Died (set_abandoned t (log_event t EvUpdate s))) in *.
  assert (Hinv1 : inv s1) by exact (inv_step Data update s s1 (Worker t) Hinv Hstep).
  destruct (inv_handle Hinv t AtUpdate Hp eq_refl) as [Ht _].
  assert (Hheld : lock s = true).
  { rewrite (inv_lock Hinv). unfold is_open, open_iteration.
    destruct (abandoned s); [reflexivity |].
    now rewrite (pending_at Data s t AtUpdate Ht Hp). }
  exists s1. split; [exact Hstep |]. split; [reflexivity |]. split; [reflexivity |].
  split; [exact Hheld |].
  destruct (after_raise_frozen Data update [] s1 s1 t Hinv1 eq_refl eq_refl)
    as (_ & _ & _ & Hlock1).
  split; [exact Hlock1 |]. split.
  - unfold live_threads. rewrite filter_live_nil; [reflexivity |].
    apply Forall_lookup. intros i p Hi. subst s1. simpl in Hi.
    destruct (Nat.eq_dec i t) as [-> | Hne].
    + rewrite list_lookup_insert_eq in Hi by (eapply lookup_lt_Some; exact Hp).
      now injection Hi as <-.
    + rewrite list_lookup_insert_ne in Hi by congruence.
      destruct (is_live p) eqn:L; [| reflexivity].
      destruct (inv_handle Hinv i p Hi L) as [Hi' _]. congruence.
  - intros acts s' Hexec.
    destruct (after_raise_frozen Data update acts s1 s' t Hinv1 eq_refl Hexec)
      as (Hlog & _ & _ & Hlock).
    split; [exact Hlock |]. split; [exact Hlog |]. unfold updates. now rewrite Hlog.
Qed.

End ThreadingClaims.

Lemma module_in_update_reachable : Threading.reachable count_update module_in_update.
Proof.
  exists 0%nat, [Threading.CallRun; Threading.Worker 0; Threading.Worker 0].
  reflexivity.
Qed.

Lemma module_started_reachable : Threading.reachable count_update module_started.
Proof. exists 0%nat, [Threading.CallRun]. reflexivity. Qed.

Lemma module_init_reachable : Threading.reachable count_update (Threading.init 0%nat).
Proof. exists 0%nat, []. reflexivity. Qed.

Lemma worker_iteration_holds_lock_witness :
  (Threading.lock module_in_update = true
   <-> Threading.open_iteration module_in_update <> []) /\
  exists s',
    Threading.exec count_update
      [Threading.Worker 0; Threading.Worker 0; Threading.Worker 0; Threading.Worker 0]
      module_started = Some s' /\
    Threading.log s' = Threading.log module_started ++ Threading.iteration 0 /\
    Threading.data s' = 1%nat /\
    Threading.lock s' = false /\
    Threading.threads s' !! 0%nat = Some Threading.AtTest.
Proof.
  split.
  - exact (proj1 (proj2 (worker_iteration_holds_lock nat count_update module_in_update
                           module_in_update_reachable))).
  - exact (proj2 (proj2 (proj2 (proj2
             (worker_iteration_holds_lock nat count_update module_started
                module_started_reachable)))) 0%nat 1%nat eq_refl eq_refl eq_refl eq_refl).
Defined.

Lemma module_raising_reachable : Threading.reachable always_raises module_raising.
Proof.
  exists 0%nat, [Threading.CallRun; Threading.Worker 0; Threading.Worker 0].
  reflexivity.
Qed.

Lemma raising_update_keeps_lock_witness :
  Threading.thread_status module_raising = Threading.running /\
  exists s1,
    Threading.worker_step always_raises 0 module_raising = Some s1 /\
    Threading.thread_status s1 = Threading.running /\
    Threading.lock s1 = true /\
    Threading.live_threads s1 = 0%nat /\
    Threading.updates s1 = 1%nat.
Proof.
  split; [reflexivity |].
  destruct (raising_update_keeps_lock nat always_raises module_raising 0%nat
              module_raising_reachable eq_refl eq_refl)
    as (s1 & Hstep & _ & Hst & _ & Hlock & Hlive & _).
  exists s1. split; [exact Hstep |]. split; [exact Hst |]. split; [exact Hlock |].
  split; [exact Hlive |].
  vm_compute in Hstep. injection Hstep as <-. reflexivity.
Defined.

(** An update that raises: the fourth update of the sample module ends the
    worker with the lock held; [pause()] then returns at once, and the
    thread [resume()] starts cannot acquire the lock. *)
Example raised_update_leaves_lock_held :
  exists s,
    Threading.exec count_update
      (Threading.CallRun :: repeat (Threading.Worker 0) 15
       ++ [Threading.CallPause; Threading.JoinReturn; Threading.CallResume;
           Threading.Worker 1])
      (Threading.init 0%nat) = Some s /\
    Threading.threads s = [Threading.Died; Threading.AtAcquire] /\
    Threading.lock s = true /\
    Threading.abandoned s = Some 0%nat /\
    Threading.updates s = 4%nat /\
    Threading.worker_step count_update 1 s = None.
Proof. eexists. split; [vm_compute; reflexivity |]. repeat split. Qed.


Lemma pause_joins_and_resume_restarts_witness :
  (Threading.thread_status (Threading.pause module_started) = Threading.paused /\
   Threading.ctl (Threading.pause module_started) = Threading.InPauseJoin /\
   exists s2, Threading.pause_returns count_update module_started s2) /\
  Threading.resume (Threading.init 0%nat)
  = Threading.print "Thread already stopped." (Threading.init 0%nat).
Proof.
  split.
  - destruct (proj1 (pause_joins_and_resume_restarts nat count_update module_started
                       module_started_reachable eq_refl) eq_refl)
      as (H1 & H2 & H3 & _).
    split; [exact H1 |]. split; [exact H2 | exact (H3 eq_refl)].
  - exact (proj2 (pause_joins_and_resume_restarts nat count_update (Threading.init 0%nat)
                    module_init_reachable eq_refl) eq_refl).
Defined.


(** ** The calibration files *)

Section JsonFacts.

Import CalibJson.

(** [json.load] undoes [json.dump] on every value an attribute holds. *)
Lemma of_json_to_json : forall v : pyval, of_json (to_json v) = v.
Proof.
  fix IH 1. intros [| b | z | f | s | l]; simpl; try reflexivity.
  f_equal. rewrite map_map.
  induction l as [| x l IHl]; simpl; [reflexivity |].
  f_equal; [apply IH | exact IHl].
Qed.

(** ... and on a whole dict. *)
Lemma json_load_dump (d : gmap string pyval) : json_load (json_dump d) = d.
Proof.
  unfold json_load, json_dump. rewrite map_map. simpl.
  rewrite (map_ext _ id).
  - rewrite map_id.
    rewrite (list_to_map_proper (reverse (map_to_list d)) (map_to_list d)).
    + apply list_to_map_to_list.
    + rewrite fmap_reverse, reverse_Permutation. apply NoDup_fst_map_to_list.
    + apply reverse_Permutation.
  - intros [k v]. simpl. now rewrite of_json_to_json.
Qed.

Lemma py_eq_str (a b : string) : py_eq (PyStr a) (PyStr b) = String.eqb a b.
Proof. reflexivity. Qed.

(** C7. What [save_json] wrote, [load_json] reads back: an instance with
    the version string of the saved one has, after loading, exactly the
    saved attributes, and nothing is raised.  Loading a file whose
    'version' member is not equal to the instance's version leaves the
    instance as it was. *)
Theorem save_json_load_json_roundtrip (saved loading : instance)
  (file : string) (fs : filesystem) (version : string) :
  (saved !! "version"%string = Some (PyStr version) ->
   loading !! "version"%string = Some (PyStr version) ->
   self_after (load_json loading file (files_after (save_json saved file fs))) = saved /\
   raised (load_json loading file (files_after (save_json saved file fs))) = None) /\
  (forall (o : json_object) (v sv : pyval),
     fs !! file = Some o ->
     json_load o !! "version"%string = Some v ->
     loading !! "version"%string = Some sv ->
     py_eq v sv = false ->
     self_after (load_json loading file fs) = loading /\
     raised (load_json loading file fs) = None).
Proof.
  split.
  - intros Hsaved Hloading. unfold load_json, save_json, filesystem, instance in *.
    simpl. rewrite lookup_insert_eq, json_load_dump, Hsaved, Hloading.
    rewrite py_eq_str, String.eqb_refl. split; reflexivity.
  - intros o v sv Hfile Hv Hsv Hne. unfold load_json, filesystem, instance in *.
    rewrite Hfile, Hv, Hsv, Hne. split; reflexivity.
Qed.

End JsonFacts.

Lemma save_json_load_json_roundtrip_witness :
  CalibJson.self_after
    (CalibJson.load_json
       (<["s_top"%string := CalibJson.PyInt 33]> CalibJson.default_instance)
       "calibration.json"
       (CalibJson.files_after
          (CalibJson.save_json CalibJson.default_instance "calibration.json" ∅)))
  = CalibJson.default_instance.
Proof.
  apply (proj1 (save_json_load_json_roundtrip CalibJson.default_instance
                  (<["s_top"%string := CalibJson.PyInt 33]> CalibJson.default_instance)
                  "calibration.json" ∅ "1.1alpha"));
    vm_compute; reflexivity.
Defined.

Section PickleFacts.

Import CalibPickle.

Variable CalData : Type.
Variable open_rb : string -> list Byte.byte + exn.
Variable pickle_load : list Byte.byte -> CalData + exn.

(** C8. [Calibration.load] on a path that cannot be opened ([open] raises
    an OSError) prints one line, raises nothing, and leaves the instance,
    its [calibration_data] included, as it was. *)
Theorem load_of_missing_file_keeps_state (self : Calibration CalData)
  (calibration_file_arg : option string) :
  open_rb (match calibration_file_arg with
           | None => calibration_file self
           | Some p => p
           end) = inr OSError ->
  self_after (load open_rb pickle_load self calibration_file_arg) = self /\
  calibration_data (self_after (load open_rb pickle_load self calibration_file_arg))
  = calibration_data self /\
  printed (load open_rb pickle_load self calibration_file_arg)
  = ["calibration data file not found"%string] /\
  raised (load open_rb pickle_load self calibration_file_arg) = None.
Proof.
  intros Hopen. unfold load, read_pickle. rewrite Hopen. simpl. auto.
Qed.

End PickleFacts.

Lemma load_of_missing_file_keeps_state_witness :
  CalibPickle.self_after
    (CalibPickle.load (fun _ => inr OSError) (fun _ => inr UnpicklingError)
       (CalibPickle.mkCalibration nat "calibration0.dat" 7%nat) None)
  = CalibPickle.mkCalibration nat "calibration0.dat" 7%nat.
Proof.
  apply (load_of_missing_file_keeps_state nat (fun _ => inr OSError)
           (fun _ => inr UnpicklingError)
           (CalibPickle.mkCalibration nat "calibration0.dat" 7%nat) None).
  reflexivity.
Defined.

(* ===================================================================== *)
(** * Further properties *)
(* ===================================================================== *)

(** ** The worker thread and its callers *)

Section ThreadingMore.

Import Threading Callbacks.
#[local] Open Scope nat_scope.

Variable Data : Type.
Variable update : Data -> option Data.
Implicit Types s : state Data.

Lemma inv_set_data s (d : Data) : inv s -> inv (set_data d s).
Proof. intros [H1 H2 H3 H4 H5 H6 H7 H8]. constructor; assumption. Qed.

(** X1. After an update has raised, the lock stays held and [update] is
    never called again, whatever is called on the module: the worker
    events, and with them the number of update calls, never change. *)
Theorem no_update_after_raise s s' (a : nat) (acts : list action) :
  reachable update s -> abandoned s = Some a ->
  exec update acts s = Some s' ->
  log s' = log s /\ updates s' = updates s /\ lock s' = true /\
  abandoned s' = Some a.
Proof.
  intros Hreach Ha Hexec.
  pose proof (inv_reachable Data update s Hreach) as Hinv.
  destruct (after_raise_frozen Data update acts s s' a Hinv Ha Hexec)
    as (Hl & Ha' & _ & Hlock).
  split; [assumption |]. split; [unfold updates; now rewrite Hl |].
  split; assumption.
Qed.

(** While the status is 'running' and no update has raised, the thread of
    the module is inside its loop. *)
Lemma running_worker_is_live (acts : list action) : forall (d : Data) s,
  exec update acts (init d) = Some s ->
  thread_status s = running -> abandoned s = None ->
  exists t p, thread s = Some t /\ threads s !! t = Some p /\ is_live p = true.
Proof.
  induction acts as [| x acts IH] using rev_ind; intros d s Hexec Hrun Hab.
  - simpl in Hexec. injection Hexec as <-. discriminate.
  - rewrite (exec_app Data update) in Hexec.
    destruct (exec update acts (init d)) as [s0 |] eqn:E0; [| discriminate].
    simpl in Hexec. destruct (step update x s0) as [s1 |] eqn:E1; [| discriminate].
    injection Hexec as ->.
    assert (Hinv0 : inv s0) by (apply (inv_reachable Data update); now exists d, acts).
    specialize (IH d s0 E0).
    assert (Hnew : forall s00 : state Data,
               exists t p, thread (start_thread s00) = Some t /\
                           threads (start_thread s00) !! t = Some p /\ is_live p = true).
    { intros s00. exists (length (threads s00)), AtTest. simpl.
      rewrite lookup_app_r by lia. now rewrite Nat.sub_diag. }
    destruct x; simpl in E1; unfold when_idle in E1;
      try (destruct (ctl s0) eqn:Hc; [injection E1 as <- | discriminate | discriminate]).
    + unfold run in *. destruct (status_eqb (thread_status s0) running) eqn:Es; simpl in *.
      * apply IH; [now apply status_eqb_eq | assumption].
      * apply (Hnew (set_status running s0)).
    + unfold stop in *. destruct (status_eqb (thread_status s0) stopped) eqn:Es; simpl in *.
      * apply IH; assumption.
      * discriminate.
    + unfold pause in *. destruct (status_eqb (thread_status s0) running) eqn:Es; simpl in *.
      * discriminate.
      * apply IH; assumption.
    + unfold resume, run in *.
      destruct (status_eqb (thread_status s0) stopped) eqn:Es; simpl in *.
      * apply IH; assumption.
      * destruct (status_eqb (thread_status s0) running) eqn:Er; simpl in *.
        -- apply IH; [now apply status_eqb_eq | assumption].
        -- apply (Hnew (set_status running s0)).
    + destruct (join_return_inv Data s0 s E1) as (t & p & msg & _ & _ & _ & Hc & ->).
      simpl in Hrun. pose proof (inv_running Hinv0 Hrun). contradiction.
    + destruct (worker_step_frame Data update s0 s t E1) as (Hst & _ & Hth & _).
      rewrite Hst in Hrun.
      assert (Hab0 : abandoned s0 = None).
      { destruct (abandoned s0) as [a |] eqn:Ea; [| reflexivity].
        destruct (step_after_raise Data update s0 s (Worker t) a Hinv0 Ea E1) as [_ Ha]. congruence. }
      destruct (IH Hrun Hab0) as (t0 & p0 & Ht0 & Hp0 & Hl0).
      pose proof (lookup_lt_Some _ _ _ Hp0) as Hlt0.
      pose proof (inv_lock Hinv0) as Hlock. unfold is_open, open_iteration in Hlock.
      rewrite Hab0, (pending_at Data s0 t0 p0 Ht0 Hp0) in Hlock.
      unfold worker_step in E1.
      destruct (threads s0 !! t) as [p |] eqn:Hp; [| discriminate].
      destruct (Nat.eq_dec t t0) as [-> | Hne].
      * rewrite Hp0 in Hp. injection Hp as <-.
        exists t0. apply status_eqb_eq in Hrun.
        destruct p0; try discriminate; simpl in Hlock.
        -- rewrite Hrun in E1. injection E1 as <-. exists AtAcquire. simpl.
           rewrite list_lookup_insert_eq by assumption. auto.
        -- rewrite Hlock in E1. injection E1 as <-. exists AtUpdate. simpl.
           rewrite list_lookup_insert_eq by assumption. auto.
        -- destruct (update (data s0)); injection E1 as <-; [| discriminate].
           exists AtRelease. simpl. rewrite list_lookup_insert_eq by assumption. auto.
        -- rewrite Hlock in E1. injection E1 as <-. exists AtTest. simpl.
           rewrite list_lookup_insert_eq by assumption. auto.
      * assert (Hdead : is_live p = false).
        { destruct (is_live p) eqn:L; [| reflexivity].
          destruct (inv_handle Hinv0 t p Hp L) as [Ht _]. congruence. }
        destruct p; simpl in Hdead; discriminate.
Qed.

Lemma filter_live_some (l : list pc) (t : nat) (p : pc) :
  l !! t = Some p -> is_live p = true ->
  1 <= length (filter (fun p => is_live p = true) l).
Proof.
  revert t. induction l as [| x l IH]; intros t Hp Hl; [discriminate |].
  destruct t as [| t]; simpl in Hp.
  - injection Hp as ->. rewrite filter_cons_True by assumption. simpl. lia.
  - specialize (IH t Hp Hl). rewrite filter_cons.
    destruct (decide (is_live x = true)); simpl; lia.
Qed.

(** X2. In every state a module can reach with the status 'running', and
    as long as no update has raised, exactly one thread is inside
    [thread_loop]: a running module has its worker. *)
Theorem running_module_has_one_worker s :
  reachable update s -> thread_status s = running -> abandoned s = None ->
  live_threads s = 1.
Proof.
  intros Hreach Hrun Hab.
  pose proof (live_threads_le_one Data s (inv_reachable Data update s Hreach)) as Hle.
  destruct Hreach as (d & acts & Hexec).
  destruct (running_worker_is_live acts d s Hexec Hrun Hab) as (t & p & _ & Hp & Hl).
  pose proof (filter_live_some (threads s) t p Hp Hl) as Hge.
  unfold live_threads in *. lia.
Qed.

End ThreadingMore.

Section ThreadingCallers.

Import Threading Callbacks.
#[local] Open Scope nat_scope.

Variable Data : Type.
Variable update : Data -> option Data.
Implicit Types s : state Data.

(** A caller waiting in a join gets out of it, unless an update has
    raised. *)
Lemma join_returns s :
  inv s -> ctl s <> Idle -> thread_status s <> running -> abandoned s = None ->
  exists ws s1 s2,
    exec update (map Worker ws) s = Some s1 /\ join_return s1 = Some s2.
Proof.
  intros Hinv Hc Hst Hab.
  destruct (thread s) as [t |] eqn:Ht.
  2: { destruct (inv_started Hinv Ht) as [_ E]. contradiction. }
  destruct (lookup_lt_is_Some_2 (threads s) t (inv_thread Hinv t Ht)) as [p Hp].
  destruct (worker_ends Data update (steps_to_finish p) s t p (le_n _) Hinv Hab Hst Hp)
    as (ws & s1 & p1 & Hexec & Hp1 & Hl1).
  destruct (workers_frame Data update _ _ _ Hexec) as (_ & Hc1 & Ht1).
  exists ws, s1. unfold join_return. rewrite Ht1, Ht, Hp1, Hl1, Hc1.
  destruct (ctl s); [contradiction | eauto | eauto].
Qed.

Lemma pause_done_facts s s2 :
  inv s -> pause_done update s s2 ->
  inv s2 /\ ctl s2 = Idle /\ live_threads s2 = 0 /\
  thread_status s2 =
    (if status_eqb (thread_status s) running then paused else thread_status s).
Proof.
  intros Hinv [Hc H]. destruct (status_eqb (thread_status s) running) eqn:E.
  - destruct H as (ws & s1 & _ & Hexec & Hjoin).
    destruct (joined_threads_ended Data update (pause s) s1 s2 ws
                (inv_pause Data s Hinv) Hexec Hjoin) as (Hinv2 & Hc2 & Hst2 & _ & Hl2).
    repeat (split; [assumption |]). rewrite Hst2. unfold pause. now rewrite E.
  - subst s2. assert (Hnr : thread_status s <> running) by now apply status_eqb_neq.
    unfold pause. rewrite E.
    assert (Hinvp : inv (print "There is no thread running." s)) by now apply inv_print.
    split; [assumption |]. split; [assumption |]. split; [| reflexivity].
    now apply idle_live_threads_zero.
Qed.

Lemma stop_done_facts s s2 :
  inv s -> stop_done update s s2 ->
  inv s2 /\ ctl s2 = Idle /\ live_threads s2 = 0 /\ thread_status s2 = stopped.
Proof.
  intros Hinv [Hc H]. destruct (status_eqb (thread_status s) stopped) eqn:E.
  - subst s2. apply status_eqb_eq in E. unfold stop. rewrite E. simpl.
    assert (Hinvp : inv (print "thread was not running." s)) by now apply inv_print.
    split; [assumption |]. split; [assumption |]. split; [| assumption].
    apply idle_live_threads_zero; [assumption | assumption |]. simpl. congruence.
  - destruct H as (ws & s1 & _ & Hexec & Hjoin).
    destruct (joined_threads_ended Data update (stop s) s1 s2 ws
                (inv_stop Data s Hinv) Hexec Hjoin) as (Hinv2 & Hc2 & Hst2 & _ & Hl2).
    repeat (split; [assumption |]). rewrite Hst2. unfold stop. now rewrite E.
Qed.

Lemma pause_done_exists s :
  inv s -> ctl s = Idle -> abandoned s = None -> exists s2, pause_done update s s2.
Proof.
  intros Hinv Hc Hab. unfold pause_done.
  destruct (status_eqb (thread_status s) running) eqn:E; [| eauto].
  assert (Hp : pause s = set_ctl InPauseJoin (set_status paused s)).
  { unfold pause. now rewrite E. }
  destruct (join_returns (pause s) (inv_pause Data s Hinv)) as (ws & s1 & s2 & H1 & H2);
    try (rewrite Hp; simpl; congruence).
  exists s2. split; [assumption |]. now exists ws, s1.
Qed.

Lemma stop_done_exists s :
  inv s -> ctl s = Idle -> abandoned s = None -> exists s2, stop_done update s s2.
Proof.
  intros Hinv Hc Hab. unfold stop_done.
  destruct (status_eqb (thread_status s) stopped) eqn:E; [eauto |].
  assert (Hp : stop s = set_ctl InStopJoin (set_status stopped s)).
  { unfold stop. now rewrite E. }
  destruct (join_returns (stop s) (inv_stop Data s Hinv)) as (ws & s1 & s2 & H1 & H2);
    try (rewrite Hp; simpl; congruence).
  exists s2. split; [assumption |]. now exists ws, s1.
Qed.

(** A thread started where none is live is the only live one. *)
Lemma live_threads_run s :
  thread_status s <> running -> live_threads s = 0 ->
  thread_status (run s) = running /\ live_threads (run s) = 1 /\
  thread (run s) = Some (length (threads s)) /\ data (run s) = data s /\
  log (run s) = log s.
Proof.
  intros Hnr Hl. unfold run. apply status_eqb_neq in Hnr. rewrite Hnr. simpl.
  repeat (split; [reflexivity |]). split; [| auto].
  unfold live_threads in *. simpl. rewrite filter_app, length_app, Hl. reflexivity.
Qed.

(** X3. [stop()] ends the worker for good: when it has returned (it does,
    unless an update has raised), the status is 'stopped', no thread is
    inside [thread_loop] and no worker can move; [resume()], [stop()] and
    [pause()] then only print, and only [run()] starts a thread again, a
    new one that is the only live one. *)
Theorem stop_ends_worker_until_run s :
  reachable update s -> ctl s = Idle ->
  (abandoned s = None -> exists s2, stop_done update s s2) /\
  (forall s2, stop_done update s s2 ->
     thread_status s2 = stopped /\
     live_threads s2 = 0 /\
     (forall t, worker_step update t s2 = None) /\
     resume s2 = print "Thread already stopped." s2 /\
     stop s2 = print "thread was not running." s2 /\
     pause s2 = print "There is no thread running." s2 /\
     thread_status (run s2) = running /\
     live_threads (run s2) = 1 /\
     thread (run s2) = Some (length (threads s2))).
Proof.
  intros Hreach Hc. pose proof (inv_reachable Data update s Hreach) as Hinv.
  split; [now apply stop_done_exists |].
  intros s2 Hdone.
  destruct (stop_done_facts s s2 Hinv Hdone) as (Hinv2 & Hc2 & Hl2 & Hst2).
  assert (Hnr : thread_status s2 <> running) by congruence.
  split; [assumption |]. split; [assumption |].
  split; [intros t; now apply idle_workers_stuck |].
  split; [unfold resume; now rewrite Hst2 |].
  split; [unfold stop; now rewrite Hst2 |].
  split; [unfold pause; now rewrite Hst2 |].
  destruct (live_threads_run s2 Hnr Hl2) as (H1 & H2 & H3 & _). auto.
Qed.

(** X4. A widget callback [self.pause(); <change>; self.resume()] makes
    its change while no thread is inside [thread_loop].  When the change
    succeeds, a stopped module stays stopped without a worker, and a
    running and also a paused module ends 'running' with exactly one
    worker, which sees the changed data; no update ran in between.  When
    the change raises, [resume()] is skipped: a module that was running is
    left 'paused' without a worker. *)
Theorem callback_changes_between_workers (change : Data -> option Data) s :
  reachable update s -> ctl s = Idle ->
  (abandoned s = None -> exists s3, callback_done update change s s3) /\
  (forall s3, callback_done update change s s3 ->
     exists s2,
       pause_done update s s2 /\ live_threads s2 = 0 /\
       match change (data s2) with
       | Some d =>
           data s3 = d /\ log s3 = log s2 /\
           (thread_status s = stopped ->
            thread_status s3 = stopped /\ live_threads s3 = 0) /\
           (thread_status s <> stopped ->
            thread_status s3 = running /\ live_threads s3 = 1)
       | None =>
           s3 = s2 /\
           (thread_status s = running -> thread_status s3 = paused)
       end).
Proof.
  intros Hreach Hc. pose proof (inv_reachable Data update s Hreach) as Hinv.
  split.
  - intros Hab. destruct (pause_done_exists s Hinv Hc Hab) as [s2 H2].
    eexists. exists s2. split; [eassumption | reflexivity].
  - intros s3 (s2 & Hdone & ->). exists s2.
    destruct (pause_done_facts s s2 Hinv Hdone) as (Hinv2 & Hc2 & Hl2 & Hst2).
    split; [assumption |]. split; [assumption |].
    destruct (change (data s2)) as [d |].
    + assert (Hl : live_threads (set_data d s2) = 0) by exact Hl2.
      assert (Hst : thread_status (set_data d s2) = thread_status s2) by reflexivity.
      destruct (status_eqb (thread_status s) running) eqn:Er.
      * apply status_eqb_eq in Er.
        destruct (live_threads_run (set_data d s2)) as (H1 & H2 & _ & H4 & H5);
          [congruence | assumption |].
        unfold resume. rewrite Hst, Hst2. simpl.
        split; [assumption |]. split; [assumption |].
        split; [congruence | auto].
      * unfold resume. rewrite Hst, Hst2.
        destruct (thread_status s) eqn:Es; try discriminate; simpl.
        -- split; [reflexivity |]. split; [reflexivity |].
           split; [auto | congruence].
        -- destruct (live_threads_run (set_data d s2)) as (H1 & H2 & _ & H4 & H5);
             [congruence | assumption |].
           split; [assumption |]. split; [assumption |].
           split; [congruence | auto].
    + split; [reflexivity |]. intros Hrun. now rewrite Hst2, Hrun.
Qed.


End ThreadingCallers.

Lemma module_after_raise_reachable :
  Threading.reachable count_update module_after_raise.
Proof.
  exists 0%nat, (Threading.CallRun :: repeat (Threading.Worker 0) 15).
  vm_compute. reflexivity.
Qed.

Lemma module_paused_reachable : Threading.reachable count_update module_paused.
Proof.
  exists 0%nat,
    [Threading.CallRun; Threading.CallPause; Threading.Worker 0; Threading.JoinReturn].
  vm_compute. reflexivity.
Qed.

Lemma no_update_after_raise_witness :
  Threading.updates module_after_raise = 4%nat /\
  exists s',
    Threading.exec count_update
      [Threading.CallPause; Threading.JoinReturn; Threading.CallResume;
       Threading.Worker 1] module_after_raise = Some s' /\
    Threading.thread_status s' = Threading.running /\
    Threading.updates s' = 4%nat /\
    Threading.lock s' = true.
Proof.
  split; [vm_compute; reflexivity |].
  destruct (Threading.exec count_update
              [Threading.CallPause; Threading.JoinReturn; Threading.CallResume;
               Threading.Worker 1] module_after_raise) as [s' |] eqn:Hexec;
    [| vm_compute in Hexec; discriminate].
  exists s'. split; [reflexivity |].
  destruct (no_update_after_raise nat count_update module_after_raise s' 0%nat _
              module_after_raise_reachable ltac:(vm_compute; reflexivity) Hexec)
    as (_ & Hu & Hl & _).
  split; [| split; [rewrite Hu; vm_compute; reflexivity | exact Hl]].
  vm_compute in Hexec. injection Hexec as <-. reflexivity.
Defined.

Lemma running_module_has_one_worker_witness :
  Threading.live_threads module_in_update = 1%nat.
Proof.
  exact (running_module_has_one_worker nat count_update module_in_update
           module_in_update_reachable eq_refl eq_refl).
Defined.

Lemma stop_ends_worker_until_run_witness :
  exists s2,
    Callbacks.stop_done count_update module_started s2 /\
    Threading.live_threads s2 = 0%nat /\
    Threading.live_threads (Threading.run s2) = 1%nat.
Proof.
  destruct (stop_ends_worker_until_run nat count_update module_started
              module_started_reachable eq_refl) as [Hex Hall].
  destruct (Hex eq_refl) as [s2 H2]. exists s2.
  destruct (Hall s2 H2) as (_ & H0 & _ & _ & _ & _ & _ & H1 & _). auto.
Defined.

Lemma callback_changes_between_workers_witness :
  exists s3,
    Callbacks.callback_done count_update (fun _ => Some 0%nat) module_paused s3.
Proof.
  destruct (callback_changes_between_workers nat count_update (fun _ => Some 0%nat)
              module_paused module_paused_reachable ltac:(vm_compute; reflexivity))
    as [Hex _].
  exact (Hex ltac:(vm_compute; reflexivity)).
Defined.


(** ** The frame updates *)

Section GeometryMore.

Import Geometry.

(** X6. While the grid of a [GemPyModule] holds no [depth_grid] (it holds
    none after [Grid.__init__], and [update_grid] never stores one),
    [GemPyModule.update] cannot succeed: it ends in a TypeError, having
    overwritten the topography values with [None], or in the ValueError
    of a frame that does not fit the grid, with nothing changed; the grid
    still holds no [depth_grid] afterwards, so the next update fails as
    well, and [values_3D] is never written. *)
Theorem gempy_update_never_succeeds (m : GemPyModule) (f : frame) :
  depth_grid (gp_grid m) = None ->
  let m' := fst (snd (GemPyModule_update m f)) in
  let e := snd (snd (GemPyModule_update m f)) in
  (e = Some TypeError /\ gp_topography_values m' = None \/
   e = Some ValueError /\ m' = m) /\
  depth_grid (gp_grid m') = None /\
  gp_values_3D_z m' = gp_values_3D_z m.
Proof.
  intros Hnone. unfold GemPyModule_update, update_grid_step, at_stage, tbind, tret.
  assert (Hgrid : forall fr,
             GridOps.update_grid (gp_grid m) fr = (gp_grid m, None) \/
             GridOps.update_grid (gp_grid m) fr = (gp_grid m, Some ValueError)).
  { intros fr. unfold GridOps.update_grid.
    destruct (empty_depth_grid (gp_grid m)) as [xy |].
    - destruct (GridOps.np_c_ xy _); auto.
    - destruct (Nat.eqb _ 1); auto. }
  assert (Hstore : forall r,
             r = (gp_grid m, None) \/ r = (gp_grid m, Some ValueError) ->
             let m' := fst (GemPyModule_store m r) in
             let e := snd (GemPyModule_store m r) in
             (e = Some TypeError /\ gp_topography_values m' = None \/
              e = Some ValueError /\ m' = m) /\
             depth_grid (gp_grid m') = None /\
             gp_values_3D_z m' = gp_values_3D_z m).
  { intros r [-> | ->]; unfold GemPyModule_store.
    - rewrite Hnone. simpl. auto.
    - simpl. split; [right; split; [reflexivity | now destruct m] | auto]. }
  destruct (gp_crop m); simpl; apply Hstore, Hgrid.
Qed.

End GeometryMore.

Lemma gempy_update_never_succeeds_witness :
  snd (snd (Geometry.GemPyModule_update gempy_4x5 frame_4x5)) = Some TypeError.
Proof.
  destruct (gempy_update_never_succeeds gempy_4x5 frame_4x5 eq_refl)
    as ([[He _] | [He _]] & _); [exact He | vm_compute in He; discriminate].
Defined.

(** ** The lookup of a BlockModule *)

Section RoundFacts.

#[local] Open Scope Q_scope.

(** Rounding keeps a value inside a range with integer ends. *)
Lemma round_half_even_bounds (q : Q) (n : Z) :
  0 <= q -> q <= inject_Z n ->
  (0 <= Geometry.round_half_even q <= n)%Z.
Proof.
  intros H0 Hn. unfold Geometry.round_half_even.
  pose proof (Qfloor_le q) as Hfl.
  assert (Hfl0 : (0 <= Qfloor q)%Z).
  { change 0%Z with (Qfloor 0). now apply Qfloor_resp_le. }
  assert (Hfln : (Qfloor q <= n)%Z).
  { rewrite <- (Qfloor_Z n). now apply Qfloor_resp_le. }
  assert (Hstrict : 0 < q - inject_Z (Qfloor q) -> (Qfloor q < n)%Z).
  { intros Hpos. destruct (Z_lt_le_dec (Qfloor q) n) as [Hlt | Hge]; [assumption |].
    exfalso. assert (E : Qfloor q = n) by lia. rewrite E in Hpos. lra. }
  destruct (q - inject_Z (Qfloor q) ?= 1 # 2) eqn:E.
  - apply Qeq_alt in E.
    assert (Hpos : 0 < q - inject_Z (Qfloor q)) by lra.
    specialize (Hstrict Hpos). destruct (Z.even (Qfloor q)); lia.
  - lia.
  - apply Qgt_alt in E.
    assert (Hpos : 0 < q - inject_Z (Qfloor q)) by lra.
    specialize (Hstrict Hpos). lia.
Qed.

(** A depth inside the sensor range is sent to a layer of the block. *)
Lemma depth_index_bounds (c : CalibrationData) (depth : Z) (d : Q) :
  s_min c < s_max c -> (1 <= depth)%Z -> s_min c <= d <= s_max c ->
  (0 <= Geometry.depth_index c depth d < depth)%Z.
Proof.
  intros Hlt Hd [Hlo Hhi]. unfold Geometry.depth_index.
  assert (Hpos : 0 < s_max c - s_min c) by lra.
  assert (Hr0 : 0 <= (d - s_min c) / (s_max c - s_min c)).
  { apply Qle_shift_div_l; [assumption |]. lra. }
  assert (Hr1 : (d - s_min c) / (s_max c - s_min c) <= 1).
  { apply Qle_shift_div_r; [assumption |]. lra. }
  assert (Hn1 : inject_Z depth - 1 == inject_Z (depth - 1)).
  { unfold Zminus. rewrite inject_Z_plus. reflexivity. }
  assert (Hn0 : 0 <= inject_Z (depth - 1)).
  { change 0 with (inject_Z 0). rewrite <- Zle_Qle. lia. }
  assert (Hb : (0 <= Geometry.round_half_even
                       ((d - s_min c) / (s_max c - s_min c) * (inject_Z depth - 1))
                <= depth - 1)%Z).
  { apply round_half_even_bounds.
    - apply Qmult_le_0_compat; [assumption | lra].
    - assert (Hm : (d - s_min c) / (s_max c - s_min c) * (inject_Z depth - 1)
                   <= 1 * (inject_Z depth - 1)).
      { apply Qmult_le_compat_r; [assumption | lra]. }
      lra. }
  lia.
Qed.

End RoundFacts.

Section BlockFacts.

Import Geometry.

Lemma zip_with_opt_map_total {A B C D : Type} (F : A -> D -> option C) (h : B -> D)
  (G : A -> B -> C) (la : list A) (lb : list B) :
  Forall2 (fun a b => F a (h b) = Some (G a b)) la lb ->
  zip_with_opt F la (map h lb) = Some (zip_with G la lb).
Proof.
  induction 1 as [| a b la lb Hab _ IH]; simpl; [reflexivity |].
  now rewrite Hab, IH.
Qed.

Lemma zip_with_opt_zip_map {A B C D E : Type} (F : C -> D -> option E)
  (G : A -> B -> C) (h : B -> D) (G' : A -> B -> E) (la : list A) (lb : list B) :
  Forall2 (fun a b => F (G a b) (h b) = Some (G' a b)) la lb ->
  zip_with_opt F (zip_with G la lb) (map h lb) = Some (zip_with G' la lb).
Proof.
  induction 1 as [| a b la lb Hab _ IH]; simpl; [reflexivity |].
  now rewrite Hab, IH.
Qed.

Lemma index_cell_in_bounds (cell : list (option Q)) (k : Z) :
  0 <= k < Z.of_nat (length cell) ->
  index_cell cell k = Some (nth (Z.to_nat k) cell None).
Proof.
  intros [H0 H1]. unfold index_cell.
  assert (E0 : (k <? 0) = false) by lia. rewrite E0.
  assert (E1 : (0 <=? k) && (k <? Z.of_nat (length cell)) = true) by lia.
  rewrite E1. apply nth_error_nth'. lia.
Qed.

(** What an update stores, in terms of the layer each reading is sent
    to. *)
Lemma block_update_stores (m : BlockModule) (sensor_frame : frame) :
  let c := bm_calib m in
  let D := snd (blk_shape (bm_data m)) in
  let f := if bm_crop m then Frame.crop_frame c sensor_frame else sensor_frame in
  let layer := fun v => depth_index c D (Frame.np_clip (s_min c) (s_max c) v) in
  (s_min c < s_max c)%Q -> 1 <= D ->
  Forall2 (Forall2 (fun cell (_ : Q) => Z.of_nat (length cell) = D))
    (blk_cells (bm_data m)) f ->
  snd (snd (BlockModule_update m sensor_frame)) = None /\
  bm_index (fst (snd (BlockModule_update m sensor_frame))) = Some (map (map layer) f) /\
  bm_result (fst (snd (BlockModule_update m sensor_frame)))
  = Some (zip_with
            (zip_with (fun cell v =>
               if Frame.masked_outside (s_min c) (s_max c) v then None
               else nth (Z.to_nat (layer v)) cell None))
            (blk_cells (bm_data m)) f) /\
  Forall (Forall (fun v => 0 <= layer v < D)) f.
Proof.
  intros c D f layer Hlt HD Hfit.
  assert (Hlayer : forall v, 0 <= layer v < D).
  { intros v. apply depth_index_bounds; [assumption | assumption |].
    apply np_clip_in_range. now apply Qlt_le_weak. }
  assert (Hlookup :
    block_lookup (bm_data m)
      (map (map (depth_index c D)) (Frame.clip_frame c f))
    = Some (zip_with (zip_with (fun cell v => nth (Z.to_nat (layer v)) cell None))
              (blk_cells (bm_data m)) f)).
  { unfold block_lookup, Frame.clip_frame. rewrite map_map.
    apply zip_with_opt_map_total.
    eapply Forall2_impl; [exact Hfit |]. intros cells row Hrow. cbn beta.
    rewrite map_map. apply zip_with_opt_map_total.
    eapply Forall2_impl; [exact Hrow |]. intros cell v Hcell. cbn beta in *.
    apply index_cell_in_bounds. rewrite Hcell. apply Hlayer. }
  assert (Hmask :
    apply_mask
      (zip_with (zip_with (fun cell v => nth (Z.to_nat (layer v)) cell None))
         (blk_cells (bm_data m)) f)
      (Frame.depth_mask c f)
    = Some (zip_with
              (zip_with (fun cell v =>
                 if Frame.masked_outside (s_min c) (s_max c) v then None
                 else nth (Z.to_nat (layer v)) cell None))
              (blk_cells (bm_data m)) f)).
  { unfold apply_mask, Frame.depth_mask.
    apply zip_with_opt_zip_map.
    eapply Forall2_impl; [exact Hfit |]. intros cells row Hrow. cbn beta.
    apply zip_with_opt_zip_map.
    eapply Forall2_impl; [exact Hrow |]. intros cell v _. reflexivity. }
  assert (Hrun : snd (BlockModule_update m sensor_frame)
                 = BlockModule_store m
                     (map (map (depth_index c D)) (Frame.clip_frame c f))
                     (Frame.depth_mask c f)
                     (block_lookup (bm_data m)
                        (map (map (depth_index c D)) (Frame.clip_frame c f)))).
  { unfold BlockModule_update, f. destruct (bm_crop m); reflexivity. }
  rewrite Hrun, Hlookup. unfold BlockModule_store. rewrite Hmask. simpl.
  split; [reflexivity |]. split.
  { unfold Frame.clip_frame. rewrite map_map. f_equal. apply map_ext. intros row.
    now rewrite map_map. }
  split; [reflexivity |].
  apply Forall_forall. intros row _. apply Forall_forall. intros v _. apply Hlayer.
Qed.


Lemma round_half_even_ge_floor (q : Q) : Qfloor q <= round_half_even q.
Proof.
  unfold round_half_even. destruct (_ ?= _)%Q; [destruct (Z.even _) | |]; lia.
Qed.

(** The layers at the two ends of the sensor range. *)
Lemma depth_index_ends (c : CalibrationData) (depth : Z) (d : Q) :
  (s_min c < s_max c)%Q -> 1 <= depth ->
  ((d == s_min c)%Q -> depth_index c depth d = 0) /\
  ((d == s_max c)%Q -> depth_index c depth d = depth - 1).
Proof.
  intros Hlt Hd.
  assert (Hn1 : (inject_Z depth - 1 == inject_Z (depth - 1))%Q).
  { unfold Zminus. rewrite inject_Z_plus. reflexivity. }
  unfold depth_index.
  set (x := ((d - s_min c) / (s_max c - s_min c) * (inject_Z depth - 1))%Q).
  split; intros E.
  - assert (E0 : (x == 0)%Q).
    { unfold x. rewrite E. field. lra. }
    assert (H0 : (0 <= x)%Q) by lra.
    assert (H1 : (x <= inject_Z 0)%Q) by (change (inject_Z 0) with 0%Q; lra).
    pose proof (round_half_even_bounds x 0 H0 H1). lia.
  - assert (E1 : (x == inject_Z (depth - 1))%Q).
    { unfold x. rewrite E, Hn1. field. lra. }
    assert (Hd0 : (0 <= inject_Z (depth - 1))%Q).
    { change 0%Q with (inject_Z 0). rewrite <- Zle_Qle. lia. }
    assert (H0 : (0 <= x)%Q) by lra.
    assert (H1 : (x <= inject_Z (depth - 1))%Q) by lra.
    pose proof (round_half_even_bounds x (depth - 1) H0 H1) as Hb.
    pose proof (round_half_even_ge_floor x) as Hf.
    rewrite (Qfloor_comp _ _ E1), Qfloor_Z in Hf. lia.
Qed.

Lemma zip_with_pair_map {A B C K : Type} (g : A -> K * B -> C) (h : B -> K)
  (l : list A) (k : list B) :
  zip_with g l (zip_with pair (map h k) k) = zip_with (fun a b => g a (h b, b)) l k.
Proof.
  revert k. induction l as [| a l IH]; intros [| b k]; simpl; try reflexivity.
  now rewrite IH.
Qed.

Lemma zip_with_rows_map {A B C K : Type} (G : A -> list (K * B) -> C) (h : B -> K)
  (l : list A) (f : list (list B)) :
  zip_with G l (zip_with (zip_with pair) (map (map h) f) f)
  = zip_with (fun a row => G a (zip_with pair (map h row) row)) l f.
Proof.
  revert f. induction l as [| a l IH]; intros [| row f]; simpl; try reflexivity.
  now rewrite IH.
Qed.

(** X7. With [s_min < s_max], a block of at least one layer and block
    cells laid out like the (cropped) frame, [BlockModule.update] raises
    nothing.  The index it stores has one layer for each pixel, each
    between 0 and [D - 1]: the first layer for a reading at or below
    [s_min], the last one for a reading at or above [s_max].  The result
    holds, for each pixel, the cell of its column at the stored layer,
    masked where the reading was outside the sensor range. *)
Theorem block_update_stays_in_bounds (m : BlockModule) (sensor_frame : frame) :
  let c := bm_calib m in
  let D := snd (blk_shape (bm_data m)) in
  let f := if bm_crop m then Frame.crop_frame c sensor_frame else sensor_frame in
  let r := snd (BlockModule_update m sensor_frame) in
  (s_min c < s_max c)%Q -> 1 <= D ->
  Forall2 (Forall2 (fun cell (_ : Q) => Z.of_nat (length cell) = D))
    (blk_cells (bm_data m)) f ->
  snd r = None /\
  exists index,
    bm_index (fst r) = Some index /\
    Forall2 (Forall2 (fun k v =>
               0 <= k < D /\
               ((v <= s_min c)%Q -> k = 0) /\
               ((s_max c <= v)%Q -> k = D - 1)))
      index f /\
    bm_result (fst r)
    = Some (zip_with
              (zip_with (fun cell (kv : Z * Q) =>
                 if Frame.masked_outside (s_min c) (s_max c) (snd kv) then None
                 else nth (Z.to_nat (fst kv)) cell None))
              (blk_cells (bm_data m)) (zip_with (zip_with pair) index f)).
Proof.
  intros c D f r Hlt HD Hfit.
  destruct (block_update_stores m sensor_frame Hlt HD Hfit) as (He & Hi & Hr & Hb).
  split; [exact He |].
  set (layer := fun v => depth_index c D (Frame.np_clip (s_min c) (s_max c) v)) in *.
  exists (map (map layer) f). split; [exact Hi |]. split.
  - apply Forall2_fmap_l, Forall_Forall2_diag.
    rewrite Forall_forall in Hb. apply Forall_forall. intros row Hrow.
    apply Forall2_fmap_l, Forall_Forall2_diag.
    specialize (Hb row Hrow). rewrite Forall_forall in Hb.
    apply Forall_forall. intros v Hv. split; [exact (Hb v Hv) |].
    destruct (depth_index_ends c D (Frame.np_clip (s_min c) (s_max c) v) Hlt HD)
      as [Hlo Hhi].
    unfold layer. split; intros Hv'.
    + apply Hlo. unfold Frame.np_clip, Frame.np_minimum, Frame.np_maximum.
      destruct (Qlt_bool v (s_min c)) eqn:E1.
      * destruct (Qlt_bool (s_max c) (s_min c)) eqn:E2; [| reflexivity].
        apply Qlt_bool_iff in E2. lra.
      * apply Qlt_bool_false_iff in E1.
        destruct (Qlt_bool (s_max c) v) eqn:E2.
        -- apply Qlt_bool_iff in E2. lra.
        -- lra.
    + apply Hhi. unfold Frame.np_clip, Frame.np_minimum, Frame.np_maximum.
      destruct (Qlt_bool v (s_min c)) eqn:E1.
      * apply Qlt_bool_iff in E1. lra.
      * destruct (Qlt_bool (s_max c) v) eqn:E2; [reflexivity |].
        apply Qlt_bool_false_iff in E2. lra.
  - fold r in Hr. rewrite Hr. f_equal. rewrite zip_with_rows_map.
    apply zip_with_ext; [| reflexivity | reflexivity].
    intros cells row. now rewrite zip_with_pair_map.
Qed.

End BlockFacts.

Lemma block_update_stays_in_bounds_witness :
  snd (snd (Geometry.BlockModule_update blockmodule_4x5 frame_4x5)) = None /\
  Geometry.bm_index (fst (snd (Geometry.BlockModule_update blockmodule_4x5 frame_4x5)))
  = Some [[0; 1; 2]; [0; 1; 2]] /\
  Geometry.bm_result (fst (snd (Geometry.BlockModule_update blockmodule_4x5 frame_4x5)))
  = Some [[Some 1; Some 5; None]; [None; Some 5; Some 9]]%Q.
Proof.
  destruct (block_update_stays_in_bounds blockmodule_4x5 frame_4x5)
    as (He & index & Hi & _ & Hr).
  - reflexivity.
  - simpl. lia.
  - vm_compute. repeat constructor.
  - split; [exact He |].
    assert (Hindex : index = [[0; 1; 2]; [0; 1; 2]]).
    { vm_compute in Hi. now injection Hi as <-. }
    split; [rewrite Hi, Hindex; reflexivity |].
    rewrite Hr, Hindex. vm_compute. reflexivity.
Defined.

(** ** The grid and the cropped frame *)

Section GridFacts.

Lemma linspace_length (a b : Q) (num : Z) :
  0 <= num ->
  exists l, GridOps.linspace a b num = Some l /\ length l = Z.to_nat num.
Proof.
  intros Hnum. unfold GridOps.linspace.
  assert (E : (num <? 0) = false) by lia. rewrite E.
  eexists. split; [reflexivity |]. now rewrite length_map, length_seq.
Qed.

Lemma meshgrid_points_length (width height : list Q) :
  length (GridOps.meshgrid_points width height) = (length height * length width)%nat.
Proof.
  unfold GridOps.meshgrid_points.
  induction height as [| y height IH]; simpl; [reflexivity |].
  rewrite length_app, length_map, IH. reflexivity.
Qed.

Lemma has_shape_concat_length (h w : Z) (f : frame) :
  has_shape h w f -> Z.of_nat (length (concat f)) = h * w.
Proof.
  intros [Hrows Hcols]. subst h.
  induction Hcols as [| row f Hrow _ IH]; simpl; [reflexivity |].
  rewrite length_app. lia.
Qed.

Lemma clip_frame_shape (c : CalibrationData) (h w : Z) (f : frame) :
  has_shape h w f -> has_shape h w (Frame.clip_frame c f).
Proof.
  intros [Hrows Hcols]. unfold Frame.clip_frame. split.
  - now rewrite length_map.
  - apply Forall_map. eapply Forall_impl; [exact Hcols |].
    intros row Hrow. cbn beta in *. now rewrite length_map.
Qed.

Lemma crop_frame_shape (c : CalibrationData) (h w : Z) (f : frame) :
  0 <= s_bottom c -> 0 <= s_left c -> 0 < s_top c -> 0 < s_right c ->
  s_top c + s_bottom c < h -> s_left c + s_right c < w ->
  has_shape h w f ->
  Frame.crop_frame c f = Frame.crop_spec c f /\
  has_shape (h - s_top c - s_bottom c) (w - s_left c - s_right c) (Frame.crop_frame c f).
Proof.
  intros Hb Hl Ht Hr Hh Hw Hshape.
  assert (E : Frame.crop_frame c f = Frame.crop_spec c f).
  { unfold Frame.crop_frame. now apply slice2_negative_stops. }
  split; [exact E |]. rewrite E. apply crop_spec_shape; assumption || lia.
Qed.

(** X8. The grid a module sets up fits every frame it crops: with
    margins that leave room in the sensor frame (top and right margin
    positive), [Grid.create_empty_depth_grid] raises nothing and makes
    [s_frame_width * s_frame_height] xy points, and [Grid.update_grid] on
    the cropped and clipped sensor frame raises nothing either: it joins
    to each xy point the scaled depth of one pixel. *)
Theorem grid_fits_cropped_frame (g : Grid) (c : CalibrationData) (sensor_frame : frame) :
  scale_calibration (scale g) = c ->
  0 <= s_bottom c -> 0 <= s_left c -> 0 < s_top c -> 0 < s_right c ->
  s_top c + s_bottom c < s_height c -> s_left c + s_right c < s_width c ->
  has_shape (s_height c) (s_width c) sensor_frame ->
  let g1 := fst (GridOps.create_empty_depth_grid g) in
  let f := Frame.clip_frame c (Frame.crop_frame c sensor_frame) in
  snd (GridOps.create_empty_depth_grid g) = None /\
  exists pts,
    empty_depth_grid g1 = Some pts /\
    length pts = Z.to_nat (s_frame_width c * s_frame_height c) /\
    GridOps.update_grid_local g1 f
    = Some (combine pts (map (GridOps.scale_depth g1) (concat f))) /\
    snd (GridOps.update_grid g1 f) = None.
Proof.
  intros Hc Hb Hl Ht Hr Hh Hw Hshape g1 f.
  assert (Hres : output_res (scale g) = (s_frame_width c, s_frame_height c)).
  { unfold output_res. now rewrite Hc. }
  destruct (linspace_length (extent0 (extent (scale g))) (extent1 (extent (scale g)))
              (s_frame_width c)) as (ws & Ews & Lws); [unfold s_frame_width; lia |].
  destruct (linspace_length (extent2 (extent (scale g))) (extent3 (extent (scale g)))
              (s_frame_height c)) as (hs & Ehs & Lhs); [unfold s_frame_height; lia |].
  pose proof (meshgrid_points_length ws hs) as Hlen.
  assert (Hcount : length (GridOps.meshgrid_points ws hs)
                   = Z.to_nat (s_frame_width c * s_frame_height c)).
  { rewrite Hlen, Lws, Lhs. unfold s_frame_width, s_frame_height. nia. }
  assert (Hcreate : GridOps.create_empty_depth_grid g
                    = (mkGrid (calibration g) (scale g) (depth_grid g)
                         (Some (GridOps.meshgrid_points ws hs)), None)).
  { unfold GridOps.create_empty_depth_grid. rewrite Hres. simpl fst. simpl snd.
    rewrite Ews, Ehs.
    destruct (GridOps.meshgrid_points ws hs) eqn:E; [| reflexivity].
    exfalso. simpl in Hcount. unfold s_frame_width, s_frame_height in Hcount. nia. }
  assert (Hf : has_shape (s_frame_height c) (s_frame_width c) f).
  { apply clip_frame_shape.
    now apply crop_frame_shape. }
  assert (Hflat : length (GridOps.meshgrid_points ws hs) = length (concat f)).
  { rewrite Hcount. pose proof (has_shape_concat_length _ _ _ Hf). lia. }
  split; [now rewrite Hcreate |].
  exists (GridOps.meshgrid_points ws hs). subst g1. rewrite Hcreate. simpl fst.
  split; [reflexivity |]. split; [assumption |]. split.
  - now apply update_grid_local_value.
  - unfold GridOps.update_grid. simpl empty_depth_grid. unfold GridOps.np_c_.
    unfold GridOps.scaled_frame. rewrite <- concat_map, length_map, Hflat, Nat.eqb_refl.
    reflexivity.
Qed.

End GridFacts.

Lemma frame_4x5_shape : has_shape (s_height calib_4x5) (s_width calib_4x5) frame_4x5.
Proof. split; [reflexivity | repeat constructor]. Qed.

Lemma grid_fits_cropped_frame_witness :
  snd (GridOps.create_empty_depth_grid (GridOps.Grid_init calib_4x5 None)) = None /\
  snd (GridOps.update_grid grid_4x5
         (Frame.clip_frame calib_4x5 (Frame.crop_frame calib_4x5 frame_4x5))) = None.
Proof.
  destruct (grid_fits_cropped_frame (GridOps.Grid_init calib_4x5 None) calib_4x5 frame_4x5
              eq_refl ltac:(simpl; lia) ltac:(simpl; lia) ltac:(simpl; lia)
              ltac:(simpl; lia) ltac:(simpl; lia) ltac:(simpl; lia) frame_4x5_shape)
    as (Hcreate & pts & _ & _ & _ & Hupdate).
  split; [exact Hcreate | exact Hupdate].
Defined.

Section ScaleDepthFacts.

#[local] Open Scope Q_scope.

(** X9. With [s_min < s_max] and [extent[4] <= extent[5]], the z values
    [Grid.update_grid] computes from a clipped frame never exceed
    [extent[5]]; a reading at or below [s_min] gives [extent[5]] itself;
    and a larger depth never gives a larger z (the sensor looks down on
    the sand). *)
Theorem scaled_depth_decreases_from_extent5 (g : Grid) (f : frame) :
  let c := calibration g in
  let e := extent (scale g) in
  s_min c < s_max c -> extent4 e <= extent5 e ->
  Forall2 (Forall2 (fun z v => z <= extent5 e /\ (v <= s_min c -> z == extent5 e)))
    (GridOps.scaled_frame g (Frame.clip_frame c f)) f /\
  (forall d d', d <= d' -> GridOps.scale_depth g d' <= GridOps.scale_depth g d).
Proof.
  intros c e Hlt He.
  assert (Hpos : 0 < s_max c - s_min c) by lra.
  assert (Hinv : 0 <= / (s_max c - s_min c)).
  { apply Qinv_le_0_compat. lra. }
  assert (Hk : 0 <= extent5 e - extent4 e) by lra.
  assert (Hmono : forall d d', d <= d' ->
             (d - s_min c) / (s_max c - s_min c) * (extent5 e - extent4 e)
             <= (d' - s_min c) / (s_max c - s_min c) * (extent5 e - extent4 e)).
  { intros d d' Hd. apply Qmult_le_compat_r; [| assumption].
    unfold Qdiv. apply Qmult_le_compat_r; [lra | assumption]. }
  assert (Hlo : forall d, d == s_min c ->
             (d - s_min c) / (s_max c - s_min c) * (extent5 e - extent4 e) == 0).
  { intros d E. rewrite E. field. lra. }
  split.
  - unfold GridOps.scaled_frame, Frame.clip_frame. rewrite map_map.
    apply Forall2_fmap_l, Forall_Forall2_diag, Forall_forall. intros row _.
    unfold compose. rewrite map_map.
    apply Forall2_fmap_l, Forall_Forall2_diag, Forall_forall. intros x _.
    unfold compose.
    destruct (np_clip_in_range (s_min c) (s_max c) x (Qlt_le_weak _ _ Hlt)) as [H1 H2].
    pose proof (Hmono _ _ H1) as M1. pose proof (Hlo (s_min c) (Qeq_refl _)) as Z0.
    unfold GridOps.scale_depth. fold c. fold e. split; [lra |].
    intros Hx.
    assert (Hclip : Frame.np_clip (s_min c) (s_max c) x == s_min c).
    { unfold Frame.np_clip, Frame.np_minimum, Frame.np_maximum.
      destruct (Qlt_bool x (s_min c)) eqn:E1.
      - destruct (Qlt_bool (s_max c) (s_min c)) eqn:E2; [| reflexivity].
        apply Qlt_bool_iff in E2. lra.
      - apply Qlt_bool_false_iff in E1.
        destruct (Qlt_bool (s_max c) x) eqn:E2.
        + apply Qlt_bool_iff in E2. lra.
        + lra. }
    pose proof (Hlo _ Hclip) as Z1. lra.
  - intros d d' Hd. pose proof (Hmono d d' Hd) as M.
    unfold GridOps.scale_depth. fold c. fold e. lra.
Qed.

End ScaleDepthFacts.

Lemma scaled_depth_decreases_from_extent5_witness :
  GridOps.scaled_frame grid_4x5
    (Frame.clip_frame calib_4x5 (Frame.crop_frame calib_4x5 frame_4x5))
  = [[1200000 # 800; 880000 # 800; 560000 # 800];
     [1200000 # 800; 880000 # 800; 560000 # 800]]%Q /\
  Forall2 (Forall2 (fun z v => (z <= 1500 # 1)%Q /\ ((v <= 700 # 1)%Q -> (z == 1500 # 1)%Q)))
    (GridOps.scaled_frame grid_4x5
       (Frame.clip_frame calib_4x5 (Frame.crop_frame calib_4x5 frame_4x5)))
    (Frame.crop_frame calib_4x5 frame_4x5).
Proof.
  split; [vm_compute; reflexivity |].
  apply (scaled_depth_decreases_from_extent5 grid_4x5
           (Frame.crop_frame calib_4x5 frame_4x5));
    vm_compute; [reflexivity | discriminate].
Defined.

(** ** Scale.calculate_scales *)

Section ScaleFacts.

Import ScaleOps.
#[local] Open Scope Q_scope.

Lemma py_div_zero (a b : Q) : b == 0 -> py_div a b = None.
Proof.
  intros H. unfold py_div. apply Qeq_bool_iff in H. now rewrite H.
Qed.

Lemma py_div_nonzero (a b : Q) : ~ b == 0 -> py_div a b = Some (a / b).
Proof.
  intros H. unfold py_div. destruct (Qeq_bool b 0) eqn:E; [| reflexivity].
  apply Qeq_bool_iff in E. contradiction.
Qed.

Lemma Qdiv_eq_zero (a b : Q) : ~ b == 0 -> (a / b == 0 <-> a == 0).
Proof.
  intros Hb. split; intros H.
  - assert (E : a == a / b * b) by (field; exact Hb). rewrite E, H. ring.
  - rewrite H. field. exact Hb.
Qed.

Lemma inject_Z_eq_zero (z : Z) : inject_Z z == 0 <-> z = 0%Z.
Proof.
  change 0 with (inject_Z 0). rewrite inject_Z_injective. reflexivity.
Qed.

(** X10. [Scale.calculate_scales] ends in a ZeroDivisionError exactly
    when the cropped frame has no width or no height, the box has no
    width or no height, or [s_max = s_min]; otherwise every attribute is
    set, and with [xy_isometric] both pixel scales are the larger of the
    two ratios extent / resolution. *)
Theorem calculate_scales_raises_iff (s : Scale) (xy_isometric : bool) (a : ScaleAttrs) :
  let c := scale_calibration s in
  let e := extent s in
  let ps0 := (extent1 e - extent0 e) / inject_Z (s_frame_width c) in
  let ps1 := (extent3 e - extent2 e) / inject_Z (s_frame_height c) in
  let r := calculate_scales s xy_isometric a in
  (snd r = true <->
   s_frame_width c = 0%Z \/ s_frame_height c = 0%Z \/
   box_width c == 0 \/ box_height c == 0 \/ s_max c == s_min c) /\
  (snd r = false ->
   exists p0 p1,
     pixel_scale (fst r) = (Some p0, Some p1) /\
     pixel_size (fst r)
     = (Some (box_width c / inject_Z (s_frame_width c)),
        Some (box_height c / inject_Z (s_frame_height c))) /\
     scale_xyz (fst r)
     = (Some (p0 / (box_width c / inject_Z (s_frame_width c))),
        Some (p1 / (box_height c / inject_Z (s_frame_height c))),
        Some ((extent5 e - extent4 e) / (s_max c - s_min c))) /\
     (xy_isometric = true ->
      p0 = p1 /\ (p0 = ps0 \/ p0 = ps1) /\ ps0 <= p0 /\ ps1 <= p0) /\
     (xy_isometric = false -> p0 = ps0 /\ p1 = ps1)).
Proof.
  intros c e ps0 ps1 r. subst r. unfold calculate_scales, output_res.
  fold c. fold e. cbn [fst snd].
  set (w := inject_Z (s_frame_width c)) in *.
  set (h := inject_Z (s_frame_height c)) in *.
  assert (Hw : w == 0 <-> s_frame_width c = 0%Z) by apply inject_Z_eq_zero.
  assert (Hh : h == 0 <-> s_frame_height c = 0%Z) by apply inject_Z_eq_zero.
  destruct (Qeq_dec w 0) as [Ew | Nw].
  { rewrite (py_div_zero _ w Ew). cbn [fst snd].
    split; [| discriminate]. split; [intros _; left; now apply Hw | reflexivity]. }
  rewrite (py_div_nonzero _ w Nw). fold ps0.
  destruct (Qeq_dec h 0) as [Eh | Nh].
  { rewrite (py_div_zero _ h Eh). cbn [fst snd].
    split; [| discriminate].
    split; [intros _; right; left; now apply Hh | reflexivity]. }
  rewrite (py_div_nonzero _ h Nh). fold ps1.
  rewrite (py_div_nonzero _ w Nw), (py_div_nonzero _ h Nh).
  assert (Hiso : exists p0 p1,
             (if xy_isometric
              then if Qle_bool ps1 ps0 then (ps0, ps0) else (ps1, ps1)
              else (ps0, ps1)) = (p0, p1) /\
             (xy_isometric = true ->
              p0 = p1 /\ (p0 = ps0 \/ p0 = ps1) /\ ps0 <= p0 /\ ps1 <= p0) /\
             (xy_isometric = false -> p0 = ps0 /\ p1 = ps1)).
  { destruct xy_isometric.
    - destruct (Qle_bool ps1 ps0) eqn:E.
      + apply Qle_bool_iff in E. exists ps0, ps0.
        split; [reflexivity |]. split; [| discriminate].
        intros _. repeat split; auto. apply Qle_refl.
      + exists ps1, ps1. split; [reflexivity |]. split; [| discriminate].
        intros _. repeat split; auto; [| apply Qle_refl].
        destruct (Qlt_le_dec ps0 ps1) as [Hlt | Hle]; [now apply Qlt_le_weak |].
        apply Qle_bool_iff in Hle. congruence.
    - exists ps0, ps1. split; [reflexivity |]. split; [discriminate | auto]. }
  destruct Hiso as (p0 & p1 & -> & Hp1 & Hp2).
  assert (Hbw : box_width c / w == 0 <-> box_width c == 0) by now apply Qdiv_eq_zero.
  assert (Hbh : box_height c / h == 0 <-> box_height c == 0) by now apply Qdiv_eq_zero.
  destruct (Qeq_dec (box_width c / w) 0) as [Ebw | Nbw].
  { rewrite (py_div_zero _ _ Ebw). cbn [fst snd].
    split; [| discriminate].
    split; [intros _; right; right; left; now apply Hbw | reflexivity]. }
  rewrite (py_div_nonzero _ _ Nbw).
  destruct (Qeq_dec (box_height c / h) 0) as [Ebh | Nbh].
  { rewrite (py_div_zero _ _ Ebh). cbn [fst snd].
    split; [| discriminate].
    split; [intros _; right; right; right; left; now apply Hbh | reflexivity]. }
  rewrite (py_div_nonzero _ _ Nbh).
  destruct (Qeq_dec (s_max c - s_min c) 0) as [Ez | Nz].
  { rewrite (py_div_zero _ _ Ez). cbn [fst snd].
    split; [| discriminate].
    split; [intros _; right; right; right; right; lra | reflexivity]. }
  rewrite (py_div_nonzero _ _ Nz). cbn [fst snd pixel_scale pixel_size scale_xyz].
  split.
  - split; [discriminate |].
    intros [H | [H | [H | [H | H]]]]; exfalso.
    + now apply Nw, Hw.
    + now apply Nh, Hh.
    + now apply Nbw, Hbw.
    + now apply Nbh, Hbh.
    + apply Nz. lra.
  - intros _. exists p0, p1. auto.
Qed.

End ScaleFacts.

Lemma calculate_scales_raises_iff_witness :
  snd (ScaleOps.calculate_scales (Scale_init calib_unit_margins None) true
         ScaleOps.ScaleAttrs_init) = false /\
  snd (ScaleOps.calculate_scales (Scale_init calib_zero_top None) true
         ScaleOps.ScaleAttrs_init) = false /\
  exists p,
    ScaleOps.pixel_scale
      (fst (ScaleOps.calculate_scales (Scale_init calib_4x5 None) true
              ScaleOps.ScaleAttrs_init)) = (Some p, Some p).
Proof.
  split; [vm_compute; reflexivity |]. split; [vm_compute; reflexivity |].
  destruct (proj2 (calculate_scales_raises_iff (Scale_init calib_4x5 None) true
                     ScaleOps.ScaleAttrs_init) ltac:(vm_compute; reflexivity))
    as (p0 & p1 & Hp & _ & _ & Hiso & _).
  destruct (Hiso eq_refl) as [<- _]. now exists p0.
Defined.

(** ** TopoModule and GradientModule *)

Section TopoFacts.

Import Topo.
#[local] Open Scope Q_scope.

Lemma fold_np_maximum_In (l : list Q) (x : Q) :
  In (fold_left Frame.np_maximum l x) (x :: l).
Proof.
  revert x. induction l as [| y l IH]; intros x; simpl; [now left |].
  assert (Hm : Frame.np_maximum x y = x \/ Frame.np_maximum x y = y).
  { unfold Frame.np_maximum. destruct (Qlt_bool x y); auto. }
  destruct (IH (Frame.np_maximum x y)) as [E | Hin]; [| right; right; exact Hin].
  destruct Hm as [Hm | Hm]; [left | right; left]; rewrite <- E; now rewrite Hm.
Qed.

Lemma fold_np_maximum_ge (l : list Q) (x y : Q) :
  In y (x :: l) -> y <= fold_left Frame.np_maximum l x.
Proof.
  revert x y. induction l as [| z l IH]; intros x y Hin; simpl.
  - destruct Hin as [-> | []]. apply Qle_refl.
  - assert (Hx : x <= Frame.np_maximum x z /\ z <= Frame.np_maximum x z).
    { unfold Frame.np_maximum. destruct (Qlt_bool x z) eqn:E.
      - apply Qlt_bool_iff in E. split; [now apply Qlt_le_weak | apply Qle_refl].
      - apply Qlt_bool_false_iff in E. split; [apply Qle_refl | assumption]. }
    destruct Hx as [Hx Hz].
    destruct Hin as [-> | [-> | Hin]].
    + eapply Qle_trans; [exact Hx |]. apply IH. now left.
    + eapply Qle_trans; [exact Hz |]. apply IH. now left.
    + apply IH. now right.
Qed.

Lemma frame_max_spec (f : frame) (mx : Q) :
  frame_max f = Some mx ->
  In mx (concat f) /\ forall y, In y (concat f) -> y <= mx.
Proof.
  unfold frame_max. destruct (concat f) as [| x l]; [discriminate |].
  intros E. injection E as <-. split.
  - apply fold_np_maximum_In.
  - intros y Hy. now apply fold_np_maximum_ge.
Qed.

Lemma frame_max_is_Some (f : frame) :
  concat f <> [] -> exists mx, frame_max f = Some mx.
Proof.
  unfold frame_max. destruct (concat f); [congruence | eauto].
Qed.

(** X11. [TopoModule.update] with [crop] and [norm] set, [s_min < s_max]
    and a height that is not negative.  When the cropped frame has no
    pixel (as with a zero top or right margin), the update ends in the
    ValueError of [frame.max()] and changes nothing.  When some pixel of
    the cropped frame reads less than [s_max], the rendered frame has a
    number at every pixel of the cropped frame, never a negative one, and
    0 where the reading is [s_max] or more, and the plot range is set to
    0 .. [height].  When the cropped frame has pixels and all read
    [s_max] or more, the rendered frame is nan at every pixel. *)
Theorem topo_update_normalises (m : TopoModule) (sensor_frame : frame) :
  let c := tm_calib m in
  let cropped := Frame.crop_frame c sensor_frame in
  let r := TopoModule_update m sensor_frame in
  tm_crop m = true -> tm_norm m = true ->
  s_min c < s_max c -> 0 <= tm_height m ->
  (concat cropped = [] -> r = (m, inr ValueError)) /\
  (Exists (Exists (fun x => x < s_max c)) cropped ->
   exists out,
     snd r = inl out /\
     tm_vmin (fst r) = 0 /\ tm_vmax (fst r) = tm_height m /\
     Forall2 (Forall2 (fun v x =>
                exists q, v = Finite q /\ 0 <= q /\ (s_max c <= x -> q == 0)))
       out cropped) /\
  (concat cropped <> [] -> Forall (Forall (fun x => s_max c <= x)) cropped ->
   exists out, snd r = inl out /\ Forall (Forall (fun v => v = NaN)) out).
Proof.
  intros c cropped r Hcrop Hnorm Hlt Hh.
  set (g := fun x => s_max c - Frame.np_clip (s_min c) (s_max c) x).
  set (frame1 := map (map (fun x => s_max c - x)) (Frame.clip_frame c cropped)).
  assert (Hframe1 : frame1 = map (map g) cropped).
  { unfold frame1, Frame.clip_frame. rewrite map_map. apply map_ext.
    intros row. now rewrite map_map. }
  assert (Hflat : concat frame1 = map g (concat cropped)).
  { rewrite Hframe1. symmetry. apply concat_map. }
  assert (Hg : forall x, 0 <= g x).
  { intros x. unfold g.
    destruct (np_clip_in_range (s_min c) (s_max c) x (Qlt_le_weak _ _ Hlt)). lra. }
  assert (Hr : r = if tm_norm m then
                     match frame_max frame1 with
                     | None => (m, inr ValueError)
                     | Some mx =>
                         (mkTopo c (tm_crop m) (tm_norm m) (tm_height m) 0 (tm_height m),
                          inl (map (map (fun x =>
                                 np_multiply x (np_divide (tm_height m) mx))) frame1))
                     end
                   else (m, inl (map (map Finite) frame1))).
  { unfold r, TopoModule_update. fold c. rewrite Hcrop. reflexivity. }
  rewrite Hnorm in Hr.
  split; [| split].
  - intros Hempty. rewrite Hr. unfold frame_max. rewrite Hflat, Hempty. reflexivity.
  - intros Hex.
    assert (Hpix : exists x, In x (concat cropped) /\ x < s_max c).
    { apply List.Exists_exists in Hex. destruct Hex as (row & Hrow & Hex).
      apply List.Exists_exists in Hex. destruct Hex as (x & Hx & Hlow).
      exists x. split; [| assumption]. apply in_concat. eauto. }
    destruct Hpix as (x & Hx & Hlow).
    assert (Hgx : 0 < g x).
    { unfold g, Frame.np_clip, Frame.np_minimum, Frame.np_maximum.
      destruct (Qlt_bool x (s_min c)) eqn:E1.
      - destruct (Qlt_bool (s_max c) (s_min c)) eqn:E2; [| lra].
        apply Qlt_bool_iff in E2. lra.
      - destruct (Qlt_bool (s_max c) x) eqn:E2; [| lra].
        apply Qlt_bool_iff in E2. lra. }
    destruct (frame_max_is_Some frame1) as [mx Hmx].
    { rewrite Hflat. intros E.
      destruct (concat cropped); [contradiction | discriminate]. }
    destruct (frame_max_spec frame1 mx Hmx) as [Hin Hmax].
    assert (Hpos : 0 < mx).
    { eapply Qlt_le_trans; [exact Hgx |]. apply Hmax. rewrite Hflat. now apply in_map. }
    assert (Hdiv : np_divide (tm_height m) mx = Finite (tm_height m / mx)).
    { unfold np_divide. destruct (Qeq_bool mx 0) eqn:E; [| reflexivity].
      apply Qeq_bool_iff in E. lra. }
    rewrite Hr, Hmx, Hdiv. eexists. split; [reflexivity |].
    split; [reflexivity |]. split; [reflexivity |].
    assert (Hq0 : 0 <= tm_height m / mx).
    { apply Qle_shift_div_l; [assumption | lra]. }
    rewrite Hframe1, map_map.
    apply Forall2_fmap_l, Forall_Forall2_diag, Forall_forall. intros row _.
    unfold compose. rewrite map_map.
    apply Forall2_fmap_l, Forall_Forall2_diag, Forall_forall. intros x0 _.
    unfold compose. cbn [np_multiply].
    exists (g x0 * (tm_height m / mx)). split; [reflexivity |].
    split; [apply Qmult_le_0_compat; [apply Hg | exact Hq0] |].
    intros Hx0.
    assert (Hg0 : g x0 == 0).
    { unfold g, Frame.np_clip, Frame.np_minimum, Frame.np_maximum.
      destruct (Qlt_bool x0 (s_min c)) eqn:E1.
      - apply Qlt_bool_iff in E1. lra.
      - destruct (Qlt_bool (s_max c) x0) eqn:E2; [lra |].
        apply Qlt_bool_false_iff in E2. lra. }
    rewrite Hg0. ring.
  - intros Hne Hall.
    assert (Hzero : forall y, In y (concat frame1) -> y == 0).
    { intros y Hy. rewrite Hflat in Hy. apply in_map_iff in Hy.
      destruct Hy as (x & <- & Hx).
      assert (Hge : s_max c <= x).
      { apply in_concat in Hx. destruct Hx as (row & Hrow & Hx).
        rewrite List.Forall_forall in Hall. specialize (Hall row Hrow).
        rewrite List.Forall_forall in Hall. now apply Hall. }
      unfold g, Frame.np_clip, Frame.np_minimum, Frame.np_maximum.
      destruct (Qlt_bool x (s_min c)) eqn:E1.
      - apply Qlt_bool_iff in E1. lra.
      - destruct (Qlt_bool (s_max c) x) eqn:E2; [lra |].
        apply Qlt_bool_false_iff in E2. lra. }
    destruct (frame_max_is_Some frame1) as [mx Hmx].
    { rewrite Hflat. intros E. destruct (concat cropped); [contradiction | discriminate]. }
    destruct (frame_max_spec frame1 mx Hmx) as [Hin _].
    pose proof (Hzero mx Hin) as Hmx0.
    rewrite Hr, Hmx. eexists. split; [reflexivity |].
    apply Forall_map, List.Forall_forall. intros row Hrow.
    apply Forall_map, List.Forall_forall. intros y Hy. cbn beta.
    assert (Hy0 : y == 0) by (apply Hzero, in_concat; eauto).
    assert (Hnlt : Qlt_bool 0 y = false) by (apply Qlt_bool_false_iff; lra).
    assert (Hngt : Qlt_bool y 0 = false) by (apply Qlt_bool_false_iff; lra).
    unfold np_divide. apply Qeq_bool_iff in Hmx0. rewrite Hmx0.
    destruct (Qlt_bool 0 (tm_height m)); [simpl; now rewrite Hnlt, Hngt |].
    destruct (Qlt_bool (tm_height m) 0); [simpl; now rewrite Hnlt, Hngt |].
    reflexivity.
Qed.

End TopoFacts.

Lemma topo_update_normalises_witness :
  Topo.TopoModule_update topo_zero_top frame_3x3 = (topo_zero_top, inr ValueError) /\
  exists out,
    snd (Topo.TopoModule_update topo_4x5 frame_4x5) = inl out /\
    Topo.tm_vmax (fst (Topo.TopoModule_update topo_4x5 frame_4x5)) = (2000 # 1)%Q.
Proof.
  split.
  - apply (topo_update_normalises topo_zero_top frame_3x3);
      vm_compute; reflexivity || discriminate.
  - destruct (topo_update_normalises topo_4x5 frame_4x5 eq_refl eq_refl
                ltac:(vm_compute; reflexivity) ltac:(vm_compute; discriminate))
      as (_ & H & _).
    destruct H as (out & Hout & _ & Hmax & _).
    + vm_compute. left. left. reflexivity.
    + exists out. split; assumption.
Defined.

Section GradientFacts.

Import Gradient.

(** Clipping a clipped value changes nothing, whatever the bounds. *)
Lemma np_clip_idempotent (lo hi x : Q) :
  Frame.np_clip lo hi (Frame.np_clip lo hi x) = Frame.np_clip lo hi x.
Proof.
  unfold Frame.np_clip, Frame.np_minimum, Frame.np_maximum.
  destruct (Qlt_bool x lo) eqn:E1.
  - destruct (Qlt_bool hi lo) eqn:E2.
    + rewrite E2, E2. reflexivity.
    + assert (E3 : Qlt_bool lo lo = false) by (apply Qlt_bool_false_iff, Qle_refl).
      rewrite E3, E2. reflexivity.
  - destruct (Qlt_bool hi x) eqn:E2.
    + destruct (Qlt_bool hi lo) eqn:E3.
      * rewrite E3. reflexivity.
      * assert (E4 : Qlt_bool hi hi = false) by (apply Qlt_bool_false_iff, Qle_refl).
        rewrite E4. reflexivity.
    + rewrite E1, E2. reflexivity.
Qed.

Lemma np_gradient_undefined_on_empty_rows (f : frame) :
  Forall (fun row => row = []) f -> np_gradient_defined f = false.
Proof.
  intros H. unfold np_gradient_defined. destruct H as [| row f Hrow _].
  - reflexivity.
  - subst row. simpl. now rewrite andb_false_r.
Qed.

(** X12. [GradientModule.update] takes its gradients of the sensor frame,
    cropped when [crop] is set, and clipped once: the clip of [plot_grad]
    changes nothing in a frame [clip_frame] has clipped, and it clips the
    frame that [update] leaves unclipped when [crop] is off; so with
    [s_min <= s_max] every value the gradients are taken of lies in the
    sensor range.  With [crop] set and a zero top or right margin the
    cropped frame is empty and the update ends in the ValueError of
    [numpy.gradient]; on a frame of at least two rows and two columns it
    raises nothing. *)
Theorem gradient_update_clips_once (c : CalibrationData) (crop : bool)
  (sensor_frame : frame) :
  let frame1 := if crop then Frame.crop_frame c sensor_frame else sensor_frame in
  let r := GradientModule_update c crop sensor_frame in
  fst r = Frame.clip_frame c frame1 /\
  ((s_min c <= s_max c)%Q ->
   Forall (Forall (fun x => (s_min c <= x <= s_max c)%Q)) (fst r)) /\
  (crop = true -> 0 <= s_bottom c -> 0 <= s_left c ->
   s_top c = 0 \/ s_right c = 0 -> snd r = Some ValueError) /\
  (forall h w, has_shape h w frame1 -> 2 <= h -> 2 <= w -> snd r = None).
Proof.
  intros frame1 r.
  assert (Hrun : r = (Frame.clip_frame c frame1,
                      if np_gradient_defined (Frame.clip_frame c frame1)
                      then None else Some ValueError)).
  { unfold r, GradientModule_update. cbv zeta.
    match goal with
    | |- (if np_gradient_defined ?f2 then _ else _) = _ =>
        assert (E : f2 = Frame.clip_frame c frame1)
    end.
    { unfold frame1. destruct crop; [| reflexivity].
      unfold Frame.clip_frame. rewrite map_map. apply map_ext. intros row.
      rewrite map_map. apply map_ext. intros x. apply np_clip_idempotent. }
    rewrite E. now destruct (np_gradient_defined _). }
  assert (Hfst : fst r = Frame.clip_frame c frame1) by now rewrite Hrun.
  assert (Hsnd : snd r = if np_gradient_defined (Frame.clip_frame c frame1)
                         then None else Some ValueError) by now rewrite Hrun.
  clearbody r.
  split; [exact Hfst |]. split; [| split].
  - intros Hle. rewrite Hfst. unfold Frame.clip_frame.
    apply Forall_map, Forall_forall. intros row _.
    apply Forall_map, Forall_forall. intros x _. now apply np_clip_in_range.
  - intros -> Hb Hl Hzero. rewrite Hsnd.
    rewrite np_gradient_undefined_on_empty_rows; [reflexivity |].
    unfold frame1, Frame.clip_frame, Frame.crop_frame, PySlice.slice2.
    destruct Hzero as [E | E]; rewrite E.
    + now rewrite slice_zero_stop.
    + rewrite map_map. apply Forall_map, Forall_forall. intros row _.
      now rewrite slice_zero_stop.
  - intros h w [Hrows Hcols] Hh Hw. rewrite Hsnd.
    assert (E : np_gradient_defined (Frame.clip_frame c frame1) = true).
    { unfold np_gradient_defined, Frame.clip_frame. rewrite length_map.
      apply andb_true_intro. split; [lia |].
      rewrite forallb_forall. intros row Hrow. apply in_map_iff in Hrow.
      destruct Hrow as (row0 & <- & Hin). rewrite length_map.
      rewrite List.Forall_forall in Hcols. specialize (Hcols row0 Hin). simpl in Hcols. lia. }
    now rewrite E.
Qed.

End GradientFacts.

Lemma gradient_update_clips_once_witness :
  snd (Gradient.GradientModule_update calib_zero_top true frame_3x3) = Some ValueError /\
  snd (Gradient.GradientModule_update calib_4x5 true frame_4x5) = None.
Proof.
  split.
  - apply (gradient_update_clips_once calib_zero_top true frame_3x3);
      [reflexivity | simpl; lia | simpl; lia | left; reflexivity].
  - apply (proj2 (proj2 (proj2
             (gradient_update_clips_once calib_4x5 true frame_4x5))) 2 3);
      [| lia | lia].
    split; [reflexivity | vm_compute; repeat constructor].
Defined.

(** ** Calibration files *)

Section PickleFsFacts.

Import CalibPickle CalibPickleFs.

Variable CalData : Type.
Variable pickle_dump : CalData -> list Byte.byte.
Variable pickle_load : list Byte.byte -> CalData + exn.
Variable writable : string -> bool.

(** X13. What [Calibration.save] wrote, [Calibration.load] reads back.
    On a path that can be opened for writing, and with [calibration_data]
    that [pickle.load] restores from what [pickle.dump] wrote, [save]
    raises nothing, prints the path and changes no other file; [load] of
    that path by any calibration then makes its [calibration_data] the
    saved one, raising and printing nothing and keeping its own
    [calibration_file]; and [load] by the saving object with the same
    argument leaves it as it is.  On a path that cannot be opened, [save]
    ends in the OSError and writes nothing. *)
Theorem save_load_roundtrip (self other : Calibration CalData)
  (calibration_file_arg : option string) (fs : files) :
  let path := match calibration_file_arg with
              | None => calibration_file self
              | Some p => p
              end in
  let saved := save pickle_dump writable self calibration_file_arg fs in
  (writable path = true ->
   pickle_load (pickle_dump (calibration_data self)) = inl (calibration_data self) ->
   save_raised saved = None /\
   save_printed saved = [("calibration saved to " ++ path)%string] /\
   (forall p, p <> path -> files_after saved !! p = fs !! p) /\
   load pickle_load other (Some path) (files_after saved)
   = mkLoadEffect CalData
       (mkCalibration CalData (calibration_file other) (calibration_data self)) [] None /\
   self_after (load pickle_load self calibration_file_arg (files_after saved)) = self) /\
  (writable path = false ->
   save_raised saved = Some OSError /\ files_after saved = fs /\ save_printed saved = []).
Proof.
  intros path saved. split.
  - intros Hw Hrt. unfold saved, save. fold path. rewrite Hw. simpl.
    split; [reflexivity |]. split; [reflexivity |]. split.
    + intros p Hp. unfold files. now rewrite lookup_insert_ne by congruence.
    + assert (Hread : forall who arg,
                 match arg with None => calibration_file who | Some p => p end = path ->
                 load pickle_load who arg
                   (<[path := pickle_dump (calibration_data self)]> fs)
                 = mkLoadEffect CalData
                     (mkCalibration CalData (calibration_file who) (calibration_data self))
                     [] None).
      { intros who arg Harg. unfold load, CalibPickle.load, read_pickle, open_rb.
        rewrite Harg. unfold files. rewrite lookup_insert_eq, Hrt. reflexivity. }
      split; [now apply Hread |].
      rewrite (Hread self calibration_file_arg eq_refl). simpl. now destruct self.
  - intros Hw. unfold saved, save. fold path. rewrite Hw. simpl. auto.
Qed.

End PickleFsFacts.

Lemma save_load_roundtrip_witness :
  CalibPickle.calibration_data
    (CalibPickle.self_after
       (CalibPickleFs.load (fun bytes => inl (length bytes))
          (CalibPickle.mkCalibration nat "calibration1.dat" 0%nat) (Some "calibration0.dat"%string)
          (CalibPickleFs.files_after
             (CalibPickleFs.save (fun n => repeat Byte.x00 n) (fun _ => true)
                (CalibPickle.mkCalibration nat "calibration0.dat" 7%nat) None ∅))))
  = 7%nat.
Proof.
  destruct (proj1 (save_load_roundtrip nat (fun n => repeat Byte.x00 n)
                     (fun bytes => inl (length bytes)) (fun _ => true)
                     (CalibPickle.mkCalibration nat "calibration0.dat" 7%nat)
                     (CalibPickle.mkCalibration nat "calibration1.dat" 0%nat)
                     None ∅) eq_refl eq_refl) as (_ & _ & _ & Hload & _).
  exact (f_equal (fun eff => CalibPickle.calibration_data (CalibPickle.self_after eff))
           Hload).
Defined.

Section JsonMore.

Import CalibJson.

(** X14. [CalibrationData.load_json] never writes a file, and whenever
    it raises it leaves the instance as it was: a path without a file is
    an OSError, which, unlike in [Calibration.load], is not caught, and a
    file without a 'version' member is a KeyError.  When it does change
    the instance, the instance becomes the dict read from the file, with
    nothing kept of what it held before: an attribute the file does not
    name is gone. *)
Theorem load_json_errors_keep_instance (self : instance) (file : string)
  (fs : filesystem) :
  let r := load_json self file fs in
  files_after r = fs /\
  (raised r <> None -> self_after r = self /\ printed r = []) /\
  (fs !! file = None -> raised r = Some OSError) /\
  (forall o, fs !! file = Some o -> json_load o !! "version"%string = None ->
             raised r = Some KeyError) /\
  (self_after r <> self ->
   exists o, fs !! file = Some o /\ self_after r = json_load o /\
             raised r = None /\
             forall k, (forall j, (k, j) ∉ o) -> self_after r !! k = None).
Proof.
  intros r. subst r. unfold load_json, filesystem, instance in *.
  destruct (fs !! file) as [o |] eqn:Hfile.
  2: { simpl. split; [reflexivity |]. split; [auto |]. split; [auto |].
       split; [intros o' E; discriminate |]. intros H. exfalso. now apply H. }
  destruct (json_load o !! "version"%string) as [v |] eqn:Hv.
  2: { simpl. split; [reflexivity |]. split; [auto |]. split; [discriminate |].
       split; [auto |]. intros H. exfalso. now apply H. }
  assert (Hkey : forall o', Some o = Some o' ->
                   json_load o' !! "version"%string = None -> False).
  { intros o' E Hn. injection E as <-. congruence. }
  destruct (self !! "version"%string) as [sv |] eqn:Hsv.
  2: { simpl. split; [reflexivity |]. split; [auto |]. split; [discriminate |].
       split; [intros o' E Hn; exfalso; eauto |]. intros H. exfalso. now apply H. }
  destruct (py_eq v sv) eqn:Heq; simpl.
  - split; [reflexivity |]. split; [intros H; exfalso; now apply H |].
    split; [discriminate |]. split; [intros o' E Hn; exfalso; eauto |].
    intros _. exists o. split; [reflexivity |]. split; [reflexivity |].
    split; [reflexivity |].
    intros k Hk. unfold json_load. apply not_elem_of_list_to_map_1.
    rewrite fmap_reverse. intros Hin. rewrite elem_of_reverse in Hin.
    apply list_elem_of_fmap in Hin. destruct Hin as ([k' v'] & Ek & Hin).
    simpl in Ek. subst k'.
    apply list_elem_of_In, in_map_iff in Hin.
    destruct Hin as ([k0 j0] & E & Hin). simpl in E. injection E as -> _.
    apply list_elem_of_In in Hin. exact (Hk j0 Hin).
  - split; [reflexivity |]. split; [intros H; exfalso; now apply H |].
    split; [discriminate |]. split; [intros o' E Hn; exfalso; eauto |].
    intros H. exfalso. now apply H.
Qed.

End JsonMore.

Lemma load_json_errors_keep_instance_witness :
  CalibJson.raised (CalibJson.load_json CalibJson.default_instance "missing.json" ∅)
  = Some OSError.
Proof.
  apply (load_json_errors_keep_instance CalibJson.default_instance "missing.json" ∅).
  reflexivity.
Defined.

(** ** The box of LoadSaveTopoModule *)

Section BoxFacts.

Import BoxTopo.

Lemma callback_keeps_box_in_frame (m : LoadSaveTopoModule) (ev : box_event) :
  box_in_frame m -> in_slider_range (ls_calib m) ev ->
  box_in_frame (callback m ev) /\ ls_calib (callback m ev) = ls_calib m.
Proof.
  destruct m as [c crop [ox oy] bw bh]. unfold box_in_frame.
  intros (H1 & H2 & H3 & H4 & H5 & H6) Hev.
  destruct ev as [new | new | new | new];
    unfold callback, moveBox_possible, in_slider_range in *;
    cbn [ls_calib ls_crop box_origin box_width box_height fst snd] in *;
    repeat match goal with
           | |- context [?a >=? ?b] => destruct (Z.geb_spec a b)
           end;
    (split; [lia | reflexivity]).
Qed.

(** X15. The box of a [LoadSaveTopoModule] stays inside the cropped
    frame: once it lies inside (as the box of [__init__] does in a frame
    of at least 240 by 200 pixels), it still does after any sequence of
    slider events whose values are in the range of their slider.
    Whatever the arguments, [moveBox_possible] leaves a box that does not
    reach past the right or the upper edge of the frame, and never one
    wider or higher than asked for. *)
Theorem box_stays_in_frame (m : LoadSaveTopoModule) (evs : list box_event) :
  (box_in_frame m -> Forall (in_slider_range (ls_calib m)) evs ->
   box_in_frame (fold_left callback evs m)) /\
  (forall x y width height,
     let m1 := moveBox_possible m x y width height in
     box_origin m1 = (x, y) /\
     x + box_width m1 <= s_frame_width (ls_calib m) /\
     y + box_height m1 <= s_frame_height (ls_calib m) /\
     box_width m1 <= width /\ box_height m1 <= height).
Proof.
  split.
  - revert m. induction evs as [| ev evs IH]; intros m Hbox Hevs; simpl; [assumption |].
    inversion Hevs as [| ? ? Hev Hrest]; subst.
    destruct (callback_keeps_box_in_frame m ev Hbox Hev) as [Hbox1 Hc].
    apply IH; [assumption |]. now rewrite Hc.
  - intros x y width height. unfold moveBox_possible.
    cbn [ls_calib ls_crop box_origin box_width box_height fst snd].
    repeat match goal with
           | |- context [?a >=? ?b] => destruct (Z.geb_spec a b)
           end.
    all: split; [reflexivity | lia].
Qed.

Lemma box_module_default_in_frame : box_in_frame box_module_default.
Proof.
  unfold box_in_frame, box_module_default, LoadSaveTopoModule_init, calib_default,
    s_frame_width, s_frame_height. simpl. lia.
Qed.

End BoxFacts.

Lemma box_stays_in_frame_witness :
  BoxTopo.box_in_frame
    (fold_left BoxTopo.callback
       [BoxTopo.MoveBoxHorizontal 400; BoxTopo.BoxWidth 480; BoxTopo.MoveBoxVertical 0]
       box_module_default).
Proof.
  apply (box_stays_in_frame box_module_default
           [BoxTopo.MoveBoxHorizontal 400; BoxTopo.BoxWidth 480; BoxTopo.MoveBoxVertical 0]).
  - exact box_module_default_in_frame.
  - repeat constructor; unfold s_frame_width, s_frame_height; simpl; lia.
Defined.

Section BoxFrameFacts.

Import BoxTopo.

(** [l[a:b]] with [0 <= a <= b <= len(l)] holds the [b - a] items from
    index [a] on. *)
Lemma slice_inside {A : Type} (a b : Z) (l : list A) :
  0 <= a -> a <= b -> b <= Z.of_nat (length l) ->
  PySlice.slice a (Some b) l = firstn (Z.to_nat (b - a)) (skipn (Z.to_nat a) l) /\
  length (PySlice.slice a (Some b) l) = Z.to_nat (b - a).
Proof.
  intros Ha Hab Hb. unfold PySlice.slice, PySlice.slice_bound.
  assert (Ea : (a <? 0) = false) by lia. assert (Eb : (b <? 0) = false) by lia.
  rewrite Ea, Eb. rewrite !Z.min_l by lia.
  split; [reflexivity |]. rewrite length_firstn, length_skipn. lia.
Qed.

Lemma Forall2_map_same {A B : Type} (P : A -> B -> Prop) (h : A -> B) (l : list A) :
  (forall a, P a (h a)) -> Forall2 P l (map h l).
Proof. intros H. induction l; simpl; constructor; auto. Qed.

(** X16. [getBoxFrame] on a box that lies inside the frame (origin,
    width and height not negative, the box not reaching past the frame)
    returns an absolute and a relative topography of [box_height] rows
    and [box_width] columns each.  With [s_max <> s_min] the relative
    topography holds a number at every pixel; with [s_max = s_min] it
    holds none, only infinities and nan. *)
Theorem box_frame_has_box_shape (m : LoadSaveTopoModule)
  (sensor_frame : frame) (h w : Z) :
  let c := ls_calib m in
  let frame1 := if ls_crop m then Frame.crop_frame c sensor_frame else sensor_frame in
  has_shape h w frame1 ->
  0 <= fst (box_origin m) -> 0 <= snd (box_origin m) ->
  0 <= box_width m -> 0 <= box_height m ->
  fst (box_origin m) + box_width m <= w ->
  snd (box_origin m) + box_height m <= h ->
  has_shape (box_height m) (box_width m) (fst (getBoxFrame m sensor_frame)) /\
  Forall2 (Forall2 (fun (a : Q) (r : npfloat) =>
             (~ (s_max c == s_min c)%Q -> exists q, r = Finite q) /\
             ((s_max c == s_min c)%Q -> forall q, r <> Finite q)))
    (fst (getBoxFrame m sensor_frame)) (snd (getBoxFrame m sensor_frame)).
Proof.
  intros c frame1 [Hrows Hcols] Hox Hoy Hbw Hbh Hw Hh.
  destruct m as [c0 crop [ox oy] bw bh].
  cbn [ls_calib ls_crop box_origin box_width box_height fst snd] in *.
  set (cropped := PySlice.slice2 oy (Some (oy + bh)) ox (Some (ox + bw)) frame1).
  assert (Hshape : has_shape bh bw cropped).
  { unfold cropped, PySlice.slice2.
    destruct (slice_inside oy (oy + bh) frame1) as [Es Ls]; [lia | lia | lia |].
    split.
    - rewrite length_map, Ls. lia.
    - apply Forall_map. rewrite Es. apply Forall_take, Forall_drop.
      eapply Forall_impl; [exact Hcols |]. intros row Hrow. cbn beta in *.
      destruct (slice_inside ox (ox + bw) row) as [_ Lr]; [lia | lia | lia |].
      rewrite Lr. lia. }
  assert (Hget : getBoxFrame (mkLoadSaveTopo c0 crop (ox, oy) bw bh) sensor_frame
                 = (map (map (fun x => (x - np_mean cropped)%Q)) cropped,
                    map (map (fun x => Topo.np_divide x (s_max c - s_min c)%Q))
                      (map (map (fun x => (x - np_mean cropped)%Q)) cropped))).
  { reflexivity. }
  rewrite Hget. cbn [fst snd]. split.
  - destruct Hshape as [Hr Hc]. split.
    + now rewrite length_map.
    + apply Forall_map. eapply Forall_impl; [exact Hc |].
      intros row Hrow. cbn beta in *. now rewrite length_map.
  - apply Forall2_map_same. intros row.
    apply Forall2_map_same. intros a. unfold Topo.np_divide.
    destruct (Qeq_bool (s_max c - s_min c) 0) eqn:E.
    + apply Qeq_bool_iff in E. split.
      * intros Hrange. exfalso. apply Hrange. lra.
      * intros _ q. destruct (Qlt_bool 0 a); [discriminate |].
        destruct (Qlt_bool a 0); discriminate.
    + split; [eauto |]. intros Hrange. exfalso.
      assert (E0 : Qeq_bool (s_max c - s_min c) 0 = true) by (apply Qeq_bool_iff; lra).
      congruence.
Qed.

End BoxFrameFacts.

Lemma box_frame_has_box_shape_witness :
  has_shape 1 2 (fst (BoxTopo.getBoxFrame box_module_4x5 frame_4x5)) /\
  length (snd (BoxTopo.getBoxFrame box_module_4x5 frame_4x5)) = 1%nat.
Proof.
  destruct (box_frame_has_box_shape box_module_4x5 frame_4x5 2 3)
    as (Hshape & Hrel).
  - split; [reflexivity | vm_compute; repeat constructor].
  - simpl. lia.
  - simpl. lia.
  - simpl. lia.
  - simpl. lia.
  - simpl. lia.
  - simpl. lia.
  - split; [exact Hshape |].
    rewrite <- (Forall2_length _ _ _ Hrel). destruct Hshape as [Hrows _].
    apply Nat2Z.inj. exact Hrows.
Defined.

Section BoxPadFacts.

Import BoxTopo.

Lemma slice_after_padding {A : Type} (n : nat) (pad l : list A) :
  length pad = n ->
  PySlice.slice (Z.of_nat n) (Some (Z.of_nat n + Z.of_nat (length l))) (pad ++ l) = l.
Proof.
  intros Hpad.
  destruct (slice_inside (Z.of_nat n) (Z.of_nat n + Z.of_nat (length l)) (pad ++ l))
    as [E _]; [lia | lia | rewrite length_app; lia |].
  rewrite E. rewrite Nat2Z.id.
  replace (Z.to_nat (Z.of_nat n + Z.of_nat (length l) - Z.of_nat n)) with (length l) by lia.
  rewrite <- Hpad, skipn_app, skipn_all, Nat.sub_diag. simpl. apply firstn_all.
Qed.

(** X17. [modify_to_box_coordinates] puts a frame at the place of the
    box: for a box origin that is not negative and a frame of
    [box_height] rows and [box_width] columns, the result has
    [box_origin[1]] more rows and (when the frame has a row)
    [box_origin[0]] more columns, the slice of the box cut out of it is
    the frame again, and it is nan left of and below the box.  A negative
    box origin is a ValueError. *)
Theorem modify_to_box_coordinates_places_frame (m : LoadSaveTopoModule)
  (f : list (list npfloat)) :
  let ox := fst (box_origin m) in
  let oy := snd (box_origin m) in
  (0 <= ox -> 0 <= oy ->
   Z.of_nat (length f) = box_height m ->
   Forall (fun row => Z.of_nat (length row) = box_width m) f ->
   exists padded,
     modify_to_box_coordinates m f = inl padded /\
     Z.of_nat (length padded) = oy + box_height m /\
     (f <> [] -> Forall (fun row => Z.of_nat (length row) = ox + box_width m) padded) /\
     box_slice m padded = f /\
     (forall (i j : nat) row v,
        padded !! i = Some row -> row !! j = Some v ->
        Z.of_nat i < oy \/ Z.of_nat j < ox -> v = NaN)) /\
  (ox < 0 \/ oy < 0 -> modify_to_box_coordinates m f = inr ValueError).
Proof.
  destruct m as [c crop [ox0 oy0] bw bh]. intros ox oy.
  unfold modify_to_box_coordinates, box_slice.
  cbn [ls_calib ls_crop box_origin box_width box_height fst snd] in *.
  subst ox oy. split.
  2: { intros [H | H].
       - assert (E : (ox0 <? 0) = true) by lia. now rewrite E.
       - destruct (ox0 <? 0); [reflexivity |].
         assert (E : (oy0 <? 0) = true) by lia. now rewrite E. }
  intros Hox Hoy Hrows Hcols.
  assert (Ex : (ox0 <? 0) = false) by lia. assert (Ey : (oy0 <? 0) = false) by lia.
  rewrite Ex, Ey.
  set (frame1 := map (fun row => repeat NaN (Z.to_nat ox0) ++ row) f).
  set (height := match frame1 with [] => Z.to_nat ox0 | row :: _ => length row end).
  assert (Hrow1 : Forall (fun row => Z.of_nat (length row) = ox0 + bw) frame1).
  { unfold frame1. apply Forall_map. eapply Forall_impl; [exact Hcols |].
    intros row Hrow. cbn beta in *. rewrite length_app, repeat_length. lia. }
  eexists. split; [reflexivity |]. split; [| split; [| split]].
  - rewrite length_app, repeat_length. unfold frame1. rewrite length_map. lia.
  - intros Hne. apply Forall_app. split; [| exact Hrow1].
    apply Forall_forall. intros row Hrow. apply list_elem_of_In, repeat_spec in Hrow.
    subst row. rewrite repeat_length. unfold height.
    destruct frame1 as [| row0 rest] eqn:E.
    + destruct f; [contradiction | discriminate].
    + inversion Hrow1; subst. assumption.
  - unfold PySlice.slice2.
    assert (Hl1 : Z.of_nat (length frame1) = bh).
    { unfold frame1. now rewrite length_map. }
    replace oy0 with (Z.of_nat (Z.to_nat oy0)) at 1 2 by lia. rewrite <- Hl1.
    rewrite slice_after_padding by apply repeat_length.
    unfold frame1. rewrite map_map.
    rewrite <- (map_id f) at 2. apply map_ext_Forall.
    eapply Forall_impl; [exact Hcols |]. intros row Hrow. cbn beta in *.
    replace ox0 with (Z.of_nat (Z.to_nat ox0)) at 1 2 by lia. rewrite <- Hrow.
    apply slice_after_padding, repeat_length.
  - intros i j row v Hi Hj Hout.
    destruct (Nat.lt_ge_cases i (Z.to_nat oy0)) as [Hlt | Hge].
    + rewrite lookup_app_l in Hi by (rewrite repeat_length; lia).
      apply list_elem_of_lookup_2, list_elem_of_In, repeat_spec in Hi. subst row.
      apply list_elem_of_lookup_2, list_elem_of_In, repeat_spec in Hj. exact Hj.
    + rewrite lookup_app_r in Hi by (rewrite repeat_length; lia).
      unfold frame1 in Hi. apply list_elem_of_lookup_2, list_elem_of_In in Hi.
      apply in_map_iff in Hi. destruct Hi as (row0 & <- & _).
      rewrite lookup_app_l in Hj by (rewrite repeat_length; lia).
      apply list_elem_of_lookup_2, list_elem_of_In, repeat_spec in Hj. exact Hj.
Qed.

End BoxPadFacts.

Lemma modify_to_box_coordinates_places_frame_witness :
  BoxTopo.modify_to_box_coordinates box_module_4x5 [[Finite 1; Finite 2]]
  = inl [[NaN; Finite 1; Finite 2]] /\
  BoxTopo.box_slice box_module_4x5 [[NaN; Finite 1; Finite 2]] = [[Finite 1; Finite 2]].
Proof.
  split; [reflexivity |].
  destruct (proj1 (modify_to_box_coordinates_places_frame box_module_4x5
                     [[Finite 1; Finite 2]])
              ltac:(simpl; lia) ltac:(simpl; lia) eq_refl
              ltac:(repeat constructor))
    as (padded & Hpad & _ & _ & Hslice & _).
  injection Hpad as <-. exact Hslice.
Defined.

(** ** Aruco markers *)

Section ArucoFacts.

Import Aruco.


End ArucoFacts.

(** ** The frames of a landslide simulation *)

Section LandslideFacts.

Import Landslide.

Lemma plot_landslide_frame_running (m : LandslideSimulation) :
  running_simulation m = true ->
  (flow_selector m = Horizontal /\ horizontal_flow m = Some (counter m + 1) \/
   flow_selector m = Vertical /\ vertical_flow m = Some (counter m + 1)) ->
  0 <= simulation_frame m <= counter m ->
  let sf := (simulation_frame m + 1) mod (counter m + 1) in
  plot_landslide_frame m
  = (mkLandslide (horizontal_flow m) (vertical_flow m) (flow_selector m)
       (frame_selector m) (counter m) sf (running_simulation m),
     inl (Some sf)) /\
  0 <= sf <= counter m.
Proof.
  intros Hrun Hflow Hsf sf.
  assert (Hsf' : (if simulation_frame m + 1 =? counter m + 1 then 0
                  else simulation_frame m + 1) = sf).
  { unfold sf. destruct (Z.eqb_spec (simulation_frame m + 1) (counter m + 1)) as [E | N].
    - rewrite E, Z.mod_same by lia. reflexivity.
    - rewrite Z.mod_small by lia. reflexivity. }
  assert (Hb : 0 <= sf <= counter m).
  { unfold sf. pose proof (Z.mod_pos_bound (simulation_frame m + 1) (counter m + 1)). lia. }
  split; [| exact Hb].
  unfold plot_landslide_frame. rewrite Hrun, Hsf'.
  assert (Htake : take_frame (Some (counter m + 1)) sf = inl sf).
  { unfold take_frame. assert (E : (sf <? 0) = false) by lia. rewrite E.
    assert (E2 : (0 <=? sf) && (sf <? counter m + 1) = true) by lia.
    now rewrite E2. }
  destruct Hflow as [[-> ->] | [-> ->]]; now rewrite Htake.
Qed.

(** X19. A running simulation shows its frames round and round and
    never reads past the last one: when the selected flow has
    [counter + 1] frames and [simulation_frame] is between 0 and
    [counter], any number of updates raise nothing, the k-th of them
    (counting from one) draws frame
    [(simulation_frame + k) mod (counter + 1)], and [simulation_frame] is
    between 0 and [counter] afterwards. *)
Theorem simulation_frames_cycle (n : nat) : forall m : LandslideSimulation,
  running_simulation m = true ->
  (flow_selector m = Horizontal /\ horizontal_flow m = Some (counter m + 1) \/
   flow_selector m = Vertical /\ vertical_flow m = Some (counter m + 1)) ->
  0 <= simulation_frame m <= counter m ->
  exists m' l,
    plot_landslide_frames n m = (m', inl l) /\
    length l = n /\
    (forall k : nat, (k < n)%nat ->
       l !! k = Some (Some ((simulation_frame m + 1 + Z.of_nat k) mod (counter m + 1)))) /\
    counter m' = counter m /\
    0 <= simulation_frame m' <= counter m'.
Proof.
  induction n as [| n IH]; intros m Hrun Hflow Hsf.
  - exists m, []. simpl. repeat split; try reflexivity; intros; lia.
  - destruct (plot_landslide_frame_running m Hrun Hflow Hsf) as [Hstep Hb].
    set (sf := (simulation_frame m + 1) mod (counter m + 1)) in *.
    set (m1 := mkLandslide (horizontal_flow m) (vertical_flow m) (flow_selector m)
                 (frame_selector m) (counter m) sf (running_simulation m)) in *.
    destruct (IH m1 Hrun Hflow Hb) as (m' & l & Hrest & Hlen & Hl & Hc & Hsf').
    exists m', (Some sf :: l). simpl. rewrite Hstep, Hrest.
    split; [reflexivity |]. split; [simpl; lia |]. split; [| split; assumption].
    intros k Hk. destruct k as [| k].
    + simpl. unfold sf. now rewrite Z.add_0_r.
    + change ((Some sf :: l) !! S k) with (l !! k). rewrite Hl by lia.
      subst m1. cbn [simulation_frame counter]. do 2 f_equal. unfold sf.
      rewrite <- Z.add_assoc, Z.add_mod_idemp_l by lia. f_equal. lia.
Qed.

(** X20. The frame slider reaches one frame too far.  On a simulation
    that is not running and shows the horizontal flow of [counter + 1]
    frames, choosing frame [new] draws that frame for every [new] from 0
    to [counter]; at the end of the slider, which [_callback_load] sets to
    [counter + 1], [_callback_select_frame] ends in an IndexError (before
    it gets to its [resume()]). *)
Theorem frame_slider_end_raises (m : LandslideSimulation) (new : Z) :
  running_simulation m = false ->
  flow_selector m = Horizontal ->
  horizontal_flow m = Some (counter m + 1) ->
  0 <= counter m ->
  (0 <= new <= counter m -> snd (callback_select_frame m new) = inl (Some new)) /\
  snd (callback_select_frame m (frame_selector_end m)) = inr IndexError /\
  simulation_frame (fst (callback_select_frame m new)) = simulation_frame m.
Proof.
  intros Hrun Hflow Hh Hc.
  unfold callback_select_frame, plot_landslide_frame, frame_selector_end.
  cbn [horizontal_flow vertical_flow flow_selector frame_selector counter
       simulation_frame running_simulation].
  rewrite Hrun, Hflow, Hh. unfold take_frame. split; [| split].
  - intros Hnew. assert (E : (new <? 0) = false) by lia. rewrite E.
    assert (E2 : (0 <=? new) && (new <? counter m + 1) = true) by lia.
    now rewrite E2.
  - assert (E : (counter m + 1 <? 0) = false) by lia. rewrite E.
    assert (E2 : (0 <=? counter m + 1) && (counter m + 1 <? counter m + 1) = false) by lia.
    now rewrite E2.
  - destruct (new <? 0); destruct (_ && _); reflexivity.
Qed.

End LandslideFacts.

Lemma simulation_frames_cycle_witness :
  snd (Landslide.plot_landslide_frames 5 landslide_3)
  = inl [Some 1; Some 2; Some 0; Some 1; Some 2].
Proof.
  destruct (simulation_frames_cycle 5 landslide_3 eq_refl
              (or_introl (conj eq_refl eq_refl)) ltac:(simpl; lia))
    as (m' & l & Hrun & _).
  rewrite Hrun. vm_compute in Hrun. injection Hrun as _ <-. reflexivity.
Defined.

Lemma frame_slider_end_raises_witness :
  snd (Landslide.callback_select_frame
         (Landslide.load_simulation_data_npz Landslide.LandslideSimulation_init 3 3)
         3) = inl None /\
  snd (Landslide.callback_select_frame
         (Landslide.mkLandslide (Some 3) (Some 3) Landslide.Horizontal 0 2 0 false)
         3) = inr IndexError.
Proof.
  split; [reflexivity |].
  apply (frame_slider_end_raises
           (Landslide.mkLandslide (Some 3) (Some 3) Landslide.Horizontal 0 2 0 false) 0);
    [reflexivity | reflexivity | reflexivity | simpl; lia].
Defined.

(** ** The margins and the crop *)

Section MarginFacts.

Import PlotMargins.

Lemma drop_margins_lookup {A : Type} (a b : Z) (l : list A) (i : nat) :
  0 <= a -> 0 <= b ->
  Z.of_nat i < Z.of_nat (length l) - a - b ->
  Frame.drop_margins a b l !! i = l !! (Z.to_nat a + i)%nat.
Proof.
  intros Ha Hb Hi. unfold Frame.drop_margins.
  rewrite lookup_take_lt by lia. apply lookup_drop.
Qed.

(** X21. [Module.crop_frame] keeps exactly the pixels that the patches
    of [Plot.add_margins] leave uncovered.  On a sensor frame of shape
    ([s_height], [s_width]), with margins that are not negative: a pixel
    is under no patch exactly when its row is at or above the bottom
    margin and below the top one and its column at or right of the left
    margin and left of the right one; and with a positive top and right
    margin every such pixel is in the cropped frame, [s_bottom] rows and
    [s_left] columns nearer to the origin. *)
Theorem crop_keeps_pixels_outside_margins (c : CalibrationData) (f : frame) (i j : Z) :
  0 <= s_bottom c -> 0 <= s_left c -> 0 <= s_top c -> 0 <= s_right c ->
  has_shape (s_height c) (s_width c) f ->
  0 <= i < s_height c -> 0 <= j < s_width c ->
  (in_margin c i j = false <->
   s_bottom c <= i < s_height c - s_top c /\ s_left c <= j < s_width c - s_right c) /\
  (0 < s_top c -> 0 < s_right c -> in_margin c i j = false ->
   exists x,
     f !! Z.to_nat i ≫= (fun row => row !! Z.to_nat j) = Some x /\
     Frame.crop_frame c f !! Z.to_nat (i - s_bottom c)
       ≫= (fun row => row !! Z.to_nat (j - s_left c)) = Some x).
Proof.
  intros Hb Hl Ht Hr [Hrows Hcols] Hi Hj.
  assert (Hiff : in_margin c i j = false <->
                 s_bottom c <= i < s_height c - s_top c /\
                 s_left c <= j < s_width c - s_right c).
  { unfold in_margin, add_margins, covers. cbn [existsb rect_x rect_y rect_width rect_height].
    rewrite !orb_false_iff, !andb_false_iff. lia. }
  split; [exact Hiff |].
  intros Ht1 Hr1 Hout. apply Hiff in Hout. destruct Hout as [Hi1 Hj1].
  unfold frame in *.
  destruct (lookup_lt_is_Some_2 f (Z.to_nat i)) as [row Hrow]; [lia |].
  assert (Hlen : Z.of_nat (length row) = s_width c).
  { rewrite Forall_lookup in Hcols. exact (Hcols _ _ Hrow). }
  destruct (lookup_lt_is_Some_2 row (Z.to_nat j)) as [x Hx]; [lia |].
  exists x. rewrite Hrow. simpl. split; [exact Hx |].
  unfold Frame.crop_frame. rewrite slice2_negative_stops by assumption.
  unfold Frame.crop_spec.
  change (map (Frame.drop_margins (s_left c) (s_right c))
            (Frame.drop_margins (s_bottom c) (s_top c) f))
    with (Frame.drop_margins (s_left c) (s_right c)
            <$> Frame.drop_margins (s_bottom c) (s_top c) f).
  rewrite list_lookup_fmap, drop_margins_lookup by lia.
  replace (Z.to_nat (s_bottom c) + Z.to_nat (i - s_bottom c))%nat with (Z.to_nat i) by lia.
  rewrite Hrow. simpl. rewrite drop_margins_lookup by lia.
  replace (Z.to_nat (s_left c) + Z.to_nat (j - s_left c))%nat with (Z.to_nat j) by lia.
  exact Hx.
Qed.

End MarginFacts.

Lemma crop_keeps_pixels_outside_margins_witness :
  PlotMargins.in_margin calib_4x5 1 3 = false /\
  PlotMargins.in_margin calib_4x5 0 3 = true /\
  exists x,
    Frame.crop_frame calib_4x5 frame_4x5 !! 0%nat ≫= (fun row => row !! 2%nat) = Some x.
Proof.
  split; [reflexivity |]. split; [reflexivity |].
  destruct (proj2 (crop_keeps_pixels_outside_margins calib_4x5 frame_4x5 1 3
                     ltac:(simpl; lia) ltac:(simpl; lia) ltac:(simpl; lia)
                     ltac:(simpl; lia) frame_4x5_shape
                     ltac:(simpl; lia) ltac:(simpl; lia))
              ltac:(simpl; lia) ltac:(simpl; lia) eq_refl) as (x & _ & Hx).
  exists x. exact Hx.
Defined.


(** ** The xy points of the grid *)

Section GridExtentFacts.

#[local] Open Scope Q_scope.

Lemma linspace_ends (a b : Q) (n : nat) :
  exists mid first_x last_x,
    GridOps.linspace a b (Z.of_nat (S n)) = Some (mid ++ [last_x]) /\
    head (mid ++ [last_x]) = Some first_x /\
    first_x == a /\
    ((1 <= n)%nat -> last_x == b).
Proof.
  unfold GridOps.linspace.
  assert (E : (Z.of_nat (S n) <? 0)%Z = false) by (apply Z.ltb_ge; lia). rewrite E.
  rewrite Nat2Z.id, seq_S, map_app. simpl (map _ [(0 + n)%nat]).
  eexists _, _, _. split; [reflexivity |]. split; [| split].
  - destruct n; simpl; reflexivity.
  - ring.
  - intros Hn. simpl (0 + n)%nat.
    replace (Z.of_nat (S n) - 1)%Z with (Z.of_nat n) by lia.
    field. intros E0. apply (proj1 (inject_Z_eq_zero _)) in E0. lia.
Qed.

(** X22. [Grid.create_empty_depth_grid] spans the extent of the scale:
    with a cropped frame of at least one pixel it raises nothing, its
    first xy point is ([extent[0]], [extent[2]]) and, when the frame has
    at least two columns and two rows, its last one is ([extent[1]],
    [extent[3]]).  With a cropped frame without width or height it stores
    a grid without points and ends in the IndexError of its [print]; with
    a negative width or height it ends in the ValueError of
    [numpy.linspace] and stores nothing. *)
Theorem empty_depth_grid_spans_extent (g : Grid) :
  let e := extent (scale g) in
  let w := fst (output_res (scale g)) in
  let h := snd (output_res (scale g)) in
  let r := GridOps.create_empty_depth_grid g in
  ((w < 0 \/ h < 0)%Z -> r = (g, Some ValueError)) /\
  ((0 <= w)%Z -> (0 <= h)%Z -> (w = 0 \/ h = 0)%Z ->
   snd r = Some IndexError /\ empty_depth_grid (fst r) = Some []) /\
  ((1 <= w)%Z -> (1 <= h)%Z ->
   exists x0 y0 rest,
     snd r = None /\
     empty_depth_grid (fst r) = Some ((x0, y0) :: rest) /\
     x0 == extent0 e /\ y0 == extent2 e /\
     ((2 <= w)%Z -> (2 <= h)%Z ->
      exists front x1 y1,
        (x0, y0) :: rest = front ++ [(x1, y1)] /\
        x1 == extent1 e /\ y1 == extent3 e)).
Proof.
  intros e w h r. subst r. unfold GridOps.create_empty_depth_grid. fold e w h.
  split; [| split].
  - intros [H | H]; unfold GridOps.linspace.
    + assert (E : (w <? 0)%Z = true) by lia. now rewrite E.
    + assert (E : (h <? 0)%Z = true) by lia. rewrite E.
      now destruct (w <? 0)%Z.
  - intros Hw Hh Hzero.
    destruct (linspace_length (extent0 e) (extent1 e) w Hw) as (ws & -> & Lw).
    destruct (linspace_length (extent2 e) (extent3 e) h Hh) as (hs & -> & Lh).
    assert (Hnil : GridOps.meshgrid_points ws hs = []).
    { apply length_zero_iff_nil. rewrite meshgrid_points_length, Lw, Lh.
      destruct Hzero as [-> | ->]; simpl; lia. }
    rewrite Hnil. simpl. auto.
  - intros Hw Hh.
    destruct (linspace_ends (extent0 e) (extent1 e) (Z.to_nat w - 1))
      as (xs & x0 & x1 & Ex & Hx0 & Ex0 & Ex1).
    destruct (linspace_ends (extent2 e) (extent3 e) (Z.to_nat h - 1))
      as (ys & y0 & y1 & Ey & Hy0 & Ey0 & Ey1).
    replace (Z.of_nat (S (Z.to_nat w - 1))) with w in Ex by lia.
    replace (Z.of_nat (S (Z.to_nat h - 1))) with h in Ey by lia.
    rewrite Ex, Ey.
    assert (Hlast : GridOps.meshgrid_points (xs ++ [x1]) (ys ++ [y1])
                    = (GridOps.meshgrid_points (xs ++ [x1]) ys
                       ++ map (fun x => (x, y1)) xs) ++ [(x1, y1)]).
    { unfold GridOps.meshgrid_points. rewrite flat_map_app. simpl.
      rewrite app_nil_r, map_app, app_assoc. reflexivity. }
    assert (Hfirst : exists rest,
               GridOps.meshgrid_points (xs ++ [x1]) (ys ++ [y1]) = (x0, y0) :: rest).
    { unfold GridOps.meshgrid_points.
      destruct (ys ++ [y1]) as [| yh yt] eqn:Eys; [discriminate |].
      injection Hy0 as ->.
      destruct (xs ++ [x1]) as [| xh xt] eqn:Exs; [discriminate |].
      injection Hx0 as ->. simpl. eauto. }
    destruct Hfirst as [rest Hrest]. rewrite Hrest.
    exists x0, y0, rest. simpl. split; [reflexivity |]. split; [reflexivity |].
    split; [exact Ex0 |]. split; [exact Ey0 |].
    intros Hw2 Hh2. rewrite <- Hrest, Hlast. eexists _, x1, y1.
    split; [reflexivity |]. split; [apply Ex1; lia | apply Ey1; lia].
Qed.

End GridExtentFacts.

Lemma empty_depth_grid_spans_extent_witness :
  snd (GridOps.create_empty_depth_grid (GridOps.Grid_init calib_4x5 None)) = None /\
  snd (GridOps.create_empty_depth_grid
         (GridOps.Grid_init (mkCalib 4 4 2 1 2 1 0 1 1 1) None)) = Some IndexError.
Proof.
  split.
  - destruct (proj2 (proj2 (empty_depth_grid_spans_extent
                              (GridOps.Grid_init calib_4x5 None)))
                ltac:(vm_compute; discriminate) ltac:(vm_compute; discriminate))
      as (x0 & y0 & rest & H & _).
    exact H.
  - apply (proj1 (proj2 (empty_depth_grid_spans_extent
                           (GridOps.Grid_init (mkCalib 4 4 2 1 2 1 0 1 1 1) None))));
      vm_compute; [discriminate | discriminate | right; reflexivity].
Defined.

(** ** A sensor range given the wrong way round *)

(** X23. With [s_min > s_max], [Module.clip_frame] sets every pixel to
    [s_max], whatever it read, while [Module.depth_mask] takes the bounds
    in either order and still masks exactly the pixels outside
    [s_max, s_min]. *)
Theorem inverted_range_clips_to_s_max (c : CalibrationData) (f : frame) :
  (s_max c < s_min c)%Q ->
  Frame.clip_frame c f = map (map (fun _ => s_max c)) f /\
  Frame.depth_mask c f
  = map (map (fun x => Qlt_bool x (s_max c) || Qlt_bool (s_min c) x)) f.
Proof.
  intros Hinv. apply Qlt_bool_iff in Hinv as Hswap.
  unfold Frame.clip_frame, Frame.depth_mask. split.
  - apply map_ext. intros row. apply map_ext. intros x.
    unfold Frame.np_clip, Frame.np_minimum, Frame.np_maximum.
    destruct (Qlt_bool x (s_min c)) eqn:E1.
    + now rewrite Hswap.
    + apply Qlt_bool_false_iff in E1.
      assert (E2 : Qlt_bool (s_max c) x = true) by (apply Qlt_bool_iff; lra).
      now rewrite E2.
  - apply map_ext. intros row. apply map_ext. intros x.
    unfold Frame.masked_outside. now rewrite Hswap.
Qed.

Lemma inverted_range_clips_to_s_max_witness :
  Frame.clip_frame (mkCalib 3 3 1 1 1 1 (1500 # 1) (700 # 1) (1000 # 1) (800 # 1)) frame_3x3
  = map (map (fun _ => (700 # 1)%Q)) frame_3x3.
Proof.
  apply (inverted_range_clips_to_s_max
           (mkCalib 3 3 1 1 1 1 (1500 # 1) (700 # 1) (1000 # 1) (800 # 1)) frame_3x3).
  vm_compute. reflexivity.
Defined.
